(** * node_redis client core: a shallow embedding and its checked properties

    The development follows [index.js] (the [RedisClient] class and its
    module-level helpers), [lib/individualCommands.js] (the hooked commands)
    and [lib/utils.js] (reply conversion and ordered completion).

    Conventions of the embedding.
    - The client object is a record; every method is a function from the
      client to the client.  What the client does to the outside world
      (events emitted, callbacks invoked, bytes handed to the stream) is
      appended to the [events] trace of the record.
    - A JavaScript exception (a [TypeError] on [undefined.callback], say) is
      the result [None].
    - Closures created by the library are data ([callback], [write_hook]);
      [invoke] runs them.  Functions supplied by the caller are opaque: their
      invocation is recorded in the trace, and what they do next is a later
      input of the client.
    - Millisecond quantities and counters are integers ([Z]); the only
      non-integer number modelled is [NaN]. *)

From Stdlib Require Import ZArith NArith List String Ascii Bool Lia.
From stdpp Require Import base option list gmap strings pretty.

Local Open Scope Z_scope.

(** ** Text, buffers and numbers *)

(** A JavaScript string is a sequence of UTF-16 code units; a [Buffer] is a
    sequence of bytes. *)
Abbreviation jsstring := (list N) (only parsing).
Abbreviation bytes := (list N) (only parsing).

Definition str (s : string) : jsstring :=
  N_of_ascii <$> list_ascii_of_string s.

Global Arguments str : simpl never.

(** [s.length] *)
Definition js_length (s : jsstring) : Z := Z.of_nat (length s).

Definition jseq (a b : jsstring) : bool := bool_decide (a = b).

(** [s.toUpperCase()] on the ASCII letters (command names are ASCII). *)
Definition to_upper_unit (u : N) : N :=
  if ((97 <=? u) && (u <=? 122))%N then (u - 32)%N else u.

Definition toUpperCase (s : jsstring) : jsstring := to_upper_unit <$> s.

Definition is_high_surrogate (u : N) : bool := ((0xD800 <=? u) && (u <=? 0xDBFF))%N.
Definition is_low_surrogate (u : N) : bool := ((0xDC00 <=? u) && (u <=? 0xDFFF))%N.

Definition replacement_bytes : bytes := [0xEF; 0xBF; 0xBD]%N.

Definition utf8_of_code_point (cp : N) : bytes :=
  (if cp <? 0x80 then [cp]
   else if cp <? 0x800 then
     [N.lor 0xC0 (N.shiftr cp 6); N.lor 0x80 (N.land cp 0x3F)]
   else if cp <? 0x10000 then
     [N.lor 0xE0 (N.shiftr cp 12);
      N.lor 0x80 (N.land (N.shiftr cp 6) 0x3F);
      N.lor 0x80 (N.land cp 0x3F)]
   else
     [N.lor 0xF0 (N.shiftr cp 18);
      N.lor 0x80 (N.land (N.shiftr cp 12) 0x3F);
      N.lor 0x80 (N.land (N.shiftr cp 6) 0x3F);
      N.lor 0x80 (N.land cp 0x3F)])%N.

(** [new Buffer(s, 'utf8')]: a surrogate pair is one code point of four
    bytes, a lone surrogate is written as U+FFFD. *)
Fixpoint utf8_encode (s : jsstring) : bytes :=
  match s with
  | [] => []
  | u :: rest =>
    if is_high_surrogate u then
      match rest with
      | l :: rest' =>
        if is_low_surrogate l then
          utf8_of_code_point
            (0x10000 + N.shiftl (u - 0xD800) 10 + (l - 0xDC00))%N
            ++ utf8_encode rest'
        else replacement_bytes ++ utf8_encode rest
      | [] => replacement_bytes
      end
    else if is_low_surrogate u then replacement_bytes ++ utf8_encode rest
    else utf8_of_code_point u ++ utf8_encode rest
  end.

(** [Buffer.byteLength(s)] *)
Definition byteLength (s : jsstring) : Z := Z.of_nat (length (utf8_encode s)).

Definition is_continuation (b : N) : bool := ((0x80 <=? b) && (b <=? 0xBF))%N.
Definition in_range (lo hi b : N) : bool := ((lo <=? b) && (b <=? hi))%N.
Definition low6 (b : N) : N := N.land b 0x3F.

Definition units_of_code_point (cp : N) : jsstring :=
  (if cp <? 0x10000 then [cp]
   else [0xD800 + N.shiftr (cp - 0x10000) 10;
         0xDC00 + N.land (cp - 0x10000) 0x3FF])%N.

(** [buf.toString()]: UTF-8 decoding; every maximal ill-formed prefix
    becomes one U+FFFD. *)
Fixpoint utf8_decode (b : bytes) : jsstring :=
  match b with
  | [] => []
  | b0 :: r0 =>
    if (b0 <? 0x80)%N then b0 :: utf8_decode r0
    else if in_range 0xC2 0xDF b0 then
      match r0 with
      | b1 :: r1 =>
        if is_continuation b1
        then (N.shiftl (N.land b0 0x1F) 6 + low6 b1)%N :: utf8_decode r1
        else 0xFFFD%N :: utf8_decode r0
      | [] => [0xFFFD%N]
      end
    else if in_range 0xE0 0xEF b0 then
      match r0 with
      | b1 :: r1 =>
        if in_range (if (b0 =? 0xE0)%N then 0xA0 else 0x80)
                    (if (b0 =? 0xED)%N then 0x9F else 0xBF) b1 then
          match r1 with
          | b2 :: r2 =>
            if is_continuation b2
            then (N.shiftl (N.land b0 0x0F) 12 + N.shiftl (low6 b1) 6 + low6 b2)%N
                   :: utf8_decode r2
            else 0xFFFD%N :: utf8_decode r1
          | [] => [0xFFFD%N]
          end
        else 0xFFFD%N :: utf8_decode r0
      | [] => [0xFFFD%N]
      end
    else if in_range 0xF0 0xF4 b0 then
      match r0 with
      | b1 :: r1 =>
        if in_range (if (b0 =? 0xF0)%N then 0x90 else 0x80)
                    (if (b0 =? 0xF4)%N then 0x8F else 0xBF) b1 then
          match r1 with
          | b2 :: r2 =>
            if is_continuation b2 then
              match r2 with
              | b3 :: r3 =>
                if is_continuation b3
                then units_of_code_point
                       (N.shiftl (N.land b0 0x07) 18 + N.shiftl (low6 b1) 12
                        + N.shiftl (low6 b2) 6 + low6 b3)%N
                       ++ utf8_decode r3
                else 0xFFFD%N :: utf8_decode r2
              | [] => [0xFFFD%N]
              end
            else 0xFFFD%N :: utf8_decode r1
          | [] => [0xFFFD%N]
          end
        else 0xFFFD%N :: utf8_decode r0
      | [] => [0xFFFD%N]
      end
    else 0xFFFD%N :: utf8_decode r0
  end.

(** [buf.toString('binary')]: one code unit per byte. *)
Definition latin1_decode (b : bytes) : jsstring := b.

(** Numbers: the integers and [NaN]. *)
Inductive jsnum :=
| Num (z : Z)
| NaN.

Global Instance jsnum_eq_dec : EqDecision jsnum.
Proof. solve_decision. Defined.

Definition num_to_string (n : jsnum) : jsstring :=
  match n with
  | Num z => str (pretty z)
  | NaN => str "NaN"
  end.

Definition is_digit (u : N) : bool := ((48 <=? u) && (u <=? 57))%N.

Fixpoint digits_value (acc : Z) (s : jsstring) : option Z :=
  match s with
  | [] => Some acc
  | u :: rest =>
    if is_digit u then digits_value (10 * acc + Z.of_N (u - 48)) rest else None
  end.

(** [+s] on text.  Exact on the decimal integers; the empty text is [0].
    Any other text stands outside the numbers modelled and reads as [NaN]. *)
Definition string_to_number (s : jsstring) : jsnum :=
  match s with
  | [] => Num 0
  | 45%N :: ((_ :: _) as ds) => from_option (fun z => Num (- z)) NaN (digits_value 0 ds)
  | 43%N :: ((_ :: _) as ds) => from_option Num NaN (digits_value 0 ds)
  | _ => from_option Num NaN (digits_value 0 s)
  end.

(** ** Values

    Arguments handed to a command and replies handed over by the parser. *)
#[warnings="-register-all"] Inductive value :=
| VUndefined
| VNull
| VNum (n : jsnum)
| VStr (s : jsstring)
| VBuf (b : bytes)
| VDate (text : jsstring)                     (* a Date and its toString() *)
| VObj (ctor : jsstring) (text : jsstring)    (* any other object: constructor name, toString() *)
| VArr (l : list value).

Fixpoint join_comma (l : list jsstring) : jsstring :=
  match l with
  | [] => []
  | [s] => s
  | s :: rest => s ++ 44%N :: join_comma rest
  end.

(** [String(v)], also what a template literal does. *)
Fixpoint js_to_string (v : value) : jsstring :=
  match v with
  | VUndefined => str "undefined"
  | VNull => str "null"
  | VNum n => num_to_string n
  | VStr s => s
  | VBuf b => utf8_decode b
  | VDate t => t
  | VObj _ t => t
  | VArr l =>
    join_comma
      (map (fun x => match x with
                     | VUndefined | VNull => []
                     | _ => js_to_string x
                     end) l)
  end.

(** [v.toString()]: a [TypeError] on [null] and [undefined]. *)
Definition toString (v : value) : option jsstring :=
  match v with
  | VUndefined | VNull => None
  | _ => Some (js_to_string v)
  end.

(** [+v] *)
Definition to_number (v : value) : jsnum :=
  match v with
  | VUndefined => NaN
  | VNull => Num 0
  | VNum n => n
  | _ => string_to_number (js_to_string v)
  end.

(** [a[i]] on an array: [undefined] out of range. *)
Definition js_nth (l : list value) (i : nat) : value := nth i l VUndefined.

(** ** Errors, results and what the client does to the outside *)

Inductive error_class := AbortError | AggregateError | ReplyError | ParserError | PlainError.

(** An error object: class, [message], [code], [command], [args], [origin]
    and, for an [AggregateError], [errors].  Stack traces are not modelled. *)
#[warnings="-register-all"] Inductive js_error :=
| JsError (cls : error_class) (message : jsstring) (code : option jsstring)
          (command : option jsstring) (args : option (list value))
          (origin : option js_error) (errors : list js_error).

Definition err_class (e : js_error) := let 'JsError x _ _ _ _ _ _ := e in x.
Definition err_message (e : js_error) := let 'JsError _ x _ _ _ _ _ := e in x.
Definition err_code (e : js_error) := let 'JsError _ _ x _ _ _ _ := e in x.
Definition err_command (e : js_error) := let 'JsError _ _ _ x _ _ _ := e in x.
Definition err_args (e : js_error) := let 'JsError _ _ _ _ x _ _ := e in x.
Definition err_origin (e : js_error) := let 'JsError _ _ _ _ _ x _ := e in x.
Definition err_errors (e : js_error) := let 'JsError _ _ _ _ _ _ x := e in x.

Definition has_code (code : string) (e : js_error) : bool :=
  bool_decide (err_code e = Some (str code)).

(** What a completion sink receives as its second argument: a value, or the
    object [reply_to_object] builds for [hgetall], given by its own
    properties. *)
Inductive result :=
| RVal (v : value)
| RObj (o : gmap (list N) value).

(** What is handed to [stream.write]. *)
Inductive wire :=
| Text (s : jsstring)
| Binary (b : bytes).

(** The texts handed to [self.warn], by kind. *)
Inductive warning :=
| NullArgument (cmd : jsstring)                       (* contains a null argument *)
| UndefinedArgument (cmd : jsstring)                  (* contains an undefined argument *)
| ObjectArgument (cmd : jsstring) (ctor : jsstring)   (* contains an argument of type ctor *)
| StrategyAndMaxAttempts                              (* retry_strategy and max_attempts given *)
| StrategyAndRetryMaxDelay                            (* retry_strategy and retry_max_delay given *)
| ReturnAndDetectBuffers                              (* return_buffers and detect_buffers given *)
| MaxAttemptsDeprecated
| RetryMaxDelayDeprecated.

Inductive event :=
| Emit (name : jsstring) (args : list value)         (* self.emit(name, ...args) *)
| EmitError (e : js_error)                           (* self.emit('error', e) *)
| EmitReconnecting (delay attempt : Z) (error : option js_error)
                   (total_retry_time times_connected : Z)
| Call (id : nat) (err : option js_error) (res : result)  (* a function of the caller is invoked *)
| Resolve (id : nat) (res : result)                  (* out_deferred.resolve *)
| Reject (id : nat) (err : js_error)                 (* out_deferred.reject *)
| StreamWrite (data : wire)
| StreamDestroy
| StreamCreate
| Warn (w : warning).

(** ** Closures of the library, as data *)

Inductive reply_mode := ON | OFF | SKIP | SKIP_ONE_MORE.

Global Instance reply_mode_eq_dec : EqDecision reply_mode.
Proof. solve_decision. Defined.

(** The [call_on_write] closures of [lib/individualCommands.js]. *)
Inductive write_hook :=
| MonitorHook                        (* monitor: self.monitoring = true *)
| ClientReplyHook (m : reply_mode)   (* client: self.reply = reply_on_off *)
| PubSubHook.                        (* subscribe family: enter pub/sub mode *)

(** The completion sinks.  [UserCb] is a function of the caller; the others
    are the closures the library wraps around it. *)
#[warnings="-register-all"] Inductive Callback :=
| UserCb (id : nat)
| DeferredCb (id : nat)                         (* internal_send_command, no callback given *)
| QuitCb (cb : option Callback)                 (* quit_callback(self, callback) *)
| SelectCb (db : value) (cb : option Callback)  (* select_callback(self, db, callback) *)
| ReadyCb (cell : nat)                          (* on_ready's countdown, with its counter *)
| InOrderCb (fn : option Callback) (later : option Callback) (res : result).
                                                (* the wrappers of reply_in_order *)

(** Modelled from the spec: the command record of [lib/command.js], which is
    not among the sources (name, argument list, completion sink, pre-write
    hook, [buffer_args] flag; the captured origin site is left out with the
    stack traces). *)
Record Command := mkCommand {
  command : jsstring;
  args : list value;
  callback : option Callback;
  call_on_write : option write_hook;
  buffer_args : bool
}.

Definition new_Command (name : jsstring) (a : list value) (cb : option Callback)
    (hook : option write_hook) : Command :=
  mkCommand name a cb hook false.

Definition with_callback (cb : option Callback) (o : Command) : Command :=
  mkCommand (command o) (args o) cb (call_on_write o) (buffer_args o).

Definition with_buffer_args (b : bool) (o : Command) : Command :=
  mkCommand (command o) (args o) (callback o) (call_on_write o) b.

(** ** Options and the client record *)

Record retry_params := mkRetryParams {
  attempt : Z;
  error : option js_error;
  total_retry_time : Z;
  times_connected_param : Z
}.

(** What a [retry_strategy] may return: a number, an error, anything else. *)
Inductive strategy_result :=
| SNumber (delay : Z)
| SError (e : js_error)
| SOther.

(** The options a caller passes, after [utils.clone].  [address] is the text
    the constructor derives from host, port or path; [key_indexes] stands for
    [commands.getKeyIndexes] of the redis-commands package, [debug_mode] for
    the module's [exports.debug_mode].  Authentication ([auth_pass]) and the
    INFO probe of the ready check are outside the model: the client is taken
    with [no_ready_check], so that [on_connect] goes on to [on_ready]. *)
Record Options := mkOptions {
  address : jsstring;
  retry_strategy : option (retry_params -> strategy_result);
  opt_max_attempts : option Z;
  opt_retry_max_delay : option Z;
  opt_connect_timeout : option Z;
  opt_enable_offline_queue : option bool;
  retry_unfulfilled_commands : bool;
  prefix : option jsstring;
  rename_commands : gmap (list N) (list N);
  return_buffers : bool;
  detect_buffers : bool;
  disable_resubscribing : bool;
  db : option value;
  key_indexes : jsstring -> list wire -> list nat;
  debug_mode : bool
}.

(** The fields of [RedisClient] the modelled methods read or write, the
    stream and the scheduler as far as the client sees them, and the trace. *)
Record RedisClient := mkClient {
  options : Options;
  connected : bool;
  ready : bool;
  closing : bool;
  emitted_end : bool;
  should_buffer : bool;
  max_attempts : Z;
  connect_timeout : Z;
  retry_max_delay : option Z;
  enable_offline_queue : bool;
  command_queue : list Command;
  offline_queue : list Command;
  pipeline_queue : list wire;
  retry_timer : option (Z * option js_error);   (* the pending setTimeout(retry_connection, delay, self, error) *)
  retry_totaltime : Z;
  retry_delay : Z;
  attempts : Z;
  pub_sub_mode : Z;
  subscription_set : gmap (list N) value;
  monitoring : bool;
  message_buffers : bool;
  fire_strings : bool;
  pipeline : bool;
  corkable : bool;   (* cork/uncork are the closures of on_ready (true) or noop (false) *)
  selected_db : option value;
  sub_commands_left : jsnum;
  times_connected : Z;
  buffers : bool;
  reply : reply_mode;
  detect_buffers_reply : bool;   (* RedisClient.handle_reply is handle_detect_buffers_reply *)
  stream_writable : bool;   (* this.stream.writable *)
  stream_write_ok : bool;   (* what this.stream.write returns *)
  deferred_count : nat;   (* promises handed out so far *)
  ready_cells : list Z;   (* the callback_count variables of the on_ready calls *)
  ticks : list (option Callback * option js_error * result);   (* what process.nextTick holds *)
  events : list event   (* the trace *)
}.

(** Field assignments [this.f = v]. *)
Definition set_connected (v : bool) (c : RedisClient) : RedisClient :=
  mkClient (options c) v (ready c) (closing c) (emitted_end c) (should_buffer c)
    (max_attempts c) (connect_timeout c) (retry_max_delay c) (enable_offline_queue c)
    (command_queue c) (offline_queue c) (pipeline_queue c) (retry_timer c) (retry_totaltime
    c) (retry_delay c) (attempts c) (pub_sub_mode c) (subscription_set c) (monitoring c)
    (message_buffers c) (fire_strings c) (pipeline c) (corkable c) (selected_db c)
    (sub_commands_left c) (times_connected c) (buffers c) (reply c) (detect_buffers_reply c)
    (stream_writable c) (stream_write_ok c) (deferred_count c) (ready_cells c) (ticks c)
    (events c).

Definition set_ready (v : bool) (c : RedisClient) : RedisClient :=
  mkClient (options c) (connected c) v (closing c) (emitted_end c) (should_buffer c)
    (max_attempts c) (connect_timeout c) (retry_max_delay c) (enable_offline_queue c)
    (command_queue c) (offline_queue c) (pipeline_queue c) (retry_timer c) (retry_totaltime
    c) (retry_delay c) (attempts c) (pub_sub_mode c) (subscription_set c) (monitoring c)
    (message_buffers c) (fire_strings c) (pipeline c) (corkable c) (selected_db c)
    (sub_commands_left c) (times_connected c) (buffers c) (reply c) (detect_buffers_reply c)
    (stream_writable c) (stream_write_ok c) (deferred_count c) (ready_cells c) (ticks c)
    (events c).

Definition set_closing (v : bool) (c : RedisClient) : RedisClient :=
  mkClient (options c) (connected c) (ready c) v (emitted_end c) (should_buffer c)
    (max_attempts c) (connect_timeout c) (retry_max_delay c) (enable_offline_queue c)
    (command_queue c) (offline_queue c) (pipeline_queue c) (retry_timer c) (retry_totaltime
    c) (retry_delay c) (attempts c) (pub_sub_mode c) (subscription_set c) (monitoring c)
    (message_buffers c) (fire_strings c) (pipeline c) (corkable c) (selected_db c)
    (sub_commands_left c) (times_connected c) (buffers c) (reply c) (detect_buffers_reply c)
    (stream_writable c) (stream_write_ok c) (deferred_count c) (ready_cells c) (ticks c)
    (events c).

Definition set_emitted_end (v : bool) (c : RedisClient) : RedisClient :=
  mkClient (options c) (connected c) (ready c) (closing c) v (should_buffer c) (max_attempts
    c) (connect_timeout c) (retry_max_delay c) (enable_offline_queue c) (command_queue c)
    (offline_queue c) (pipeline_queue c) (retry_timer c) (retry_totaltime c) (retry_delay c)
    (attempts c) (pub_sub_mode c) (subscription_set c) (monitoring c) (message_buffers c)
    (fire_strings c) (pipeline c) (corkable c) (selected_db c) (sub_commands_left c)
    (times_connected c) (buffers c) (reply c) (detect_buffers_reply c) (stream_writable c)
    (stream_write_ok c) (deferred_count c) (ready_cells c) (ticks c) (events c).

Definition set_should_buffer (v : bool) (c : RedisClient) : RedisClient :=
  mkClient (options c) (connected c) (ready c) (closing c) (emitted_end c) v (max_attempts
    c) (connect_timeout c) (retry_max_delay c) (enable_offline_queue c) (command_queue c)
    (offline_queue c) (pipeline_queue c) (retry_timer c) (retry_totaltime c) (retry_delay c)
    (attempts c) (pub_sub_mode c) (subscription_set c) (monitoring c) (message_buffers c)
    (fire_strings c) (pipeline c) (corkable c) (selected_db c) (sub_commands_left c)
    (times_connected c) (buffers c) (reply c) (detect_buffers_reply c) (stream_writable c)
    (stream_write_ok c) (deferred_count c) (ready_cells c) (ticks c) (events c).

Definition set_command_queue (v : list Command) (c : RedisClient) : RedisClient :=
  mkClient (options c) (connected c) (ready c) (closing c) (emitted_end c) (should_buffer c)
    (max_attempts c) (connect_timeout c) (retry_max_delay c) (enable_offline_queue c) v
    (offline_queue c) (pipeline_queue c) (retry_timer c) (retry_totaltime c) (retry_delay c)
    (attempts c) (pub_sub_mode c) (subscription_set c) (monitoring c) (message_buffers c)
    (fire_strings c) (pipeline c) (corkable c) (selected_db c) (sub_commands_left c)
    (times_connected c) (buffers c) (reply c) (detect_buffers_reply c) (stream_writable c)
    (stream_write_ok c) (deferred_count c) (ready_cells c) (ticks c) (events c).

Definition set_offline_queue (v : list Command) (c : RedisClient) : RedisClient :=
  mkClient (options c) (connected c) (ready c) (closing c) (emitted_end c) (should_buffer c)
    (max_attempts c) (connect_timeout c) (retry_max_delay c) (enable_offline_queue c)
    (command_queue c) v (pipeline_queue c) (retry_timer c) (retry_totaltime c) (retry_delay
    c) (attempts c) (pub_sub_mode c) (subscription_set c) (monitoring c) (message_buffers c)
    (fire_strings c) (pipeline c) (corkable c) (selected_db c) (sub_commands_left c)
    (times_connected c) (buffers c) (reply c) (detect_buffers_reply c) (stream_writable c)
    (stream_write_ok c) (deferred_count c) (ready_cells c) (ticks c) (events c).

Definition set_pipeline_queue (v : list wire) (c : RedisClient) : RedisClient :=
  mkClient (options c) (connected c) (ready c) (closing c) (emitted_end c) (should_buffer c)
    (max_attempts c) (connect_timeout c) (retry_max_delay c) (enable_offline_queue c)
    (command_queue c) (offline_queue c) v (retry_timer c) (retry_totaltime c) (retry_delay
    c) (attempts c) (pub_sub_mode c) (subscription_set c) (monitoring c) (message_buffers c)
    (fire_strings c) (pipeline c) (corkable c) (selected_db c) (sub_commands_left c)
    (times_connected c) (buffers c) (reply c) (detect_buffers_reply c) (stream_writable c)
    (stream_write_ok c) (deferred_count c) (ready_cells c) (ticks c) (events c).

Definition set_retry_timer (v : option (Z * option js_error)) (c : RedisClient) : RedisClient :=
  mkClient (options c) (connected c) (ready c) (closing c) (emitted_end c) (should_buffer c)
    (max_attempts c) (connect_timeout c) (retry_max_delay c) (enable_offline_queue c)
    (command_queue c) (offline_queue c) (pipeline_queue c) v (retry_totaltime c)
    (retry_delay c) (attempts c) (pub_sub_mode c) (subscription_set c) (monitoring c)
    (message_buffers c) (fire_strings c) (pipeline c) (corkable c) (selected_db c)
    (sub_commands_left c) (times_connected c) (buffers c) (reply c) (detect_buffers_reply c)
    (stream_writable c) (stream_write_ok c) (deferred_count c) (ready_cells c) (ticks c)
    (events c).

Definition set_retry_totaltime (v : Z) (c : RedisClient) : RedisClient :=
  mkClient (options c) (connected c) (ready c) (closing c) (emitted_end c) (should_buffer c)
    (max_attempts c) (connect_timeout c) (retry_max_delay c) (enable_offline_queue c)
    (command_queue c) (offline_queue c) (pipeline_queue c) (retry_timer c) v (retry_delay c)
    (attempts c) (pub_sub_mode c) (subscription_set c) (monitoring c) (message_buffers c)
    (fire_strings c) (pipeline c) (corkable c) (selected_db c) (sub_commands_left c)
    (times_connected c) (buffers c) (reply c) (detect_buffers_reply c) (stream_writable c)
    (stream_write_ok c) (deferred_count c) (ready_cells c) (ticks c) (events c).

Definition set_retry_delay (v : Z) (c : RedisClient) : RedisClient :=
  mkClient (options c) (connected c) (ready c) (closing c) (emitted_end c) (should_buffer c)
    (max_attempts c) (connect_timeout c) (retry_max_delay c) (enable_offline_queue c)
    (command_queue c) (offline_queue c) (pipeline_queue c) (retry_timer c) (retry_totaltime
    c) v (attempts c) (pub_sub_mode c) (subscription_set c) (monitoring c) (message_buffers
    c) (fire_strings c) (pipeline c) (corkable c) (selected_db c) (sub_commands_left c)
    (times_connected c) (buffers c) (reply c) (detect_buffers_reply c) (stream_writable c)
    (stream_write_ok c) (deferred_count c) (ready_cells c) (ticks c) (events c).

Definition set_attempts (v : Z) (c : RedisClient) : RedisClient :=
  mkClient (options c) (connected c) (ready c) (closing c) (emitted_end c) (should_buffer c)
    (max_attempts c) (connect_timeout c) (retry_max_delay c) (enable_offline_queue c)
    (command_queue c) (offline_queue c) (pipeline_queue c) (retry_timer c) (retry_totaltime
    c) (retry_delay c) v (pub_sub_mode c) (subscription_set c) (monitoring c)
    (message_buffers c) (fire_strings c) (pipeline c) (corkable c) (selected_db c)
    (sub_commands_left c) (times_connected c) (buffers c) (reply c) (detect_buffers_reply c)
    (stream_writable c) (stream_write_ok c) (deferred_count c) (ready_cells c) (ticks c)
    (events c).

Definition set_pub_sub_mode (v : Z) (c : RedisClient) : RedisClient :=
  mkClient (options c) (connected c) (ready c) (closing c) (emitted_end c) (should_buffer c)
    (max_attempts c) (connect_timeout c) (retry_max_delay c) (enable_offline_queue c)
    (command_queue c) (offline_queue c) (pipeline_queue c) (retry_timer c) (retry_totaltime
    c) (retry_delay c) (attempts c) v (subscription_set c) (monitoring c) (message_buffers
    c) (fire_strings c) (pipeline c) (corkable c) (selected_db c) (sub_commands_left c)
    (times_connected c) (buffers c) (reply c) (detect_buffers_reply c) (stream_writable c)
    (stream_write_ok c) (deferred_count c) (ready_cells c) (ticks c) (events c).

Definition set_subscription_set (v : gmap (list N) value) (c : RedisClient) : RedisClient :=
  mkClient (options c) (connected c) (ready c) (closing c) (emitted_end c) (should_buffer c)
    (max_attempts c) (connect_timeout c) (retry_max_delay c) (enable_offline_queue c)
    (command_queue c) (offline_queue c) (pipeline_queue c) (retry_timer c) (retry_totaltime
    c) (retry_delay c) (attempts c) (pub_sub_mode c) v (monitoring c) (message_buffers c)
    (fire_strings c) (pipeline c) (corkable c) (selected_db c) (sub_commands_left c)
    (times_connected c) (buffers c) (reply c) (detect_buffers_reply c) (stream_writable c)
    (stream_write_ok c) (deferred_count c) (ready_cells c) (ticks c) (events c).

Definition set_monitoring (v : bool) (c : RedisClient) : RedisClient :=
  mkClient (options c) (connected c) (ready c) (closing c) (emitted_end c) (should_buffer c)
    (max_attempts c) (connect_timeout c) (retry_max_delay c) (enable_offline_queue c)
    (command_queue c) (offline_queue c) (pipeline_queue c) (retry_timer c) (retry_totaltime
    c) (retry_delay c) (attempts c) (pub_sub_mode c) (subscription_set c) v (message_buffers
    c) (fire_strings c) (pipeline c) (corkable c) (selected_db c) (sub_commands_left c)
    (times_connected c) (buffers c) (reply c) (detect_buffers_reply c) (stream_writable c)
    (stream_write_ok c) (deferred_count c) (ready_cells c) (ticks c) (events c).

Definition set_message_buffers (v : bool) (c : RedisClient) : RedisClient :=
  mkClient (options c) (connected c) (ready c) (closing c) (emitted_end c) (should_buffer c)
    (max_attempts c) (connect_timeout c) (retry_max_delay c) (enable_offline_queue c)
    (command_queue c) (offline_queue c) (pipeline_queue c) (retry_timer c) (retry_totaltime
    c) (retry_delay c) (attempts c) (pub_sub_mode c) (subscription_set c) (monitoring c) v
    (fire_strings c) (pipeline c) (corkable c) (selected_db c) (sub_commands_left c)
    (times_connected c) (buffers c) (reply c) (detect_buffers_reply c) (stream_writable c)
    (stream_write_ok c) (deferred_count c) (ready_cells c) (ticks c) (events c).

Definition set_fire_strings (v : bool) (c : RedisClient) : RedisClient :=
  mkClient (options c) (connected c) (ready c) (closing c) (emitted_end c) (should_buffer c)
    (max_attempts c) (connect_timeout c) (retry_max_delay c) (enable_offline_queue c)
    (command_queue c) (offline_queue c) (pipeline_queue c) (retry_timer c) (retry_totaltime
    c) (retry_delay c) (attempts c) (pub_sub_mode c) (subscription_set c) (monitoring c)
    (message_buffers c) v (pipeline c) (corkable c) (selected_db c) (sub_commands_left c)
    (times_connected c) (buffers c) (reply c) (detect_buffers_reply c) (stream_writable c)
    (stream_write_ok c) (deferred_count c) (ready_cells c) (ticks c) (events c).

Definition set_pipeline (v : bool) (c : RedisClient) : RedisClient :=
  mkClient (options c) (connected c) (ready c) (closing c) (emitted_end c) (should_buffer c)
    (max_attempts c) (connect_timeout c) (retry_max_delay c) (enable_offline_queue c)
    (command_queue c) (offline_queue c) (pipeline_queue c) (retry_timer c) (retry_totaltime
    c) (retry_delay c) (attempts c) (pub_sub_mode c) (subscription_set c) (monitoring c)
    (message_buffers c) (fire_strings c) v (corkable c) (selected_db c) (sub_commands_left
    c) (times_connected c) (buffers c) (reply c) (detect_buffers_reply c) (stream_writable
    c) (stream_write_ok c) (deferred_count c) (ready_cells c) (ticks c) (events c).

Definition set_corkable (v : bool) (c : RedisClient) : RedisClient :=
  mkClient (options c) (connected c) (ready c) (closing c) (emitted_end c) (should_buffer c)
    (max_attempts c) (connect_timeout c) (retry_max_delay c) (enable_offline_queue c)
    (command_queue c) (offline_queue c) (pipeline_queue c) (retry_timer c) (retry_totaltime
    c) (retry_delay c) (attempts c) (pub_sub_mode c) (subscription_set c) (monitoring c)
    (message_buffers c) (fire_strings c) (pipeline c) v (selected_db c) (sub_commands_left
    c) (times_connected c) (buffers c) (reply c) (detect_buffers_reply c) (stream_writable
    c) (stream_write_ok c) (deferred_count c) (ready_cells c) (ticks c) (events c).

Definition set_selected_db (v : option value) (c : RedisClient) : RedisClient :=
  mkClient (options c) (connected c) (ready c) (closing c) (emitted_end c) (should_buffer c)
    (max_attempts c) (connect_timeout c) (retry_max_delay c) (enable_offline_queue c)
    (command_queue c) (offline_queue c) (pipeline_queue c) (retry_timer c) (retry_totaltime
    c) (retry_delay c) (attempts c) (pub_sub_mode c) (subscription_set c) (monitoring c)
    (message_buffers c) (fire_strings c) (pipeline c) (corkable c) v (sub_commands_left c)
    (times_connected c) (buffers c) (reply c) (detect_buffers_reply c) (stream_writable c)
    (stream_write_ok c) (deferred_count c) (ready_cells c) (ticks c) (events c).

Definition set_sub_commands_left (v : jsnum) (c : RedisClient) : RedisClient :=
  mkClient (options c) (connected c) (ready c) (closing c) (emitted_end c) (should_buffer c)
    (max_attempts c) (connect_timeout c) (retry_max_delay c) (enable_offline_queue c)
    (command_queue c) (offline_queue c) (pipeline_queue c) (retry_timer c) (retry_totaltime
    c) (retry_delay c) (attempts c) (pub_sub_mode c) (subscription_set c) (monitoring c)
    (message_buffers c) (fire_strings c) (pipeline c) (corkable c) (selected_db c) v
    (times_connected c) (buffers c) (reply c) (detect_buffers_reply c) (stream_writable c)
    (stream_write_ok c) (deferred_count c) (ready_cells c) (ticks c) (events c).

Definition set_times_connected (v : Z) (c : RedisClient) : RedisClient :=
  mkClient (options c) (connected c) (ready c) (closing c) (emitted_end c) (should_buffer c)
    (max_attempts c) (connect_timeout c) (retry_max_delay c) (enable_offline_queue c)
    (command_queue c) (offline_queue c) (pipeline_queue c) (retry_timer c) (retry_totaltime
    c) (retry_delay c) (attempts c) (pub_sub_mode c) (subscription_set c) (monitoring c)
    (message_buffers c) (fire_strings c) (pipeline c) (corkable c) (selected_db c)
    (sub_commands_left c) v (buffers c) (reply c) (detect_buffers_reply c) (stream_writable
    c) (stream_write_ok c) (deferred_count c) (ready_cells c) (ticks c) (events c).

Definition set_reply (v : reply_mode) (c : RedisClient) : RedisClient :=
  mkClient (options c) (connected c) (ready c) (closing c) (emitted_end c) (should_buffer c)
    (max_attempts c) (connect_timeout c) (retry_max_delay c) (enable_offline_queue c)
    (command_queue c) (offline_queue c) (pipeline_queue c) (retry_timer c) (retry_totaltime
    c) (retry_delay c) (attempts c) (pub_sub_mode c) (subscription_set c) (monitoring c)
    (message_buffers c) (fire_strings c) (pipeline c) (corkable c) (selected_db c)
    (sub_commands_left c) (times_connected c) (buffers c) v (detect_buffers_reply c)
    (stream_writable c) (stream_write_ok c) (deferred_count c) (ready_cells c) (ticks c)
    (events c).

Definition set_detect_buffers_reply (v : bool) (c : RedisClient) : RedisClient :=
  mkClient (options c) (connected c) (ready c) (closing c) (emitted_end c) (should_buffer c)
    (max_attempts c) (connect_timeout c) (retry_max_delay c) (enable_offline_queue c)
    (command_queue c) (offline_queue c) (pipeline_queue c) (retry_timer c) (retry_totaltime
    c) (retry_delay c) (attempts c) (pub_sub_mode c) (subscription_set c) (monitoring c)
    (message_buffers c) (fire_strings c) (pipeline c) (corkable c) (selected_db c)
    (sub_commands_left c) (times_connected c) (buffers c) (reply c) v (stream_writable c)
    (stream_write_ok c) (deferred_count c) (ready_cells c) (ticks c) (events c).

Definition set_stream_writable (v : bool) (c : RedisClient) : RedisClient :=
  mkClient (options c) (connected c) (ready c) (closing c) (emitted_end c) (should_buffer c)
    (max_attempts c) (connect_timeout c) (retry_max_delay c) (enable_offline_queue c)
    (command_queue c) (offline_queue c) (pipeline_queue c) (retry_timer c) (retry_totaltime
    c) (retry_delay c) (attempts c) (pub_sub_mode c) (subscription_set c) (monitoring c)
    (message_buffers c) (fire_strings c) (pipeline c) (corkable c) (selected_db c)
    (sub_commands_left c) (times_connected c) (buffers c) (reply c) (detect_buffers_reply c)
    v (stream_write_ok c) (deferred_count c) (ready_cells c) (ticks c) (events c).

Definition set_stream_write_ok (v : bool) (c : RedisClient) : RedisClient :=
  mkClient (options c) (connected c) (ready c) (closing c) (emitted_end c) (should_buffer c)
    (max_attempts c) (connect_timeout c) (retry_max_delay c) (enable_offline_queue c)
    (command_queue c) (offline_queue c) (pipeline_queue c) (retry_timer c) (retry_totaltime
    c) (retry_delay c) (attempts c) (pub_sub_mode c) (subscription_set c) (monitoring c)
    (message_buffers c) (fire_strings c) (pipeline c) (corkable c) (selected_db c)
    (sub_commands_left c) (times_connected c) (buffers c) (reply c) (detect_buffers_reply c)
    (stream_writable c) v (deferred_count c) (ready_cells c) (ticks c) (events c).

Definition set_deferred_count (v : nat) (c : RedisClient) : RedisClient :=
  mkClient (options c) (connected c) (ready c) (closing c) (emitted_end c) (should_buffer c)
    (max_attempts c) (connect_timeout c) (retry_max_delay c) (enable_offline_queue c)
    (command_queue c) (offline_queue c) (pipeline_queue c) (retry_timer c) (retry_totaltime
    c) (retry_delay c) (attempts c) (pub_sub_mode c) (subscription_set c) (monitoring c)
    (message_buffers c) (fire_strings c) (pipeline c) (corkable c) (selected_db c)
    (sub_commands_left c) (times_connected c) (buffers c) (reply c) (detect_buffers_reply c)
    (stream_writable c) (stream_write_ok c) v (ready_cells c) (ticks c) (events c).

Definition set_ready_cells (v : list Z) (c : RedisClient) : RedisClient :=
  mkClient (options c) (connected c) (ready c) (closing c) (emitted_end c) (should_buffer c)
    (max_attempts c) (connect_timeout c) (retry_max_delay c) (enable_offline_queue c)
    (command_queue c) (offline_queue c) (pipeline_queue c) (retry_timer c) (retry_totaltime
    c) (retry_delay c) (attempts c) (pub_sub_mode c) (subscription_set c) (monitoring c)
    (message_buffers c) (fire_strings c) (pipeline c) (corkable c) (selected_db c)
    (sub_commands_left c) (times_connected c) (buffers c) (reply c) (detect_buffers_reply c)
    (stream_writable c) (stream_write_ok c) (deferred_count c) v (ticks c) (events c).

Definition set_ticks (v : list (option Callback * option js_error * result)) (c : RedisClient) : RedisClient :=
  mkClient (options c) (connected c) (ready c) (closing c) (emitted_end c) (should_buffer c)
    (max_attempts c) (connect_timeout c) (retry_max_delay c) (enable_offline_queue c)
    (command_queue c) (offline_queue c) (pipeline_queue c) (retry_timer c) (retry_totaltime
    c) (retry_delay c) (attempts c) (pub_sub_mode c) (subscription_set c) (monitoring c)
    (message_buffers c) (fire_strings c) (pipeline c) (corkable c) (selected_db c)
    (sub_commands_left c) (times_connected c) (buffers c) (reply c) (detect_buffers_reply c)
    (stream_writable c) (stream_write_ok c) (deferred_count c) (ready_cells c) v (events c).

Definition set_events (v : list event) (c : RedisClient) : RedisClient :=
  mkClient (options c) (connected c) (ready c) (closing c) (emitted_end c) (should_buffer c)
    (max_attempts c) (connect_timeout c) (retry_max_delay c) (enable_offline_queue c)
    (command_queue c) (offline_queue c) (pipeline_queue c) (retry_timer c) (retry_totaltime
    c) (retry_delay c) (attempts c) (pub_sub_mode c) (subscription_set c) (monitoring c)
    (message_buffers c) (fire_strings c) (pipeline c) (corkable c) (selected_db c)
    (sub_commands_left c) (times_connected c) (buffers c) (reply c) (detect_buffers_reply c)
    (stream_writable c) (stream_write_ok c) (deferred_count c) (ready_cells c) (ticks c) v.


(** What [internal_send_command] returns: the promise it made, or the
    backpressure flag. *)
Inductive send_return :=
| Promise (id : nat)
| Flag (b : bool).

Inductive queue_name := Command_queue | Offline_queue.

(** ** The emitter and the completion sinks *)

Definition log (e : event) (c : RedisClient) : RedisClient :=
  set_events (events c ++ [e]) c.

Definition emit (name : jsstring) (a : list value) (c : RedisClient) : RedisClient :=
  log (Emit name a) c.

Definition emit_error (e : js_error) (c : RedisClient) : RedisClient :=
  log (EmitError e) c.

(** [warn]: the text reaches the caller on the next tick. *)
Definition warn (w : warning) (c : RedisClient) : RedisClient :=
  log (Warn w) c.

Definition undefined : result := RVal VUndefined.

(** Running a completion sink with [(err, res)].
    - [QuitCb]: [quit_callback].
    - [SelectCb]: [select_callback].
    - [ReadyCb]: the countdown closure of [on_ready].
    - [InOrderCb fn later res]: the closures [reply_in_order] installs.  Their
      own parameter is named [err] and hides the [err] given to
      [reply_in_order], so [later] receives the error of the command the
      closure sits on, together with the [res] given to [reply_in_order]. *)
Fixpoint invoke (cb : Callback) (err : option js_error) (res : result)
    (c : RedisClient) : RedisClient :=
  match cb with
  | UserCb id => log (Call id err res) c
  | DeferredCb id =>
    match err with
    | Some e => log (Reject id e) c
    | None => log (Resolve id res) c
    end
  | QuitCb cb' =>
    let closed := match err with Some e => has_code "NR_CLOSED" e | None => false end in
    let err' := if closed then None else err in
    let res' := if closed then RVal (VStr (str "OK")) else res in
    let c :=
      match cb' with
      | Some f => invoke f err' res' c
      | None => match err' with Some e => emit_error e c | None => c end
      end in
    if stream_writable c
    then log StreamDestroy (set_stream_writable false c)
    else c
  | SelectCb db cb' =>
    let c := match err with None => set_selected_db (Some db) c | Some _ => c end in
    match cb' with
    | Some f => invoke f err res c
    | None => match err with Some e => emit_error e c | None => c end
    end
  | ReadyCb cell =>
    match ready_cells c !! cell with
    | Some n =>
      let c := set_ready_cells (<[cell := n - 1]> (ready_cells c)) c in
      if n - 1 =? 0 then emit (str "ready") [] c else c
    | None => c
    end
  | InOrderCb fn later res' =>
    let c :=
      match fn with
      | Some f => invoke f err res c
      | None => match err with Some e => emit_error e c | None => c end
      end in
    match later with
    | Some f => invoke f err res' c
    | None => match err with Some e => emit_error e c | None => c end
    end
  end.

(** [utils.callback_or_emit] *)
Definition callback_or_emit (cb : option Callback) (err : option js_error)
    (res : result) (c : RedisClient) : RedisClient :=
  match cb with
  | Some f => invoke f err res c
  | None => match err with Some e => emit_error e c | None => c end
  end.

(** One turn of [process.nextTick]. *)
Definition run_tick (c : RedisClient) : RedisClient :=
  match ticks c with
  | [] => c
  | (cb, err, res) :: rest => callback_or_emit cb err res (set_ticks rest c)
  end.

Definition get_queue (q : queue_name) (c : RedisClient) : list Command :=
  match q with
  | Command_queue => command_queue c
  | Offline_queue => offline_queue c
  end.

Definition set_queue (q : queue_name) (l : list Command) (c : RedisClient) : RedisClient :=
  match q with
  | Command_queue => set_command_queue l c
  | Offline_queue => set_offline_queue l c
  end.

Fixpoint replace_last (f : Command -> Command) (l : list Command) : list Command :=
  match l with
  | [] => []
  | [o] => [f o]
  | o :: rest => o :: replace_last f rest
  end.

(** [utils.reply_in_order]: complete [cb] after the command at the back of
    the queue, or on the next tick when there is none. *)
Definition reply_in_order (cb : option Callback) (err : option js_error)
    (res : result) (queue : option queue_name) (c : RedisClient) : RedisClient :=
  let q :=
    match queue with
    | Some q => q
    | None => match offline_queue c with [] => Command_queue | _ => Offline_queue end
    end in
  match last (get_queue q c) with
  | None => set_ticks (ticks c ++ [(cb, err, res)]) c
  | Some command_obj =>
    set_queue q
      (replace_last (with_callback (Some (InOrderCb (callback command_obj) cb res)))
         (get_queue q c)) c
  end.

(** ** The writer *)

Definition stream_write (data : wire) (c : RedisClient) : RedisClient :=
  set_should_buffer (negb (stream_write_ok c)) (log (StreamWrite data) c).

Definition write (data : wire) (c : RedisClient) : RedisClient :=
  if negb (pipeline c) then stream_write data c
  else set_pipeline_queue (pipeline_queue c ++ [data]) c.

Definition wire_text (w : wire) : jsstring :=
  match w with
  | Text s => s
  | Binary b => utf8_decode b
  end.

(** [w.length] *)
Definition wire_length (w : wire) : Z :=
  match w with
  | Text s => js_length s
  | Binary b => Z.of_nat (length b)
  end.

Definition flush_text (acc : jsstring) (c : RedisClient) : RedisClient :=
  match acc with
  | [] => c
  | _ => stream_write (Text acc) c
  end.

(** The loop of [write_strings]; it ends at the first falsy fragment (the
    empty text), which [shift] has already removed. *)
Fixpoint write_strings_loop (q : list wire) (acc : jsstring) (c : RedisClient)
    : RedisClient :=
  match q with
  | [] => flush_text acc (set_pipeline_queue [] c)
  | Text [] :: rest => flush_text acc (set_pipeline_queue rest c)
  | w :: rest =>
    let c := set_pipeline_queue rest c in
    if 4 * 1024 * 1024 <? js_length acc + wire_length w
    then write_strings_loop rest (wire_text w) (stream_write (Text acc) c)
    else write_strings_loop rest (acc ++ wire_text w) c
  end.

Definition write_strings (c : RedisClient) : RedisClient :=
  write_strings_loop (pipeline_queue c) [] c.

Fixpoint write_buffers_loop (q : list wire) (c : RedisClient) : RedisClient :=
  match q with
  | [] => set_pipeline_queue [] c
  | Text [] :: rest => set_pipeline_queue rest c
  | w :: rest => write_buffers_loop rest (stream_write w (set_pipeline_queue rest c))
  end.

Definition write_buffers (c : RedisClient) : RedisClient :=
  write_buffers_loop (pipeline_queue c) c.

Definition cork (c : RedisClient) : RedisClient :=
  if corkable c then set_pipeline true c else c.

Definition uncork (c : RedisClient) : RedisClient :=
  if corkable c then
    let c := if fire_strings c then write_strings c else write_buffers c in
    set_fire_strings true (set_pipeline false c)
  else c.

Definition drain (c : RedisClient) : RedisClient :=
  set_should_buffer false (emit (str "drain") [] c).

Definition emit_idle (c : RedisClient) : RedisClient :=
  if bool_decide (command_queue c = []) && (pub_sub_mode c =? 0)
  then emit (str "idle") [] c
  else c.

(** ** Sending a command *)

Definition SUBSCRIBE_COMMANDS (name : jsstring) : bool :=
  jseq name (str "subscribe") || jseq name (str "unsubscribe")
  || jseq name (str "psubscribe") || jseq name (str "punsubscribe").

Definition non_empty_args (a : list value) : option (list value) :=
  match a with
  | [] => None
  | _ => Some a
  end.

Definition handle_offline_command (command_obj : Command) (c : RedisClient)
    : RedisClient :=
  if closing c || negb (enable_offline_queue c) then
    let command := toUpperCase (command command_obj) in
    let msg :=
      if negb (closing c) then
        if stream_writable c
        then str "The connection is not yet established and the offline queue is deactivated."
        else str "Stream not writeable."
      else str "The connection is already closed." in
    let err :=
      JsError AbortError (command ++ str " can't be processed. " ++ msg)
        (Some (str "NR_CLOSED")) (Some command)
        (non_empty_args (args command_obj)) None [] in
    reply_in_order (callback command_obj) (Some err) undefined None c
  else
    set_should_buffer true
      (set_offline_queue (offline_queue c ++ [command_obj]) c).

(** One turn of the argument loop of [internal_send_command]: the copy of
    the argument, whether it sets [big_data], whether it sets
    [command_obj.buffer_args], and the warning it raises. *)
Definition copy_arg (name : jsstring) (a : value)
    : wire * bool * bool * option warning :=
  match a with
  | VStr s =>
    if 30000 <? js_length s
    then (Binary (utf8_encode s), true, false, None)
    else (Text s, false, false, None)
  | VDate t => (Text t, false, false, None)
  | VNull => (Text (str "null"), false, false, Some (NullArgument (toUpperCase name)))
  | VBuf b => (Binary b, true, true, None)
  | VObj ctor t => (Text t, false, false, Some (ObjectArgument (toUpperCase name) ctor))
  | VArr l =>
    (Text (js_to_string (VArr l)), false, false,
     Some (ObjectArgument (toUpperCase name) (str "Array")))
  | VUndefined =>
    (Text (str "undefined"), false, false, Some (UndefinedArgument (toUpperCase name)))
  | VNum n => (Text (num_to_string n), false, false, None)
  end.

Record copied_args := mkCopied {
  args_copy : list wire;
  big_data : bool;
  sets_buffer_args : bool;
  warnings : list warning
}.

Fixpoint copy_args (name : jsstring) (l : list value) : copied_args :=
  match l with
  | [] => mkCopied [] false false []
  | a :: rest =>
    let '(w, big, buf, warning) := copy_arg name a in
    let r := copy_args name rest in
    mkCopied (w :: args_copy r) (big || big_data r) (buf || sets_buffer_args r)
             (from_option (fun x => [x]) [] warning ++ warnings r)
  end.

(** [args_copy[i] = this.options.prefix + args_copy[i]] for the key indexes,
    last index first.  An index beyond the arguments extends the array in
    JavaScript; the serialization below stops at [len], so the model leaves
    the list as it is there. *)
Definition prefix_keys (p : jsstring) (indexes : list nat) (l : list wire)
    : list wire :=
  foldr (fun i acc => alter (fun w => Text (p ++ wire_text w)) i acc) l indexes.

Definition crlf : jsstring := [13; 10]%N.

Definition decimal (z : Z) : jsstring := str (pretty z).

(** [`$${n}\r\n`] *)
Definition bulk_length (n : Z) : jsstring := 36%N :: decimal n ++ crlf.

(** [Buffer.byteLength(arg)] *)
Definition wire_byteLength (w : wire) : Z :=
  match w with
  | Text s => byteLength s
  | Binary b => Z.of_nat (length b)
  end.

(** [`*${len + 1}\r\n$${command.length}\r\n${command}\r\n`] *)
Definition command_header (len : Z) (name : jsstring) : jsstring :=
  42%N :: decimal (len + 1) ++ crlf ++ bulk_length (js_length name) ++ name ++ crlf.

(** [`$${Buffer.byteLength(arg)}\r\n${arg}\r\n`] *)
Definition bulk_text (w : wire) : jsstring :=
  bulk_length (wire_byteLength w) ++ wire_text w ++ crlf.

(** The writes of one argument when the command has [big_data]. *)
Definition write_arg (w : wire) (c : RedisClient) : RedisClient :=
  match w with
  | Text s => write (Text (bulk_text (Text s))) c
  | Binary b =>
    write (Text crlf)
      (write (Binary b) (write (Text (bulk_length (Z.of_nat (length b)))) c))
  end.

Definition write_command (big : bool) (name : jsstring) (l : list wire)
    (c : RedisClient) : RedisClient :=
  let command_str := command_header (Z.of_nat (length l)) name in
  if big then
    let c := set_fire_strings false c in
    let c := write (Text command_str) c in
    foldl (fun c w => write_arg w c) c l
  else
    write (Text (foldl (fun acc w => acc ++ bulk_text w) command_str l)) c.

(** The [call_on_write] closures. *)
Definition run_hook (h : write_hook) (c : RedisClient) : RedisClient :=
  match h with
  | MonitorHook => set_monitoring true c
  | ClientReplyHook m => set_reply m c
  | PubSubHook =>
    set_pub_sub_mode
      (if pub_sub_mode c =? 0
       then Z.of_nat (length (command_queue c)) + 1
       else pub_sub_mode c) c
  end.

(** The end of [internal_send_command]: [CLIENT REPLY ON|OFF|SKIP]
    handling, read after [call_on_write]. *)
Definition enqueue_or_skip (command_obj : Command) (c : RedisClient) : RedisClient :=
  match reply c with
  | ON => set_command_queue (command_queue c ++ [command_obj]) c
  | m =>
    let c :=
      match callback command_obj with
      | Some cb => reply_in_order (Some cb) None undefined (Some Command_queue) c
      | None => c
      end in
    match m with
    | SKIP => set_reply SKIP_ONE_MORE c
    | SKIP_ONE_MORE => set_reply ON c
    | _ => c
    end
  end.

Definition renamed (o : Options) (name : jsstring) : jsstring :=
  match rename_commands o !! name with
  | Some (u :: r) => u :: r
  | _ => name
  end.

Definition prefixed (o : Options) (name : jsstring) (l : list wire) : list wire :=
  match prefix o with
  | Some (u :: r) => prefix_keys (u :: r) (key_indexes o name l) l
  | _ => l
  end.

(** The first statements of [internal_send_command]: a command without a
    callback gets the resolver of a new promise. *)
Definition with_promise (command_obj : Command) (c : RedisClient)
    : Command * option nat * RedisClient :=
  match callback command_obj with
  | Some _ => (command_obj, None, c)
  | None =>
    let id := deferred_count c in
    (with_callback (Some (DeferredCb id)) command_obj, Some id,
     set_deferred_count (S id) c)
  end.

(** The command as it is queued: [buffer_args] is set when a buffer is
    among the arguments. *)
Definition flagged (command_obj : Command) : Command :=
  if sets_buffer_args (copy_args (command command_obj) (args command_obj))
  then with_buffer_args true command_obj
  else command_obj.

(** [internal_send_command] once the client is ready and the stream can be
    written: the arguments are copied, the command is written, its
    [call_on_write] runs, and it is queued or not. *)
Definition write_now (command_obj : Command) (c : RedisClient) : RedisClient :=
  let copied := copy_args (command command_obj) (args command_obj) in
  let c := foldl (fun c w => warn w c) c (warnings copied) in
  let l := prefixed (options c) (command command_obj) (args_copy copied) in
  let name := renamed (options c) (command command_obj) in
  let c := write_command (big_data copied) name l c in
  let c := from_option (fun h => run_hook h c) c (call_on_write command_obj) in
  enqueue_or_skip (flagged command_obj) c.

Definition internal_send_command (command_obj : Command) (c : RedisClient)
    : RedisClient * send_return :=
  let '(command_obj, out_deferred, c) := with_promise command_obj c in
  if negb (ready c) || negb (stream_writable c) then
    let c := handle_offline_command command_obj c in
    (c, match out_deferred with Some id => Promise id | None => Flag false end)
  else
    let c := write_now command_obj c in
    (c, match out_deferred with
        | Some id => Promise id
        | None => Flag (negb (should_buffer c))
        end).

(** ** The hooked commands of [lib/individualCommands.js]

    The argument shuffling of [prepare_arguments_*] is done: every method
    takes the argument array and the callback. *)

Definition subscribe_family (kind : jsstring) (arr : list value)
    (cb : option Callback) (c : RedisClient) : RedisClient * send_return :=
  internal_send_command (new_Command kind arr cb (Some PubSubHook)) c.

Definition subscribe := subscribe_family (str "subscribe").
Definition unsubscribe := subscribe_family (str "unsubscribe").
Definition psubscribe := subscribe_family (str "psubscribe").
Definition punsubscribe := subscribe_family (str "punsubscribe").

Definition reply_mode_of (s : jsstring) : option reply_mode :=
  if jseq s (str "ON") then Some ON
  else if jseq s (str "OFF") then Some OFF
  else if jseq s (str "SKIP") then Some SKIP
  else None.

(** [client]: [None] is the [TypeError] of [toString] on a null argument. *)
Definition client (arr : list value) (cb : option Callback) (c : RedisClient)
    : option (RedisClient * send_return) :=
  hook ←
    match arr with
    | [a0; a1] =>
      s0 ← toString a0;
      if jseq (toUpperCase s0) (str "REPLY") then
        s1 ← toString a1;
        Some (ClientReplyHook <$> reply_mode_of (toUpperCase s1))
      else Some None
    | _ => Some None
    end;
  Some (internal_send_command (new_Command (str "client") arr cb hook) c).

Definition quit (cb : option Callback) (c : RedisClient) : RedisClient * send_return :=
  let '(c, backpressure_indicator) :=
    internal_send_command (new_Command (str "quit") [] (Some (QuitCb cb)) None) c in
  (set_ready false (set_closing true c), backpressure_indicator).

Definition select (db : value) (cb : option Callback) (c : RedisClient)
    : RedisClient * send_return :=
  internal_send_command (new_Command (str "select") [db] (Some (SelectCb db cb)) None) c.

Definition monitor (cb : option Callback) (c : RedisClient) : RedisClient * send_return :=
  internal_send_command (new_Command (str "monitor") [] cb (Some MonitorHook)) c.

(** The wrappers [lib/commands.js] generates for every other command. *)
Definition generic_command (name : jsstring) (arr : list value)
    (cb : option Callback) (c : RedisClient) : RedisClient * send_return :=
  internal_send_command (new_Command name arr cb None) c.

(** ** The error flusher *)

Fixpoint is_prefix_by (same : N -> N -> bool) (p s : jsstring) : bool :=
  match p, s with
  | [], _ => true
  | _ :: _, [] => false
  | a :: p', b :: s' => same a b && is_prefix_by same p' s'
  end.

(** [s.replace(p, f(match))] for the first match of [p], compared by [same]. *)
Fixpoint replace_first_by (same : N -> N -> bool) (p : jsstring)
    (f : jsstring -> jsstring) (s : jsstring) : jsstring :=
  if is_prefix_by same p s then f (take (length p) s) ++ drop (length p) s
  else
    match s with
    | [] => []
    | u :: rest => u :: replace_first_by same p f rest
    end.

Definition replace_first (p r s : jsstring) : jsstring :=
  replace_first_by N.eqb p (fun _ => r) s.

Definition same_letter (a b : N) : bool := (to_upper_unit a =? to_upper_unit b)%N.

Definition processed_suffix : jsstring := str " It might have been processed.".

Definition abort_error (message code : jsstring) (origin : option js_error)
    (command_obj : Command) : js_error :=
  JsError AbortError message (Some code)
    (Some (toUpperCase (command command_obj)))
    (non_empty_args (args command_obj)) origin [].

(** The inner loop of [flush_and_error] over one queue.  Each turn shifts
    the head; the caller's functions do not reach the queues while it runs. *)
Fixpoint flush_commands (q : queue_name) (l : list Command)
    (message code : jsstring) (origin : option js_error)
    (st : RedisClient * list js_error) : RedisClient * list js_error :=
  match l with
  | [] => st
  | command_obj :: rest =>
    let '(c, aggregated_errors) := st in
    let c := set_queue q rest c in
    let err := abort_error message code origin command_obj in
    flush_commands q rest message code origin
      match callback command_obj with
      | Some cb => (invoke cb (Some err) undefined c, aggregated_errors)
      | None => (c, aggregated_errors ++ [err])
      end
  end.

(** The outer loop: [error_attributes.message] is rewritten per queue and
    carried to the next. *)
Fixpoint flush_queues (queue_names : list queue_name) (message code : jsstring)
    (origin : option js_error) (st : RedisClient * list js_error)
    : RedisClient * list js_error * jsstring :=
  match queue_names with
  | [] => (st, message)
  | q :: rest =>
    let message :=
      match q with
      | Command_queue => message ++ processed_suffix
      | Offline_queue => replace_first processed_suffix [] message
      end in
    flush_queues rest message code origin
      (flush_commands q (get_queue q st.1) message code origin st)
  end.

Definition flush_and_error (message code : jsstring) (origin : option js_error)
    (queues : option (list queue_name)) (c : RedisClient) : RedisClient :=
  let queue_names := default [Command_queue; Offline_queue] queues in
  let '(c, aggregated_errors, message) :=
    flush_queues queue_names message code origin (c, []) in
  if debug_mode (options c) then
    match aggregated_errors with
    | [] => c
    | [e] => emit_error e c
    | _ =>
      let message :=
        replace_first_by same_letter (str "command") (fun m => m ++ str "s")
          (replace_first (str "It") (str "They") message) in
      emit_error
        (JsError AggregateError message (Some code) None None None aggregated_errors) c
    end
  else c.

(** Modelled from the spec: [end(flush)] of [lib/extendedApi.js], which is
    not among the sources; section 5 of the spec: set [closing], flush both
    queues with [NR_CLOSED] (when [flush] is asked for), destroy the
    transport.  The spec gives no text for the flush message. *)
Definition end_ (flush : bool) (c : RedisClient) : RedisClient :=
  let c := set_closing true c in
  let c := if flush then flush_and_error [] (str "NR_CLOSED") None None c else c in
  log StreamDestroy (set_stream_writable false c).

(** ** The connection controller *)

Definition initialize_retry_vars (c : RedisClient) : RedisClient :=
  set_attempts 1
    (set_retry_delay 200 (set_retry_totaltime 0 (set_retry_timer None c))).

(** The stream half of [create_stream]: a new connection is opened and the
    parser starts afresh. *)
Definition open_stream (c : RedisClient) : RedisClient :=
  log StreamCreate (set_stream_writable true c).

(** [create_stream] on a reconnect: the former stream is destroyed first. *)
Definition create_stream (c : RedisClient) : RedisClient :=
  open_stream (log StreamDestroy c).

(** The budget test of [connection_gone]. *)
Definition budget_exhausted (c : RedisClient) : bool :=
  negb (max_attempts c =? 0) && (max_attempts c <=? attempts c)
  || (connect_timeout c <=? retry_totaltime c).

(** The two caps on [retry_delay], as the source nests them. *)
Definition capped_retry_delay (c : RedisClient) : Z :=
  match retry_max_delay c with
  | Some m =>
    if m <? retry_delay c then m
    else if connect_timeout c <? retry_totaltime c + retry_delay c
    then connect_timeout c - retry_totaltime c
    else retry_delay c
  | None =>
    if connect_timeout c <? retry_totaltime c + retry_delay c
    then connect_timeout c - retry_totaltime c
    else retry_delay c
  end.

(** The statements of [connection_gone] before it decides what to do: the
    flags, the cork, the pub/sub mode and the [end] event. *)
Definition mark_disconnected (c : RedisClient) : RedisClient :=
  let c := set_connected false c in
  let c := set_ready false c in
  let c := set_corkable false c in
  let c := set_pipeline false c in
  let c := set_pub_sub_mode 0 c in
  if negb (emitted_end c)
  then set_emitted_end true (emit (str "end") [] c)
  else c.

(** The text of the error of an exhausted retry budget. *)
Definition broken_message (c : RedisClient) : jsstring :=
  str "Redis connection in broken state: " ++
  (if connect_timeout c <=? retry_totaltime c
   then str "connection timeout exceeded."
   else str "maximum connection attempts exceeded.").

(** [queue.unshift.apply(queue, items)] on a Denque queue.  Its [unshift]
    takes one item: the first of [items] is put in front of the queue and the
    others are ignored; called without an item it adds nothing. *)
Definition unshift_apply {A} (queue items : list A) : list A :=
  match items with
  | [] => queue
  | item :: _ => item :: queue
  end.

(** [connection_gone].  When the [retry_strategy] returns no number, the
    source leaves that value in [retry_delay]; the client has ended then.
    With [retry_unfulfilled_commands] the in-flight queue is handed to
    [unshift] through [apply] and then cleared. *)
Definition connection_gone (why : string) (error : option js_error)
    (c : RedisClient) : RedisClient :=
  match retry_timer c with
  | Some _ => c
  | None =>
    let c := mark_disconnected c in
    if closing c then
      flush_and_error (str "Stream connection ended and command aborted.")
        (str "NR_CLOSED") error None c
    else
      let strategy :=
        match retry_strategy (options c) with
        | Some f =>
          Some (f (mkRetryParams (attempts c) error (retry_totaltime c)
                     (times_connected c)))
        | None => None
        end in
      match strategy with
      | Some (SError e) =>
        end_ false
          (flush_and_error (str "Stream connection ended and command aborted.")
             (str "NR_CLOSED") (Some e) None c)
      | Some SOther =>
        end_ false
          (flush_and_error (str "Stream connection ended and command aborted.")
             (str "NR_CLOSED") error None c)
      | _ =>
        let c :=
          match strategy with
          | Some (SNumber d) => set_retry_delay d c
          | _ => c
          end in
        if budget_exhausted c then
          let message := broken_message c in
          let c :=
            flush_and_error message (str "CONNECTION_BROKEN") error None c in
          let err :=
            JsError PlainError message (Some (str "CONNECTION_BROKEN")) None None
              error [] in
          end_ false (emit_error err c)
        else
          let c :=
            if retry_unfulfilled_commands (options c) then
              set_command_queue []
                (set_offline_queue
                   (unshift_apply (offline_queue c) (command_queue c)) c)
            else
              match command_queue c with
              | [] => c
              | _ =>
                flush_and_error (str "Redis connection lost and command aborted.")
                  (str "UNCERTAIN_STATE") error (Some [Command_queue]) c
              end in
          let c := set_retry_delay (capped_retry_delay c) c in
          set_retry_timer (Some (retry_delay c, error)) c
      end
  end.

(** [Math.round(d * 1.7)] on an integer delay; [retry_backoff] is the
    constant 1.7 of [initialize_retry_vars]. *)
Definition backoff (d : Z) : Z := (17 * d + 5) / 10.

(** The timer of [connection_gone] fires. *)
Definition retry_connection (c : RedisClient) : RedisClient :=
  match retry_timer c with
  | None => c
  | Some (_, error) =>
    let c :=
      log (EmitReconnecting (retry_delay c) (attempts c) error
             (retry_totaltime c) (times_connected c)) c in
    let c := set_retry_totaltime (retry_totaltime c + retry_delay c) c in
    let c := set_attempts (attempts c + 1) c in
    let c := set_retry_delay (backoff (retry_delay c)) c in
    set_retry_timer None (create_stream c)
  end.

Definition with_message (m : jsstring) (e : js_error) : js_error :=
  JsError (err_class e) m (err_code e) (err_command e) (err_args e)
          (err_origin e) (err_errors e).

Definition on_error (err : js_error) (c : RedisClient) : RedisClient :=
  if closing c then c
  else
    let err :=
      with_message
        (str "Redis connection to " ++ address (options c) ++ str " failed - "
         ++ err_message err) err in
    let c := set_ready false (set_connected false c) in
    let c :=
      match retry_strategy (options c) with
      | None => emit_error err c
      | Some _ => c
      end in
    connection_gone "error" (Some err) c.

(** The stream's one-shot [close] and [end] listeners, and the connect
    timeout of [create_stream]. *)
Definition on_close (c : RedisClient) : RedisClient := connection_gone "close" None c.

Definition on_end (c : RedisClient) : RedisClient := connection_gone "end" None c.

Definition on_timeout (c : RedisClient) : RedisClient :=
  connection_gone "timeout" None (set_retry_totaltime (connect_timeout c) c).

(** The parser's [returnFatalError]. *)
Definition return_fatal_error (err : js_error) (c : RedisClient) : RedisClient :=
  let err := with_message (err_message err ++ str ". Please report this.") err in
  let c := set_ready false c in
  let c :=
    flush_and_error (str "Fatal error encountered. Command aborted.")
      (str "NR_FATAL") (Some err) (Some [Command_queue]) c in
  create_stream (emit_error err c).

(** ** Reply conversion ([lib/utils.js]) *)

Fixpoint reply_to_strings (reply : value) : value :=
  match reply with
  | VBuf b => VStr (utf8_decode b)
  | VArr l => VArr (map reply_to_strings l)
  | _ => reply
  end.

(** [reply[i].toString('binary')]: a [TypeError] on null, a [RangeError] on
    a number (the argument is read as a radix). *)
Definition object_key (v : value) : option jsstring :=
  match v with
  | VUndefined | VNull | VNum _ => None
  | VBuf b => Some (latin1_decode b)
  | _ => Some (js_to_string v)
  end.

(** The object that [reply_to_object] builds, by its own properties, and
    whether it still inherits the accessor [__proto__] of
    [Object.prototype], as [{}] does. *)
Definition building : Type := bool * gmap (list N) value.

(** [obj[key] = v].  While the accessor is inherited, an assignment to
    [__proto__] runs its setter and creates no property of [obj]: an object
    (a buffer, an array) becomes the prototype, null removes the prototype
    and with it the accessor, any other value is ignored.  Every other
    assignment, and one to [__proto__] once the prototype is null, creates
    or overwrites a property of [obj].  Not followed: once a buffer is the
    prototype, it decides the later assignments to its indices and to the
    names it has only a getter for; they are taken here as those of a plain
    object. *)
Definition assign (key : jsstring) (v : value) (obj : building) : building :=
  if obj.1 && jseq key (str "__proto__")
  then (match v with VNull => false | _ => true end, obj.2)
  else (obj.1, <[key := v]> obj.2).

(** The loop of [reply_to_object]: [obj[key] = reply[i + 1]], two by two. *)
Fixpoint pairs_to_object (l : list value) (obj : building) : option building :=
  match l with
  | [] => Some obj
  | [k] => key ← object_key k; Some (assign key VUndefined obj)
  | k :: v :: rest => key ← object_key k; pairs_to_object rest (assign key v obj)
  end.

(** [reply_to_object]: reading [reply.length] of null is a [TypeError].
    The sink is handed the object, here its own properties. *)
Definition reply_to_object (reply : value) : option result :=
  match reply with
  | VUndefined | VNull => None
  | VArr [] => Some (RVal VNull)
  | VArr l => (fun obj : building => RObj obj.2) <$> pairs_to_object l (true, ∅)
  | _ => Some (RVal VNull)
  end.

(** The static [RedisClient.handle_reply]. *)
Definition handle_reply (reply : value) (name : jsstring) : option result :=
  if jseq name (str "hgetall") then reply_to_object reply else Some (RVal reply).

(** [handle_detect_buffers_reply], once it has replaced [handle_reply].  It
    is called on the class, whose [message_buffers] is never set, so only
    [buffer_args] decides. *)
Definition handle_detect_buffers_reply (reply : value) (name : jsstring)
    (buffer_args : bool) : option result :=
  let reply := if negb buffer_args then reply_to_strings reply else reply in
  if jseq name (str "hgetall") then reply_to_object reply else Some (RVal reply).

(** ** The reply dispatcher *)

Definition normal_reply (reply : value) (c : RedisClient) : option RedisClient :=
  match command_queue c with
  | [] => None
  | command_obj :: rest =>
    let c := set_command_queue rest c in
    match callback command_obj with
    | Some cb =>
      r ←
        (if negb (jseq (command command_obj) (str "exec")) then
           if detect_buffers_reply c
           then handle_detect_buffers_reply reply (command command_obj)
                  (buffer_args command_obj)
           else handle_reply reply (command command_obj)
         else Some (RVal reply));
      Some (invoke cb None r c)
    | None => Some c
    end
  end.

Definition is_line_terminator (u : N) : bool :=
  ((u =? 10) || (u =? 13) || (u =? 0x2028) || (u =? 0x2029))%N.

(** The class [\s] of a regular expression. *)
Definition is_space (u : N) : bool :=
  ((9 <=? u) && (u <=? 13) || (u =? 32) || (u =? 0xA0) || (u =? 0x1680)
   || (0x2000 <=? u) && (u <=? 0x200A) || (u =? 0x2028) || (u =? 0x2029)
   || (u =? 0x202F) || (u =? 0x205F) || (u =? 0x3000) || (u =? 0xFEFF))%N.

Definition is_upper (u : N) : bool := ((65 <=? u) && (u <=? 90))%N.

Fixpoint span (p : N -> bool) (s : jsstring) : jsstring * jsstring :=
  match s with
  | [] => ([], [])
  | u :: rest =>
    if p u then let '(a, b) := span p rest in (u :: a, b) else ([], s)
  end.

(** [err.message.match(utils.err_code)], the group 1 of
    [/^([A-Z]+)\s+(.+)$/]. *)
Definition err_code_match (message : jsstring) : option jsstring :=
  let '(code, rest) := span is_upper message in
  let '(spaces, tail) := span is_space rest in
  let final :=
    match tail with
    | [] => match reverse spaces with [] => [] | u :: _ => [u] end
    | _ => tail
    end in
  let spaces_left :=
    match tail with
    | [] => (length spaces - 1)%nat
    | _ => length spaces
    end in
  match code, spaces_left, final with
  | _ :: _, S _, _ :: _ =>
    if forallb (fun u => negb (is_line_terminator u)) final then Some code else None
  | _, _, _ => None
  end.

Definition return_error (err : js_error) (c : RedisClient) : option RedisClient :=
  match command_queue c with
  | [] => None
  | command_obj :: rest =>
    let c := set_command_queue rest c in
    let c :=
      if 1 <? pub_sub_mode c then set_pub_sub_mode (pub_sub_mode c - 1) c else c in
    let err :=
      JsError (err_class err) (err_message err)
        (match err_code_match (err_message err) with
         | Some code => Some code
         | None => err_code err
         end)
        (Some (toUpperCase (command command_obj)))
        (match args command_obj with [] => err_args err | a => Some a end)
        (err_origin err) (err_errors err) in
    Some (callback_or_emit (callback command_obj) (Some err) undefined c)
  end.

(** ** The pub/sub overlay *)

(** The walk over the in-flight queue from position [i]: the position of
    the next subscribe-family command, or [0]. *)
Fixpoint next_subscribe (i : Z) (l : list Command) : Z :=
  match l with
  | [] => 0
  | running_command :: rest =>
    if SUBSCRIBE_COMMANDS (command running_command) then i
    else next_subscribe (i + 1) rest
  end.

Definition decrement (n : jsnum) : jsnum :=
  match n with
  | Num z => Num (z - 1)
  | NaN => NaN
  end.

Definition is_null (v : value) : bool :=
  match v with
  | VNull => true
  | _ => false
  end.

(** The test that completes the head command of an acknowledgement. *)
Definition completes (command_obj : Command) (left : jsnum) (count : jsnum)
    (channel : value) : bool :=
  bool_decide (length (args command_obj) = 1%nat)
  || bool_decide (left = Num 1)
  || bool_decide (length (args command_obj) = 0%nat)
     && (bool_decide (count = Num 0) || is_null channel).

(** The channel of an acknowledgement frame: [reply[1]] itself in buffer
    mode or when it is null, its text otherwise. *)
Definition frame_channel (buffer : bool) (reply : list value) : option value :=
  if buffer || is_null (js_nth reply 1) then Some (js_nth reply 1)
  else VStr <$> toString (js_nth reply 1).

(** The block of [subscribe_unsubscribe] under [if (channel !== null)]: the
    event, then the subscription set. *)
Definition acknowledge (type : jsstring) (channel : value) (count : jsnum)
    (c : RedisClient) : RedisClient :=
  let c := emit type [channel; VNum count] c in
  if jseq type (str "subscribe") || jseq type (str "psubscribe") then
    set_subscription_set
      (<[type ++ str "_" ++ js_to_string channel := channel]> (subscription_set c)) c
  else
    let type :=
      if jseq type (str "unsubscribe") then str "subscribe" else str "psubscribe" in
    set_subscription_set
      (delete (type ++ str "_" ++ js_to_string channel) (subscription_set c)) c.

Definition subscribe_unsubscribe (reply : list value) (type : jsstring)
    (c : RedisClient) : option RedisClient :=
  match command_queue c with
  | [] => None
  | command_obj :: rest =>
    let buffer :=
      return_buffers (options c)
      || detect_buffers (options c) && buffer_args command_obj in
    channel ← frame_channel buffer reply;
    let count := to_number (js_nth reply 2) in
    let c := if negb (is_null channel) then acknowledge type channel count c else c in
    if completes command_obj (sub_commands_left c) count channel then
      let c :=
        if bool_decide (count = Num 0)
        then set_pub_sub_mode (next_subscribe 1 rest) c
        else c in
      let c := set_command_queue rest c in
      let c :=
        match callback command_obj with
        | Some cb => invoke cb None (RVal channel) c
        | None => c
        end in
      Some (set_sub_commands_left (Num 0) c)
    else if negb (bool_decide (sub_commands_left c = Num 0)) then
      Some (set_sub_commands_left (decrement (sub_commands_left c)) c)
    else
      Some (set_sub_commands_left
              (match args command_obj with
               | [] => count
               | a => Num (Z.of_nat (length a) - 1)
               end) c)
  end.

Definition return_pub_sub (reply : list value) (c : RedisClient)
    : option RedisClient :=
  type ← toString (js_nth reply 0);
  if jseq type (str "message") then
    if negb (return_buffers (options c)) || message_buffers c then
      channel ← toString (js_nth reply 1);
      payload ← toString (js_nth reply 2);
      Some (emit (str "messageBuffer") [js_nth reply 1; js_nth reply 2]
              (emit (str "message_buffer") [js_nth reply 1; js_nth reply 2]
                 (emit (str "message") [VStr channel; VStr payload] c)))
    else Some (emit (str "message") [js_nth reply 1; js_nth reply 2] c)
  else if jseq type (str "pmessage") then
    if negb (return_buffers (options c)) || message_buffers c then
      pattern ← toString (js_nth reply 1);
      channel ← toString (js_nth reply 2);
      payload ← toString (js_nth reply 3);
      Some (emit (str "pmessageBuffer") [js_nth reply 1; js_nth reply 2; js_nth reply 3]
              (emit (str "pmessage_buffer")
                 [js_nth reply 1; js_nth reply 2; js_nth reply 3]
                 (emit (str "pmessage") [VStr pattern; VStr channel; VStr payload] c)))
    else
      Some (emit (str "pmessage") [js_nth reply 1; js_nth reply 2; js_nth reply 3] c)
  else subscribe_unsubscribe reply type c.

(** ** Monitor lines *)

Definition is_digit_run (n : nat) (s : jsstring) : option jsstring :=
  let '(d, rest) := span is_digit s in
  if bool_decide (d = [] ∨ (n ≠ 0%nat ∧ length d ≠ n ∧ length d ≠ S n))
  then None else Some rest.

Definition expect (p : jsstring) (s : jsstring) : option jsstring :=
  if is_prefix_by N.eqb p s then Some (drop (length p) s) else None.

(** Whether [s], taken from position [i], has a [ ]] at a position [j >= 1]
    followed by a blank, a quote and at least two more code units. *)
Fixpoint has_bracket_then_quoted (i : nat) (s : jsstring) : bool :=
  match s with
  | [] => false
  | u :: rest =>
    (negb (i =? 0)%nat && (u =? 93)%N
     && is_prefix_by N.eqb [32; 34]%N rest && (4 <=? length rest)%nat)
    || has_bracket_then_quoted (S i) rest
  end.

(** [utils.monitor_regex.test(s)], for
    [/^[0-9]{10,11}\.[0-9]+ \[[0-9]+ .+\]( ".+?")+$/]. *)
Definition monitor_regex_test (s : jsstring) : bool :=
  match
    s1 ← is_digit_run 10 s; s2 ← expect [46]%N s1;
    s3 ← is_digit_run 0 s2; s4 ← expect [32; 91]%N s3;
    s5 ← is_digit_run 0 s4; expect [32]%N s5
  with
  | Some r =>
    forallb (fun u => negb (is_line_terminator u)) r
    && bool_decide (last r = Some 34%N)
    && has_bracket_then_quoted 0 r
  | None => false
  end.

Fixpoint index_of (u : N) (s : jsstring) : option nat :=
  match s with
  | [] => None
  | v :: rest => if (u =? v)%N then Some 0%nat else S <$> index_of u rest
  end.

(** [s.split(p)]; [skip] counts the code units of a separator still to be
    passed over. *)
Fixpoint split_on (p : jsstring) (skip : nat) (acc : jsstring) (s : jsstring)
    : list jsstring :=
  match s with
  | [] => [acc]
  | u :: rest =>
    match skip with
    | S k => split_on p k acc rest
    | O =>
      if is_prefix_by N.eqb p s
      then acc :: split_on p (length p - 1) [] rest
      else split_on p 0 (acc ++ [u]) rest
    end
  end.

(** [elem.replace(/\\"/g, '"')] *)
Fixpoint unescape_quotes (s : jsstring) : jsstring :=
  match s with
  | 92%N :: 34%N :: rest => 34%N :: unescape_quotes rest
  | u :: rest => u :: unescape_quotes rest
  | [] => []
  end.

(** The monitoring branch of [return_reply]: the arguments of the
    [monitor] event when the reply is a monitor line. *)
Definition monitor_line (reply : value) (c : RedisClient) : option (list value) :=
  if monitoring c then
    let replyStr :=
      match reply with
      | VBuf b => if buffers c then VStr (utf8_decode b) else reply
      | _ => reply
      end in
    match replyStr with
    | VStr s =>
      if monitor_regex_test s then
        let timestamp :=
          match index_of 32%N s with
          | Some i => take i s
          | None => take (length s - 1) s
          end in
        let quoted :=
          take (length s - 1 - from_option S 0%nat (index_of 34%N s))
            (drop (from_option S 0%nat (index_of 34%N s)) s) in
        Some [VStr timestamp;
              VArr (VStr <$> (unescape_quotes <$> split_on [34; 32; 34]%N 0 [] quoted));
              VStr s]
      else None
    | _ => None
    end
  else None.

Definition is_array (v : value) : bool :=
  match v with
  | VArr _ => true
  | _ => false
  end.

Definition array_items (v : value) : list value :=
  match v with
  | VArr l => l
  | _ => []
  end.

Definition return_reply (reply : value) (c : RedisClient) : option RedisClient :=
  match monitor_line reply c with
  | Some a => Some (emit (str "monitor") a c)
  | None =>
    if pub_sub_mode c =? 0 then normal_reply reply c
    else if negb (pub_sub_mode c =? 1) then
      normal_reply reply (set_pub_sub_mode (pub_sub_mode c - 1) c)
    else if negb (is_array reply) || (length (array_items reply) <=? 2)%nat then
      normal_reply reply c
    else return_pub_sub (array_items reply) c
  end.

(** ** Becoming ready *)

(** The loop of [send_offline_queue].  A command that is sent while the
    stream cannot be written re-enters the offline queue, and the loop of
    the source does not end: the fuel then runs out. *)
Fixpoint send_offline_loop (fuel : nat) (c : RedisClient) : option RedisClient :=
  match fuel with
  | O => None
  | S n =>
    match offline_queue c with
    | [] => Some c
    | command_obj :: rest =>
      send_offline_loop n (internal_send_command command_obj (set_offline_queue rest c)).1
    end
  end.

Definition send_offline_queue (c : RedisClient) : option RedisClient :=
  drain <$> send_offline_loop (S (length (offline_queue c))) c.

(** [key.slice(0, key.indexOf('_'))] *)
Definition key_command (key : jsstring) : jsstring :=
  match index_of 95%N key with
  | Some i => take i key
  | None => take (length key - 1) key
  end.

(** [this[command]([args], callback)] for a key of the subscription set:
    the keys start with [subscribe_] or [psubscribe_]. *)
Definition resubscribe (cell : nat) (c : RedisClient) (entry : list N * value)
    : RedisClient :=
  (subscribe_family (key_command entry.1) [entry.2] (Some (ReadyCb cell)) c).1.

(** [on_ready].  The subscription set is walked in the order of
    [map_to_list]; the source walks it in insertion order. *)
Definition on_ready (c : RedisClient) : option RedisClient :=
  let c := set_ready true c in
  let c := set_corkable true c in
  let c :=
    match selected_db c with
    | Some d => (internal_send_command (new_Command (str "select") [d] None None) c).1
    | None => c
    end in
  let c :=
    if monitoring c
    then (internal_send_command (new_Command (str "monitor") [] None None) c).1
    else c in
  let callback_count := size (subscription_set c) in
  if negb (disable_resubscribing (options c)) && negb (callback_count =? 0)%nat then
    let cell := length (ready_cells c) in
    let c := set_ready_cells (ready_cells c ++ [Z.of_nat callback_count]) c in
    send_offline_queue
      (foldl (resubscribe cell) c (map_to_list (subscription_set c)))
  else emit (str "ready") [] <$> send_offline_queue c.

(** The stream's connect listener and [on_connect], for a client with the
    [no_ready_check] option: the INFO probe of [ready_check] is outside the
    model. *)
Definition on_connect (c : RedisClient) : option RedisClient :=
  let c := set_times_connected (times_connected c + 1) c in
  let c := set_connected true c in
  let c := set_ready false c in
  let c := set_emitted_end false c in
  let c := emit (str "connect") [] c in
  on_ready (initialize_retry_vars c).

(** The [newListener] hook for [message_buffer] and [pmessage_buffer], with
    the JavaScript parser. *)
Definition on_message_buffer_listener (c : RedisClient) : RedisClient :=
  if negb (buffers c) && negb (message_buffers c)
  then set_detect_buffers_reply true (set_message_buffers true c)
  else c.

(** ** The constructor *)

(** [x | 0] *)
Definition to_int32 (x : Z) : Z := (x + 2 ^ 31) mod 2 ^ 32 - 2 ^ 31.

Definition non_zero (x : option Z) : option Z :=
  match x with
  | Some 0 => None
  | _ => x
  end.

Definition RedisClient_new (o : Options) : RedisClient :=
  let strategy := bool_decide (is_Some (retry_strategy o)) in
  let max_attempts := if strategy then None else opt_max_attempts o in
  let retry_max_delay := if strategy then None else opt_retry_max_delay o in
  let detect := detect_buffers o && negb (return_buffers o) in
  let o' :=
    mkOptions (address o) (retry_strategy o) max_attempts retry_max_delay
      (opt_connect_timeout o) (opt_enable_offline_queue o)
      (retry_unfulfilled_commands o) (prefix o) (rename_commands o)
      (return_buffers o) detect (disable_resubscribing o) (db o)
      (key_indexes o) (debug_mode o) in
  let w :=
    (if strategy && bool_decide (is_Some (opt_max_attempts o))
     then [StrategyAndMaxAttempts] else [])
    ++ (if strategy && bool_decide (is_Some (opt_retry_max_delay o))
        then [StrategyAndRetryMaxDelay] else [])
    ++ (if return_buffers o && detect_buffers o then [ReturnAndDetectBuffers] else [])
    ++ (if bool_decide (is_Some max_attempts) then [MaxAttemptsDeprecated] else [])
    ++ (if bool_decide (is_Some retry_max_delay) then [RetryMaxDelayDeprecated] else []) in
  open_stream
    {| options := o';
       connected := false; ready := false; closing := false; emitted_end := false;
       should_buffer := false;
       max_attempts := to_int32 (default 0 max_attempts);
       connect_timeout := default 3600000 (non_zero (opt_connect_timeout o));
       retry_max_delay := non_zero retry_max_delay;
       enable_offline_queue := default true (opt_enable_offline_queue o);
       command_queue := []; offline_queue := []; pipeline_queue := [];
       retry_timer := None; retry_totaltime := 0; retry_delay := 200; attempts := 1;
       pub_sub_mode := 0; subscription_set := ∅;
       monitoring := false; message_buffers := false; fire_strings := true;
       pipeline := false; corkable := false;
       selected_db := db o;
       sub_commands_left := Num 0; times_connected := 0;
       buffers := return_buffers o || detect;
       reply := ON;
       detect_buffers_reply := detect;
       stream_writable := false; stream_write_ok := true;
       deferred_count := 0; ready_cells := []; ticks := [];
       events := Warn <$> w |}.

(** ** The client as a transition system

    What can happen to a client: a method is called, the parser hands over
    a reply or an error, the stream or a timer fires.  [step] is [None] when
    the source raises an exception, when its loop does not end, or for a
    method outside the model ([info], [auth], [multi], [batch], [exec]). *)
Inductive input :=
| ICall (name : jsstring) (arr : list value) (cb : option nat)  (* client[name](arr, cb) *)
| ICork
| IUncork
| IEnd (flush : bool)
| IListenMessageBuffer
| IReply (reply : value)                 (* parser: returnReply *)
| IReplyError (err : js_error)           (* parser: returnError *)
| IFatalError (err : js_error)           (* parser: returnFatalError *)
| IData                                  (* a chunk has been parsed: emit_idle *)
| IStreamError (err : js_error)
| IStreamClose
| IStreamEnd
| IStreamTimeout
| IStreamDrain
| IStreamWriteOk (b : bool)              (* the answer of stream.write changes *)
| IConnect                               (* the stream's connect event *)
| IRetryTimer                            (* the timer of connection_gone fires *)
| ITick.                                 (* process.nextTick runs one entry *)

Definition outside_model (name : jsstring) : bool :=
  jseq name (str "info") || jseq name (str "auth") || jseq name (str "multi")
  || jseq name (str "batch") || jseq name (str "exec").

(** [client[name](arr, cb)]: the hooked methods are not overridden by the
    generated ones. *)
Definition method (name : jsstring) (arr : list value) (cb : option Callback)
    (c : RedisClient) : option (RedisClient * send_return) :=
  if outside_model name then None
  else if SUBSCRIBE_COMMANDS name then Some (subscribe_family name arr cb c)
  else if jseq name (str "client") then client arr cb c
  else if jseq name (str "quit") then Some (quit cb c)
  else if jseq name (str "monitor") then Some (monitor cb c)
  else if jseq name (str "select") then Some (select (js_nth arr 0) cb c)
  else Some (generic_command name arr cb c).

Definition step (i : input) (c : RedisClient) : option RedisClient :=
  match i with
  | ICall name arr cb => fst <$> method name arr (UserCb <$> cb) c
  | ICork => Some (cork c)
  | IUncork => Some (uncork c)
  | IEnd flush => Some (end_ flush c)
  | IListenMessageBuffer => Some (on_message_buffer_listener c)
  | IReply reply => return_reply reply c
  | IReplyError err => return_error err c
  | IFatalError err => Some (return_fatal_error err c)
  | IData => Some (emit_idle c)
  | IStreamError err => Some (on_error err c)
  | IStreamClose => Some (on_close c)
  | IStreamEnd => Some (on_end c)
  | IStreamTimeout => Some (on_timeout c)
  | IStreamDrain => Some (drain c)
  | IStreamWriteOk b => Some (set_stream_write_ok b c)
  | IConnect => on_connect c
  | IRetryTimer => Some (retry_connection c)
  | ITick => Some (run_tick c)
  end.

Fixpoint run (l : list input) (c : RedisClient) : option RedisClient :=
  match l with
  | [] => Some c
  | i :: rest => c' ← step i c; run rest c'
  end.

(** The states a client created with options [o] can be in. *)
Inductive reachable (o : Options) : RedisClient -> Prop :=
| reachable_new : reachable o (RedisClient_new o)
| reachable_step c i c' : reachable o c -> step i c = Some c' -> reachable o c'.

Definition default_options : Options :=
  {| address := str "127.0.0.1:6379";
     retry_strategy := None;
     opt_max_attempts := None;
     opt_retry_max_delay := None;
     opt_connect_timeout := None;
     opt_enable_offline_queue := None;
     retry_unfulfilled_commands := false;
     prefix := None;
     rename_commands := ∅;
     return_buffers := false;
     detect_buffers := false;
     disable_resubscribing := false;
     db := None;
     key_indexes := fun _ _ => [];
     debug_mode := false |}.
(** ** The argument lists of the commands ([lib/utils.js])

    [prepare_arguments_optional] and [prepare_arguments_variable_length]
    split what a method of the client was called with into the argument
    array of the command and the callback. *)

(** A value as these two functions see it: what [Array.isArray] and [typeof]
    say of it and, for an object that is not an array, its enumerable
    properties in the order of [for ... in].  Booleans and symbols are left
    out. *)
#[warnings="-register-all"] Inductive jsarg :=
| AUndefined
| ANull
| ANum (n : jsnum)
| AStr (s : jsstring)
| AFunction (id : nat)
| AArray (l : list jsarg)
| AObject (fields : list (jsstring * jsarg)).

(** [args[i]] *)
Definition arg_nth (args : list jsarg) (i : nat) : jsarg := nth i args AUndefined.

Definition is_array_arg (a : jsarg) : bool :=
  match a with
  | AArray _ => true
  | _ => false
  end.

(** [typeof a === 'function' || typeof a === 'undefined'] *)
Definition is_function_or_undefined (a : jsarg) : bool :=
  match a with
  | AFunction _ | AUndefined => true
  | _ => false
  end.

(** [typeof a === 'object'] *)
Definition is_object_arg (a : jsarg) : bool :=
  match a with
  | ANull | AArray _ | AObject _ => true
  | _ => false
  end.

(** The pairs [field, a[field]] that [for (const field in a)] pushes, for
    an object that is not an array ([null] has none). *)
Definition pushed_fields (a : jsarg) : list jsarg :=
  match a with
  | AObject fields => fields ≫= (fun f => [AStr f.1; f.2])
  | _ => []
  end.

(** The last statements of both functions: a trailing function or
    [undefined] is the callback, the rest is the argument array. *)
Definition split_callback (args : list jsarg) : list jsarg * jsarg :=
  let len := length args in
  if negb (len =? 0)%nat && is_function_or_undefined (arg_nth args (len - 1)) then
    (take (len - 1) args, arg_nth args (len - 1))
  else (take len args, AUndefined).

Definition prepare_arguments_optional (args : list jsarg) : list jsarg * jsarg :=
  match arg_nth args 0 with
  | AArray l => (l, arg_nth args 1)
  | _ => split_callback args
  end.

(** [prepare_arguments_variable_length].  The function is an arrow function,
    so the [arguments] of its first statement are those of the function
    around it; [outer] is their number (the module wrapper of Node.js is
    called with five). *)
Definition prepare_arguments_variable_length (outer : nat) (args : list jsarg)
    (withObject : bool) : list jsarg * jsarg :=
  match arg_nth args 0 with
  | AArray l => (l, arg_nth args 1)
  | _ =>
    match arg_nth args 1 with
    | AArray l =>
      (arg_nth args 0 :: l, if (outer =? 3)%nat then arg_nth args 2 else AUndefined)
    | _ =>
      if withObject && is_object_arg (arg_nth args 1)
         && ((length args =? 2)%nat
             || (length args =? 3)%nat && is_function_or_undefined (arg_nth args 2))
      then (arg_nth args 0 :: pushed_fields (arg_nth args 1), arg_nth args 2)
      else split_callback args
    end
  end.

(** The number of arguments Node.js calls the wrapper of a module with:
    [exports], [require], [module], [__filename], [__dirname]. *)
Definition module_arguments : nat := 5.


(** ** Notions the statements below are phrased with *)

(** A subscribe-family command is in the in-flight queue. *)
Definition subscribe_in_flight (c : RedisClient) : bool :=
  existsb (fun o => SUBSCRIBE_COMMANDS (command o)) (command_queue c).

(** The functions of the caller a sink ends in. *)
Fixpoint user_sinks (cb : Callback) : list nat :=
  match cb with
  | UserCb id => [id]
  | DeferredCb _ => []
  | QuitCb cb' => from_option user_sinks [] cb'
  | SelectCb _ cb' => from_option user_sinks [] cb'
  | ReadyCb _ => []
  | InOrderCb fn later _ => from_option user_sinks [] fn ++ from_option user_sinks [] later
  end.

(** The part of the client a completion sink cannot reach: everything but
    the trace, the stream's [writable], [selected_db] and the countdown
    cells of [on_ready]. *)
Definition core (c : RedisClient) : RedisClient :=
  mkClient (options c) (connected c) (ready c) (closing c) (emitted_end c) (should_buffer c)
    (max_attempts c) (connect_timeout c) (retry_max_delay c) (enable_offline_queue c)
    (command_queue c) (offline_queue c) (pipeline_queue c) (retry_timer c) (retry_totaltime
    c) (retry_delay c) (attempts c) (pub_sub_mode c) (subscription_set c) (monitoring c)
    (message_buffers c) (fire_strings c) (pipeline c) (corkable c) None (sub_commands_left
    c) (times_connected c) (buffers c) (reply c) (detect_buffers_reply c) false
    (stream_write_ok c) (deferred_count c) [] (ticks c) [].

(** The core without the in-flight queue. *)
Definition erase_command_queue (c : RedisClient) : RedisClient :=
  mkClient (options c) (connected c) (ready c) (closing c) (emitted_end c) (should_buffer c)
    (max_attempts c) (connect_timeout c) (retry_max_delay c) (enable_offline_queue c) []
    (offline_queue c) (pipeline_queue c) (retry_timer c) (retry_totaltime c) (retry_delay c)
    (attempts c) (pub_sub_mode c) (subscription_set c) (monitoring c) (message_buffers c)
    (fire_strings c) (pipeline c) (corkable c) None (sub_commands_left c) (times_connected
    c) (buffers c) (reply c) (detect_buffers_reply c) false (stream_write_ok c)
    (deferred_count c) [] (ticks c) [].

(** The core without the offline queue. *)
Definition erase_offline_queue (c : RedisClient) : RedisClient :=
  mkClient (options c) (connected c) (ready c) (closing c) (emitted_end c) (should_buffer c)
    (max_attempts c) (connect_timeout c) (retry_max_delay c) (enable_offline_queue c)
    (command_queue c) [] (pipeline_queue c) (retry_timer c) (retry_totaltime c) (retry_delay
    c) (attempts c) (pub_sub_mode c) (subscription_set c) (monitoring c) (message_buffers c)
    (fire_strings c) (pipeline c) (corkable c) None (sub_commands_left c) (times_connected
    c) (buffers c) (reply c) (detect_buffers_reply c) false (stream_write_ok c)
    (deferred_count c) [] (ticks c) [].

(** The core without the two command queues. *)
Definition bare (c : RedisClient) : RedisClient :=
  mkClient (options c) (connected c) (ready c) (closing c) (emitted_end c) (should_buffer c)
    (max_attempts c) (connect_timeout c) (retry_max_delay c) (enable_offline_queue c) [] []
    (pipeline_queue c) (retry_timer c) (retry_totaltime c) (retry_delay c) (attempts c)
    (pub_sub_mode c) (subscription_set c) (monitoring c) (message_buffers c) (fire_strings
    c) (pipeline c) (corkable c) None (sub_commands_left c) (times_connected c) (buffers c)
    (reply c) (detect_buffers_reply c) false (stream_write_ok c) (deferred_count c) []
    (ticks c) [].

Definition erase (q : queue_name) (c : RedisClient) : RedisClient :=
  match q with
  | Command_queue => erase_command_queue c
  | Offline_queue => erase_offline_queue c
  end.

(** [c'] continues the trace of [c] with events that all satisfy [P]. *)
Definition adds (P : event -> Prop) (c c' : RedisClient) : Prop :=
  exists new, events c' = events c ++ new /\ Forall P new.

(** The events of the acknowledgement kinds. *)
Definition subscription_event (e : event) : Prop :=
  exists name a, e = Emit name a /\ SUBSCRIBE_COMMANDS name = true.

(** What a completion sink may add to the trace. *)
Definition sink_event (e : event) : Prop :=
  match e with
  | Call _ _ _ | Resolve _ _ | Reject _ _ | EmitError _ | StreamDestroy => True
  | Emit name _ => name = str "ready"
  | _ => False
  end.

(** The calls of the caller's functions in a trace, in order. *)
Fixpoint calls_of (l : list event) : list (nat * option js_error * result) :=
  match l with
  | [] => []
  | Call id err res :: rest => (id, err, res) :: calls_of rest
  | _ :: rest => calls_of rest
  end.

Definition text (s : string) : value := VStr (str s).

Definition connection_refused : js_error :=
  JsError PlainError (str "connect ECONNREFUSED") (Some (str "ECONNREFUSED"))
    None None None [].

Definition with_retry_limits (max_delay timeout : Z) (max_tries : option Z)
    (o : Options) : Options :=
  mkOptions (address o) (retry_strategy o) max_tries (Some max_delay) (Some timeout)
    (opt_enable_offline_queue o) (retry_unfulfilled_commands o) (prefix o)
    (rename_commands o) (return_buffers o) (detect_buffers o)
    (disable_resubscribing o) (db o) (key_indexes o) (debug_mode o).

(** A stream error followed by the retry it schedules. *)
Definition failed_connect : list input := [IStreamError connection_refused; IRetryTimer].


(** The map [{k1: v1, k2: v2, ...}]: every key holds the value of its last
    pair. *)
Definition object_of_pairs (kvs : list (list N * value)) : gmap (list N) value :=
  list_to_map (reverse kvs).





(** [c'] continues the trace of [c]. *)
Definition continues (c c' : RedisClient) : Prop := adds (fun _ => True) c c'.

(** [e] is among the events [c'] adds to the trace of [c]. *)
Definition emitted (c c' : RedisClient) (e : event) : Prop :=
  exists new, events c' = events c ++ new /\ In e new.





(** The client without what the writer touches: the trace, [should_buffer]
    and the pipeline queue. *)
Definition wview (c : RedisClient) : RedisClient :=
  mkClient (options c) (connected c) (ready c) (closing c) (emitted_end c) false
    (max_attempts c) (connect_timeout c) (retry_max_delay c) (enable_offline_queue c)
    (command_queue c) (offline_queue c) [] (retry_timer c) (retry_totaltime c) (retry_delay
    c) (attempts c) (pub_sub_mode c) (subscription_set c) (monitoring c) (message_buffers c)
    (fire_strings c) (pipeline c) (corkable c) (selected_db c) (sub_commands_left c)
    (times_connected c) (buffers c) (reply c) (detect_buffers_reply c) (stream_writable c)
    (stream_write_ok c) (deferred_count c) (ready_cells c) (ticks c) [].

(** The client without what a write hook and the queueing touch. *)
Definition hview (c : RedisClient) : RedisClient :=
  mkClient (options c) (connected c) (ready c) (closing c) (emitted_end c) (should_buffer c)
    (max_attempts c) (connect_timeout c) (retry_max_delay c) (enable_offline_queue c) []
    (offline_queue c) (pipeline_queue c) (retry_timer c) (retry_totaltime c) (retry_delay c)
    (attempts c) 0 (subscription_set c) false (message_buffers c) (fire_strings c) (pipeline
    c) (corkable c) (selected_db c) (sub_commands_left c) (times_connected c) (buffers c) ON
    (detect_buffers_reply c) (stream_writable c) (stream_write_ok c) (deferred_count c)
    (ready_cells c) [] (events c).

(** The client without anything that sending a command touches. *)
Definition sview (c : RedisClient) : RedisClient :=
  mkClient (options c) (connected c) (ready c) (closing c) (emitted_end c) false
    (max_attempts c) (connect_timeout c) (retry_max_delay c) (enable_offline_queue c) [] []
    [] (retry_timer c) (retry_totaltime c) (retry_delay c) (attempts c) 0 (subscription_set
    c) false (message_buffers c) false (pipeline c) (corkable c) (selected_db c)
    (sub_commands_left c) (times_connected c) (buffers c) ON (detect_buffers_reply c)
    (stream_writable c) (stream_write_ok c) O (ready_cells c) [] [].

(** The sink of a command once [internal_send_command] has seen it: its
    callback, or the resolver of the promise made for it. *)
Definition sink (command_obj : Command) (c : RedisClient) : Callback :=
  default (DeferredCb (deferred_count c)) (callback command_obj).

(** The reply mode [internal_send_command] reads, after the write hook. *)
Definition reply_after_hook (command_obj : Command) (c : RedisClient) : reply_mode :=
  match call_on_write command_obj with
  | Some (ClientReplyHook m) => m
  | _ => reply c
  end.

(** A text of [n] code units [u]. *)
Definition text_of (n : Z) (u : N) : list N := repeat u (Z.to_nat n).

(** The reply mode after an unreplied command. *)
Definition after_skipped (m : reply_mode) : reply_mode :=
  match m with
  | SKIP => SKIP_ONE_MORE
  | SKIP_ONE_MORE => ON
  | m => m
  end.

(** What is seen of a new client after a run of inputs. *)
Definition observe {A} (f : RedisClient -> A) (l : list input) (o : Options) : option A :=
  f <$> run l (RedisClient_new o).


(** A command outside the subscribe family. *)
Definition quiet (o : Command) : Prop := SUBSCRIBE_COMMANDS (command o) = false.

(** A command of the subscribe family carries the pub/sub write hook. *)
Definition hooked (o : Command) : Prop :=
  SUBSCRIBE_COMMANDS (command o) = true -> call_on_write o = Some PubSubHook.

(** The pub/sub mode is not negative; at 0 no subscribe-family command is
    in flight; every queued subscribe-family command carries its hook. *)
Definition pub_sub_consistent (c : RedisClient) : Prop :=
  0 <= pub_sub_mode c
  /\ (pub_sub_mode c = 0 -> Forall quiet (command_queue c))
  /\ Forall hooked (command_queue c)
  /\ Forall hooked (offline_queue c).


(** ** Scenarios and auxiliary notions of the statements *)

(** Two calls of [quit] on a ready client, then the server's [OK]. *)
Definition quit_twice : list input :=
  [IConnect; ICall (str "quit") [] (Some 1%nat); ICall (str "quit") [] (Some 2%nat);
   IReply (text "OK")].

(** A client with [retry_max_delay] 2000 and [connect_timeout] 5000 whose
    connection is refused six times in a row. *)
Definition refused_six_times : list input :=
  failed_connect ++ failed_connect ++ failed_connect ++ failed_connect
  ++ failed_connect ++ [IStreamError connection_refused].

(** The channel an acknowledgement frame names, as [frame_channel] reads
    it: the element itself (a buffer is kept in buffer mode, null is kept),
    or its text. *)
Definition names_channel (reply : list value) (channel : value) : Prop :=
  channel = js_nth reply 1
  \/ exists s, toString (js_nth reply 1) = Some s /\ channel = VStr s.

(** A [hgetall] whose reply is nil: reading [reply.length] raises. *)
Definition hgetall_in_flight : RedisClient :=
  set_command_queue [new_Command (str "hgetall") [text "h"] (Some (UserCb 1)) None]
    (RedisClient_new default_options).


(** A text of 15001 code units [U+00E9], two bytes each. *)
Definition accented_text : list N := text_of 15001 233.

(** [CLIENT REPLY OFF], then [CLIENT REPLY ON], on a ready client. *)
Definition reply_off : list input :=
  [IConnect; ICall (str "client") [text "reply"; text "off"] (Some 1%nat)].

(** What a disconnect that is acted upon leaves behind: pub/sub mode 0, an
    empty in-flight queue, and the subscription set as it was. *)
Definition gone (c c' : RedisClient) : Prop :=
  pub_sub_mode c' = 0 /\ command_queue c' = []
  /\ (Forall hooked (command_queue c) -> Forall hooked (offline_queue c) ->
      Forall hooked (offline_queue c'))
  /\ subscription_set c' = subscription_set c.

(** The three quantities the pub/sub mode is compared with: the mode, the
    number of entries of the subscription set, and whether a
    subscribe-family command is in flight. *)
Definition pub_sub_summary (c : RedisClient) : Z * nat * bool :=
  (pub_sub_mode c, size (subscription_set c), subscribe_in_flight c).

(** A subscription to channel [a] is acknowledged, then the stream closes. *)
Definition subscribed_then_closed : list input :=
  [IConnect; ICall (str "subscribe") [text "a"] (Some 1%nat);
   IReply (VArr [text "subscribe"; text "a"; VNum (Num 1)]); IStreamClose].

(** The server answers a SUBSCRIBE with an error reply. *)
Definition subscribe_refused : list input :=
  [IConnect; ICall (str "subscribe") [text "a"] (Some 1%nat);
   IReplyError (JsError ReplyError (str "NOPERM") None None None None [])].

(** ** Further notions *)

(** A buffer occurs in a reply, at any depth. *)
Fixpoint holds_buffer (v : value) : bool :=
  match v with
  | VBuf _ => true
  | VArr l => existsb holds_buffer l
  | _ => false
  end.

(** What a trace hands to [stream.write], in order. *)
Fixpoint written (l : list event) : list wire :=
  match l with
  | [] => []
  | StreamWrite d :: rest => d :: written rest
  | _ :: rest => written rest
  end.

(** A fragment [write_strings] and [write_buffers] do not stop at: any
    buffer, any text but the empty one. *)
Definition truthy (w : wire) : Prop := w <> Text [].

(** The kind that undoes a subscription of kind [subscribe] or
    [psubscribe]. *)
Definition undo (kind : jsstring) : jsstring :=
  if jseq kind (str "subscribe") then str "unsubscribe" else str "punsubscribe".

(** The key of the subscription set for a channel, as [subscribe_unsubscribe]
    writes it. *)
Definition subscription_key (kind : jsstring) (channel : value) : jsstring :=
  kind ++ str "_" ++ js_to_string channel.

(** The name and the arguments of a command. *)
Definition request (o : Command) : jsstring * list value := (command o, args o).

(** A command whose write hook, if it sets the reply mode, sets it to [ON]. *)
Definition replied (o : Command) : Prop :=
  match call_on_write o with
  | Some (ClientReplyHook m) => m = ON
  | _ => True
  end.

(** An event that is a warning. *)
Definition warning_event (e : event) : Prop :=
  match e with
  | Warn _ => True
  | _ => False
  end.

(** An event that is a warning or a write to the stream. *)
Definition send_event (e : event) : Prop :=
  match e with
  | Warn _ | StreamWrite _ => True
  | _ => False
  end.

(** The fragments [internal_send_command] hands to [write] for one argument
    of a command with [big_data], in order. *)
Definition arg_fragments (w : wire) : list wire :=
  match w with
  | Text s => [Text (bulk_text (Text s))]
  | Binary b => [Text (bulk_length (Z.of_nat (length b))); Binary b; Text crlf]
  end.

(** The fragments handed to [write] for a command, in order: the header and
    the fragments of each argument when the command has [big_data], the
    whole command as one text otherwise. *)
Definition fragments (big : bool) (name : jsstring) (l : list wire) : list wire :=
  if big then
    Text (command_header (Z.of_nat (length l)) name) :: (l ≫= arg_fragments)
  else
    [Text (command_header (Z.of_nat (length l)) name ++ concat (bulk_text <$> l))].

(** [write] on each fragment in turn. *)
Definition write_all (l : list wire) (c : RedisClient) : RedisClient :=
  foldl (fun c d => write d c) c l.

(** The copies of the arguments of a command as they are written: after the
    conversion of [internal_send_command] and the key prefix. *)
Definition wire_args (o : Command) (c : RedisClient) : list wire :=
  prefixed (options c) (command o) (args_copy (copy_args (command o) (args o))).

(** The fragments [internal_send_command] writes for a command. *)
Definition command_fragments (o : Command) (c : RedisClient) : list wire :=
  fragments (big_data (copy_args (command o) (args o)))
    (renamed (options c) (command o)) (wire_args o c).

(** [Σ w.length] over the pipeline queue. *)
Definition total_length (q : list wire) : Z := foldr (fun w n => wire_length w + n) 0 q.

(** A new client that has become ready, and a GET to send. *)
Definition ready_client : RedisClient := set_ready true (RedisClient_new default_options).

Definition get_k : Command := new_Command (str "get") [text "k"] (Some (UserCb 1)) None.

(** [*2\r\n$3\r\nget\r\n$1\r\nk\r\n] *)
Definition get_k_text : jsstring :=
  str "*2" ++ crlf ++ str "$3" ++ crlf ++ str "get" ++ crlf ++ str "$1" ++ crlf
  ++ str "k" ++ crlf.

(** A corked client with two texts in the pipeline queue, in text mode and
    in buffer mode. *)
Definition two_queued (strings : bool) : RedisClient :=
  set_fire_strings strings
    (set_pipeline_queue [Text (str "ab"); Text (str "cd")]
       (set_pipeline true (set_corkable true ready_client))).

(** The client without what the first statements of [connection_gone]
    touch: [connected], [ready], the cork, [pipeline], the pub/sub mode,
    [emitted_end] and the trace. *)
Definition mview (c : RedisClient) : RedisClient :=
  mkClient (options c) false false (closing c) false (should_buffer c) (max_attempts c)
    (connect_timeout c) (retry_max_delay c) (enable_offline_queue c) (command_queue c)
    (offline_queue c) (pipeline_queue c) (retry_timer c) (retry_totaltime c) (retry_delay c)
    (attempts c) 0 (subscription_set c) (monitoring c) (message_buffers c) (fire_strings c)
    false false (selected_db c) (sub_commands_left c) (times_connected c) (buffers c) (reply
    c) (detect_buffers_reply c) (stream_writable c) (stream_write_ok c) (deferred_count c)
    (ready_cells c) (ticks c) [].

(** The client without anything a disconnect may touch. *)
Definition dview (c : RedisClient) : RedisClient :=
  mkClient (options c) false false false false (should_buffer c) (max_attempts c)
    (connect_timeout c) (retry_max_delay c) (enable_offline_queue c) [] [] (pipeline_queue
    c) None (retry_totaltime c) 0 (attempts c) 0 (subscription_set c) (monitoring c)
    (message_buffers c) (fire_strings c) false false None (sub_commands_left c)
    (times_connected c) (buffers c) (reply c) (detect_buffers_reply c) false
    (stream_write_ok c) (deferred_count c) [] (ticks c) [].

(** The end event, the only event a disconnect that schedules a plain retry
    may add besides the completion of the commands in flight. *)
Definition end_event (e : event) : Prop := e = Emit (str "end") [].

(** A client with limits on the retries, whose connection has been lost
    once with a GET in flight. *)
Definition limited_client (unfulfilled : bool) : RedisClient :=
  let o := with_retry_limits 2000 5000 None default_options in
  set_command_queue [get_k]
    (set_ready true
       (RedisClient_new
          (mkOptions (address o) (retry_strategy o) (opt_max_attempts o)
             (opt_retry_max_delay o) (opt_connect_timeout o) (opt_enable_offline_queue o)
             unfulfilled (prefix o) (rename_commands o) (return_buffers o)
             (detect_buffers o) (disable_resubscribing o) (db o) (key_indexes o)
             (debug_mode o)))).

(** The same client, retrying unfulfilled commands, with a SET in flight
    behind the GET. *)
Definition set_k : Command :=
  new_Command (str "set") [text "k"; text "v"] (Some (UserCb 2)) None.

Definition two_in_flight : RedisClient :=
  set_command_queue [get_k; set_k] (limited_client true).

(** The error a parser reports when the data cannot be read. *)
Definition protocol_error : js_error :=
  JsError ParserError (str "Protocol error, got x as reply type byte") None None None
    None [].

(** The [ready] event. *)
Definition ready_event : event := Emit (str "ready") [].


(** A command with a completion sink. *)
Definition has_sink (o : Command) : Prop := callback o <> None.

(** A fragment that is a text. *)
Definition is_text (w : wire) : Prop :=
  match w with
  | Text _ => True
  | Binary _ => False
  end.

(** Every queued command has a completion sink; the pipeline queue holds no
    empty text and, while [fire_strings] is set, texts only. *)
Definition well_queued (c : RedisClient) : Prop :=
  Forall has_sink (command_queue c)
  /\ Forall has_sink (offline_queue c)
  /\ Forall truthy (pipeline_queue c)
  /\ (fire_strings c = true -> Forall is_text (pipeline_queue c)).

(** A client connects, is corked and is sent a GET. *)
Definition corked_get : list input :=
  [IConnect; ICork; ICall (str "get") [text "k"] (Some 1%nat)].

(** A ready client is connected and has no retry pending; a pending retry
    was scheduled with the delay the client holds. *)
Definition linked (c : RedisClient) : Prop :=
  (ready c = true -> connected c = true /\ retry_timer c = None)
  /\ (forall d e, retry_timer c = Some (d, e) -> d = retry_delay c).

(** The stream reports an error on a ready client. *)
Definition connected_then_refused : list input :=
  [IConnect; IStreamError connection_refused].

(** * Properties *)

(** ** Traces and frames *)

Lemma adds_refl P c : adds P c c.
Proof. exists []. split; [by rewrite app_nil_r | constructor]. Qed.

Lemma adds_trans P c1 c2 c3 : adds P c1 c2 -> adds P c2 c3 -> adds P c1 c3.
Proof.
  intros (n1 & E1 & F1) (n2 & E2 & F2). exists (n1 ++ n2). split.
  - by rewrite E2, E1, app_assoc.
  - by apply Forall_app.
Qed.

Lemma adds_log (P : event -> Prop) e c : P e -> adds P c (log e c).
Proof. intros H. exists [e]. split; [reflexivity | by repeat constructor]. Qed.

Lemma adds_same_events P c c' : events c' = events c -> adds P c c'.
Proof. intros E. exists []. split; [by rewrite app_nil_r | constructor]. Qed.

Lemma adds_weaken (P Q : event -> Prop) c c' :
  (forall e, P e -> Q e) -> adds P c c' -> adds Q c c'.
Proof.
  intros H (n & E & F). exists n. split; [done |]. eapply Forall_impl; eauto.
Qed.

Lemma adds_In P c c' e : adds P c c' -> In e (events c) -> In e (events c').
Proof. intros (n & E & _) H. rewrite E. apply in_or_app. by left. Qed.

(** What [unshift] through [apply] keeps of the items: the first. *)
Lemma unshift_apply_take {A} (queue items : list A) :
  unshift_apply queue items = take 1 items ++ queue.
Proof. by destruct items. Qed.

Lemma Forall_unshift_apply {A} (P : A -> Prop) queue items :
  Forall P items -> Forall P queue -> Forall P (unshift_apply queue items).
Proof.
  intros I Q. destruct items as [|item rest]; [done |].
  apply Forall_cons in I as [I _]. by constructor.
Qed.

(** A field that a view keeps is equal in two clients with the same view. *)
Lemma view_eq {A} (v : RedisClient -> RedisClient) (f : RedisClient -> A) c c' :
  v c' = v c -> (forall x, f (v x) = f x) -> f c' = f c.
Proof. intros H F. by rewrite <- (F c'), <- (F c), H. Qed.

Ltac by_view H f := apply (view_eq _ f _ _ H); intros ?; reflexivity.

Lemma core_log e c : core (log e c) = core c.
Proof. reflexivity. Qed.

Lemma core_destroy_if_writable c :
  core (if stream_writable c then log StreamDestroy (set_stream_writable false c) else c)
  = core c.
Proof. by destruct (stream_writable c). Qed.

Lemma core_emit_error_if err c :
  core (match err with Some e => emit_error e c | None => c end) = core c.
Proof. by destruct err. Qed.

(** A completion sink leaves the core of the client alone. *)
Lemma invoke_core : forall cb err res c, core (invoke cb err res c) = core c.
Proof.
  fix IH 1. intros [id|id|cb'|d cb'|cell|fn later res'] err res c; simpl.
  - reflexivity.
  - by destruct err.
  - rewrite core_destroy_if_writable.
    destruct cb' as [f|]; [apply IH | apply core_emit_error_if].
  - destruct cb' as [f|].
    + rewrite IH. by destruct err.
    + by destruct err.
  - destruct (ready_cells c !! cell) as [n|]; [| reflexivity].
    by destruct (n - 1 =? 0).
  - destruct later as [f|]; [rewrite IH | rewrite core_emit_error_if].
    all: destruct fn as [g|]; [apply IH | apply core_emit_error_if].
Qed.

Lemma callback_or_emit_core cb err res c :
  core (callback_or_emit cb err res c) = core c.
Proof. destruct cb; simpl; [apply invoke_core | by destruct err]. Qed.

Lemma adds_destroy_if_writable c :
  adds sink_event c
    (if stream_writable c then log StreamDestroy (set_stream_writable false c) else c).
Proof.
  destruct (stream_writable c); [| apply adds_refl].
  eapply adds_trans; [| by apply adds_log]. by apply adds_same_events.
Qed.

Lemma adds_emit_error_if err c :
  adds sink_event c (match err with Some e => emit_error e c | None => c end).
Proof. destruct err; [by apply adds_log | apply adds_refl]. Qed.

(** A completion sink only adds sink events to the trace. *)
Lemma invoke_adds : forall cb err res c, adds sink_event c (invoke cb err res c).
Proof.
  fix IH 1. intros [id|id|cb'|d cb'|cell|fn later res'] err res c; simpl.
  - by apply adds_log.
  - destruct err; by apply adds_log.
  - eapply adds_trans; [| apply adds_destroy_if_writable].
    destruct cb' as [f|]; [apply IH | apply adds_emit_error_if].
  - eapply adds_trans; [by apply adds_same_events with (c' := match err with
        | Some _ => c | None => set_selected_db (Some d) c end); destruct err |].
    destruct cb' as [f|]; [apply IH | apply adds_emit_error_if].
  - destruct (ready_cells c !! cell) as [n|]; [| apply adds_refl].
    destruct (n - 1 =? 0).
    + eapply adds_trans; [| by apply adds_log]. by apply adds_same_events.
    + by apply adds_same_events.
  - eapply adds_trans.
    + instantiate (1 := match fn with
                        | Some f => invoke f err res c
                        | None => match err with Some e => emit_error e c | None => c end
                        end).
      destruct fn as [f|]; [apply IH | apply adds_emit_error_if].
    + destruct later as [f|]; [apply IH | apply adds_emit_error_if].
Qed.

Lemma callback_or_emit_adds cb err res c :
  adds sink_event c (callback_or_emit cb err res c).
Proof. destruct cb; simpl; [apply invoke_adds | apply adds_emit_error_if]. Qed.

(** ** quit *)

(** [quit_callback] itself: an [NR_CLOSED] failure becomes [(null, "OK")],
    anything else is handed on, and the stream is destroyed when it can
    still be written. *)
Lemma quit_callback_spec cb err res c :
  invoke (QuitCb cb) err res c =
  let closed := match err with Some e => has_code "NR_CLOSED" e | None => false end in
  let c' :=
    callback_or_emit cb (if closed then None else err)
      (if closed then RVal (text "OK") else res) c in
  if stream_writable c' then log StreamDestroy (set_stream_writable false c') else c'.
Proof. reflexivity. Qed.

(** C8 (code defect).  The second [quit] is rejected with [NR_CLOSED] while
    the first QUIT is in flight; [reply_in_order] chains its sink behind
    that command, and the chained sink is run with the outcome of the
    command in front, not with the rejection.  The first sink receives
    [(null, "OK")], the second [(null, undefined)]. *)
Theorem quit_twice_second_sink_gets_undefined :
  observe (fun c => calls_of (events c)) quit_twice default_options
  = Some [(1%nat, None, RVal (text "OK")); (2%nat, None, undefined)].
Proof. vm_compute. reflexivity. Qed.

(** ** The caps on the retry delay *)

(** The first cap always holds. *)
Lemma capped_retry_delay_le_max c m :
  retry_max_delay c = Some m -> retry_delay c <= m \/ capped_retry_delay c = m.
Proof.
  intros E. unfold capped_retry_delay. rewrite E.
  destruct (Z.ltb_spec m (retry_delay c)); [by right | by left].
Qed.

(** The second cap holds whenever the first did not cut the delay. *)
Lemma capped_retry_delay_le_budget c :
  capped_retry_delay c <= connect_timeout c - retry_totaltime c
  \/ exists m, retry_max_delay c = Some m /\ m < retry_delay c /\ capped_retry_delay c = m.
Proof.
  unfold capped_retry_delay. destruct (retry_max_delay c) as [m|].
  - destruct (Z.ltb_spec m (retry_delay c)); [right; eauto |].
    left. destruct (Z.ltb_spec (connect_timeout c) (retry_totaltime c + retry_delay c)); lia.
  - left. destruct (Z.ltb_spec (connect_timeout c) (retry_totaltime c + retry_delay c)); lia.
Qed.

(** C2 (code defect).  The second cap sits in the [else] of the first: when
    [retry_max_delay] cuts the delay, the remaining budget is not looked at.
    After five retries (200, 340, 578, 983 and 1671 ms) 3772 ms of the 5000
    are used; the sixth delay, 2841 ms, is cut to 2000 ms and scheduled,
    although only 1228 ms remain. *)
Theorem retry_delay_cap_skips_remaining_budget :
  observe
    (fun c => (fst <$> retry_timer c, retry_max_delay c,
               connect_timeout c - retry_totaltime c))
    refused_six_times (with_retry_limits 2000 5000 None default_options)
  = Some (Some 2000, Some 2000, 1228).
Proof. vm_compute. reflexivity. Qed.

(** ** The pub/sub overlay and the reply dispatcher *)

Lemma invoke_command_queue cb err res c :
  command_queue (invoke cb err res c) = command_queue c.
Proof. exact (f_equal command_queue (invoke_core cb err res c)). Qed.

Lemma invoke_offline_queue cb err res c :
  offline_queue (invoke cb err res c) = offline_queue c.
Proof. exact (f_equal offline_queue (invoke_core cb err res c)). Qed.

Lemma invoke_pub_sub_mode cb err res c :
  pub_sub_mode (invoke cb err res c) = pub_sub_mode c.
Proof. exact (f_equal pub_sub_mode (invoke_core cb err res c)). Qed.

Lemma invoke_subscription_set cb err res c :
  subscription_set (invoke cb err res c) = subscription_set c.
Proof. exact (f_equal subscription_set (invoke_core cb err res c)). Qed.

Lemma sink_event_not_subscription e : sink_event e -> ~ subscription_event e.
Proof.
  intros H (name & a & -> & S). simpl in H. subst name. vm_compute in S. discriminate.
Qed.

(** The normal dispatcher shifts the head of the in-flight queue and leaves
    the pub/sub state alone. *)
Lemma normal_reply_shifts reply c c' :
  normal_reply reply c = Some c' ->
  command_queue c' = tail (command_queue c)
  /\ pub_sub_mode c' = pub_sub_mode c
  /\ subscription_set c' = subscription_set c.
Proof.
  unfold normal_reply. destruct (command_queue c) as [|o rest] eqn:Q; [done |].
  destruct (callback o) as [cb|]; simpl.
  - intros H. apply bind_Some in H as (r & _ & [= <-]).
    by rewrite invoke_command_queue, invoke_pub_sub_mode, invoke_subscription_set.
  - by intros [= <-].
Qed.

(** It answers whenever a command is in flight, except for an [hgetall]
    whose reply cannot be converted. *)
Lemma normal_reply_total reply c o rest :
  command_queue c = o :: rest ->
  jseq (command o) (str "hgetall") = false ->
  is_Some (normal_reply reply c).
Proof.
  intros Q H. unfold normal_reply. rewrite Q.
  destruct (callback o) as [cb|]; [| by eexists].
  unfold handle_detect_buffers_reply, handle_reply. rewrite H.
  repeat match goal with |- context [if ?b then _ else _] => destruct b end;
    by eexists.
Qed.

(** The condition of [subscribe_unsubscribe] under which the head command
    is completed, in words. *)
Lemma completes_iff o left count channel :
  completes o left count channel = true <->
  length (args o) = 1%nat \/ left = Num 1
  \/ (length (args o) = 0%nat /\ (count = Num 0 \/ channel = VNull)).
Proof.
  unfold completes.
  rewrite !orb_true_iff, andb_true_iff, orb_true_iff, !bool_decide_eq_true.
  assert (is_null channel = true <-> channel = VNull) as ->
    by (destruct channel; simpl; split; congruence).
  tauto.
Qed.

Lemma frame_channel_total buffer reply :
  js_nth reply 1 <> VUndefined ->
  exists channel,
    frame_channel buffer reply = Some channel /\ names_channel reply channel.
Proof.
  intros U. unfold frame_channel, names_channel.
  destruct (buffer || is_null (js_nth reply 1)) eqn:B.
  - eexists. split; [done | by left].
  - apply orb_false_iff in B as [_ B].
    destruct (js_nth reply 1) eqn:E; try done; simpl;
      eexists; (split; [done |]); right; eexists; split; done.
Qed.

Lemma frame_channel_null buffer reply :
  js_nth reply 1 = VNull -> frame_channel buffer reply = Some VNull.
Proof.
  intros E. unfold frame_channel. rewrite E. simpl. by rewrite orb_true_r.
Qed.

Lemma acknowledge_command_queue type channel count c :
  command_queue (acknowledge type channel count c) = command_queue c.
Proof.
  unfold acknowledge.
  by destruct (jseq type (str "subscribe") || jseq type (str "psubscribe")).
Qed.

Lemma acknowledge_sub_commands_left type channel count c :
  sub_commands_left (acknowledge type channel count c) = sub_commands_left c.
Proof.
  unfold acknowledge.
  by destruct (jseq type (str "subscribe") || jseq type (str "psubscribe")).
Qed.

Lemma acknowledge_adds type channel count c :
  adds (fun e => e = Emit type [channel; VNum count]) c
    (acknowledge type channel count c).
Proof.
  unfold acknowledge.
  destruct (jseq type (str "subscribe") || jseq type (str "psubscribe"));
    (eapply adds_trans; [by apply adds_log |]); by apply adds_same_events.
Qed.

(** C4.  An acknowledgement frame for the command [command_obj] at the head
    of the in-flight queue: the head is shifted and its sink is run with the
    channel of this frame exactly when the command had one argument, or
    [sub_commands_left] is 1, or it had no argument and the count is 0 or
    the channel null; otherwise the command stays at the head and nothing
    but the acknowledgement event is added to the trace. *)
Theorem acknowledgement_completes_head c command_obj rest reply type :
  command_queue c = command_obj :: rest ->
  js_nth reply 1 <> VUndefined ->
  let count := to_number (js_nth reply 2) in
  exists c' channel,
    subscribe_unsubscribe reply type c = Some c'
    /\ names_channel reply channel
    /\ ((length (args command_obj) = 1%nat \/ sub_commands_left c = Num 1
         \/ (length (args command_obj) = 0%nat /\ (count = Num 0 \/ channel = VNull))) ->
        command_queue c' = rest
        /\ forall cb, callback command_obj = Some cb ->
           exists c1, c' = set_sub_commands_left (Num 0) (invoke cb None (RVal channel) c1))
    /\ (~ (length (args command_obj) = 1%nat \/ sub_commands_left c = Num 1
           \/ (length (args command_obj) = 0%nat /\ (count = Num 0 \/ channel = VNull))) ->
        command_queue c' = command_obj :: rest
        /\ adds (fun e => e = Emit type [channel; VNum count]) c c').
Proof.
  intros Q U count. unfold subscribe_unsubscribe. rewrite Q.
  destruct (frame_channel_total
              (return_buffers (options c)
               || detect_buffers (options c) && buffer_args command_obj) reply U)
    as (channel & -> & N).
  cbn [mbind option_bind]. fold count.
  set (c1 := if negb (is_null channel) then acknowledge type channel count c else c).
  assert (Q1 : command_queue c1 = command_obj :: rest).
  { subst c1. destruct (negb _); [| done]. by rewrite acknowledge_command_queue. }
  assert (L1 : sub_commands_left c1 = sub_commands_left c).
  { subst c1. destruct (negb _); [| done]. by rewrite acknowledge_sub_commands_left. }
  assert (A1 : adds (fun e => e = Emit type [channel; VNum count]) c c1).
  { subst c1. destruct (negb _); [apply acknowledge_adds | apply adds_refl]. }
  rewrite L1.
  destruct (completes command_obj (sub_commands_left c) count channel) eqn:D.
  - eexists _, channel. split; [done |]. split; [done |]. split.
    + intros _. split.
      * destruct (callback command_obj); cbn;
          [rewrite invoke_command_queue |]; reflexivity.
      * intros cb ->. eexists. reflexivity.
    + intros H. exfalso. apply H. by apply completes_iff.
  - assert (~ (length (args command_obj) = 1%nat \/ sub_commands_left c = Num 1
               \/ (length (args command_obj) = 0%nat
                   /\ (count = Num 0 \/ channel = VNull)))) as ND.
    { intros H. apply completes_iff in H. congruence. }
    destruct (negb (bool_decide (sub_commands_left c = Num 0)));
      (eexists _, channel; split; [done |]; split; [done |]; split;
       [intros H; by destruct ND |]; intros _; split; [exact Q1 |]);
      (eapply adds_trans; [exact A1 | by apply adds_same_events]).
Qed.

Lemma acknowledgement_completes_head_witness :
  exists c' channel,
    subscribe_unsubscribe [text "subscribe"; text "a"; VNum (Num 1)] (str "subscribe")
      (set_command_queue
         [new_Command (str "subscribe") [text "a"] (Some (UserCb 1)) (Some PubSubHook)]
         (RedisClient_new default_options)) = Some c'
    /\ names_channel [text "subscribe"; text "a"; VNum (Num 1)] channel
    /\ command_queue c' = [].
Proof.
  destruct (acknowledgement_completes_head
              (set_command_queue
                 [new_Command (str "subscribe") [text "a"] (Some (UserCb 1))
                    (Some PubSubHook)]
                 (RedisClient_new default_options))
              (new_Command (str "subscribe") [text "a"] (Some (UserCb 1)) (Some PubSubHook))
              [] [text "subscribe"; text "a"; VNum (Num 1)] (str "subscribe")
              eq_refl ltac:(discriminate))
    as (c' & channel & E & N & Y & _).
  exists c', channel. split; [exact E |]. split; [exact N |].
  apply Y. left. reflexivity.
Defined.

(** C10.  An acknowledgement frame whose channel element is null, for the
    command at the head of the in-flight queue: no acknowledgement event is
    added to the trace and the subscription set is unchanged, while the
    completion test and the pub/sub mode bookkeeping run as for any frame. *)
Theorem null_channel_acknowledgement c command_obj rest reply type :
  command_queue c = command_obj :: rest ->
  js_nth reply 1 = VNull ->
  let count := to_number (js_nth reply 2) in
  let done := completes command_obj (sub_commands_left c) count VNull in
  exists c',
    subscribe_unsubscribe reply type c = Some c'
    /\ subscription_set c' = subscription_set c
    /\ adds (fun e => ~ subscription_event e) c c'
    /\ command_queue c' = (if done then rest else command_obj :: rest)
    /\ pub_sub_mode c' =
       (if done && bool_decide (count = Num 0) then next_subscribe 1 rest
        else pub_sub_mode c).
Proof.
  intros Q E count done. unfold subscribe_unsubscribe. rewrite Q.
  rewrite (frame_channel_null _ _ E). cbn [mbind option_bind is_null negb].
  fold count. fold done. destruct done.
  - eexists. split; [done |]. cbn [andb].
    set (c1 := set_command_queue rest _).
    assert (X : forall c2, core c2 = core c1 -> adds sink_event c1 c2 ->
      subscription_set (set_sub_commands_left (Num 0) c2) = subscription_set c
      /\ adds (fun e => ~ subscription_event e) c (set_sub_commands_left (Num 0) c2)
      /\ command_queue (set_sub_commands_left (Num 0) c2) = rest
      /\ pub_sub_mode (set_sub_commands_left (Num 0) c2) =
         (if bool_decide (count = Num 0) then next_subscribe 1 rest else pub_sub_mode c)).
    { intros c2 C A.
      pose proof (f_equal subscription_set C) as C1.
      pose proof (f_equal command_queue C) as C2.
      pose proof (f_equal pub_sub_mode C) as C3.
      cbn in C1, C2, C3. cbn. rewrite C1, C2, C3. subst c1. cbn.
      repeat split; try (by destruct (bool_decide (count = Num 0))).
      eapply adds_trans; [| eapply adds_trans; [eapply adds_weaken;
        [apply sink_event_not_subscription | exact A] | by apply adds_same_events]].
      apply adds_same_events. by destruct (bool_decide (count = Num 0)). }
    destruct (callback command_obj) as [cb|].
    + apply X; [apply invoke_core | apply invoke_adds].
    + apply X; [reflexivity | apply adds_refl].
  - cbn [andb].
    destruct (negb (bool_decide (sub_commands_left c = Num 0)));
      (eexists; split; [done |]; repeat split; [| exact Q]);
      by apply adds_same_events.
Qed.

Lemma null_channel_acknowledgement_witness :
  exists c',
    subscribe_unsubscribe [text "unsubscribe"; VNull; VNum (Num 0)] (str "unsubscribe")
      (set_command_queue
         [new_Command (str "unsubscribe") [] (Some (UserCb 1)) (Some PubSubHook)]
         (RedisClient_new default_options)) = Some c'
    /\ subscription_set c' = ∅.
Proof.
  destruct (null_channel_acknowledgement
              (set_command_queue
                 [new_Command (str "unsubscribe") [] (Some (UserCb 1)) (Some PubSubHook)]
                 (RedisClient_new default_options))
              (new_Command (str "unsubscribe") [] (Some (UserCb 1)) (Some PubSubHook))
              [] [text "unsubscribe"; VNull; VNum (Num 0)] (str "unsubscribe")
              eq_refl eq_refl)
    as (c' & E & S & _).
  exists c'. split; [exact E | exact S].
Defined.

Lemma return_pub_sub_message_keeps_queue l c c' :
  (toString (js_nth l 0) = Some (str "message")
   \/ toString (js_nth l 0) = Some (str "pmessage")) ->
  return_pub_sub l c = Some c' ->
  command_queue c' = command_queue c.
Proof.
  unfold return_pub_sub. intros [-> | ->]; cbn [mbind option_bind].
  - change (jseq (str "message") (str "message")) with true. cbn iota.
    destruct (negb (return_buffers (options c)) || message_buffers c).
    + intros H. apply bind_Some in H as (? & _ & H).
      apply bind_Some in H as (? & _ & [= <-]). reflexivity.
    + by intros [= <-].
  - change (jseq (str "pmessage") (str "message")) with false.
    change (jseq (str "pmessage") (str "pmessage")) with true. cbn iota.
    destruct (negb (return_buffers (options c)) || message_buffers c).
    + intros H. apply bind_Some in H as (? & _ & H).
      apply bind_Some in H as (? & _ & H).
      apply bind_Some in H as (? & _ & [= <-]). reflexivity.
    + by intros [= <-].
Qed.

(** C5.  A reply that the monitor branch does not take, in pub/sub mode:
    above 1 the mode is counted down and the reply goes to the normal
    dispatcher, which shifts the head of the in-flight queue; at 1 a reply
    that is no array, or an array of at most two elements, goes to the
    normal dispatcher; any other goes to the pub/sub dispatcher, which
    leaves the in-flight queue as it is for [message] and [pmessage]. *)
Theorem reply_routing_in_pub_sub_mode c reply :
  pub_sub_mode c <> 0 ->
  0 <= pub_sub_mode c ->
  monitor_line reply c = None ->
  (1 < pub_sub_mode c ->
   return_reply reply c = normal_reply reply (set_pub_sub_mode (pub_sub_mode c - 1) c)
   /\ (forall o rest, command_queue c = o :: rest ->
       jseq (command o) (str "hgetall") = false -> is_Some (return_reply reply c))
   /\ forall c', return_reply reply c = Some c' ->
      pub_sub_mode c' = pub_sub_mode c - 1
      /\ command_queue c' = tail (command_queue c))
  /\ (pub_sub_mode c = 1 ->
      (is_array reply = false \/ (length (array_items reply) <= 2)%nat) ->
      return_reply reply c = normal_reply reply c
      /\ (forall o rest, command_queue c = o :: rest ->
          jseq (command o) (str "hgetall") = false -> is_Some (return_reply reply c))
      /\ forall c', return_reply reply c = Some c' ->
         pub_sub_mode c' = 1 /\ command_queue c' = tail (command_queue c))
  /\ (pub_sub_mode c = 1 ->
      forall l, reply = VArr l -> (2 < length l)%nat ->
      return_reply reply c = return_pub_sub l c
      /\ forall c',
         (toString (js_nth l 0) = Some (str "message")
          \/ toString (js_nth l 0) = Some (str "pmessage")) ->
         return_reply reply c = Some c' -> command_queue c' = command_queue c).
Proof.
  intros NZ NN M. unfold return_reply. rewrite M.
  destruct (Z.eqb_spec (pub_sub_mode c) 0) as [|_]; [done |].
  split; [| split].
  - intros G. destruct (Z.eqb_spec (pub_sub_mode c) 1) as [|_]; [lia |].
    cbn [negb]. split; [done |]. split.
    + intros o rest Q H. by eapply normal_reply_total.
    + intros c' H. by apply normal_reply_shifts in H as (-> & -> & _).
  - intros P S. rewrite P. cbn [Z.eqb Pos.eqb negb].
    assert (negb (is_array reply) || (length (array_items reply) <=? 2)%nat = true) as ->.
    { destruct S as [-> | S]; [done |].
      apply orb_true_iff. right. by apply Nat.leb_le. }
    split; [done |]. split.
    + intros o rest Q H. by eapply normal_reply_total.
    + intros c' H. by apply normal_reply_shifts in H as (-> & -> & _).
  - intros P l -> L. rewrite P. cbn [Z.eqb Pos.eqb negb is_array array_items orb].
    destruct (Nat.leb_spec (length l) 2) as [|_]; [lia |].
    split; [done |]. intros c' T H.
    by eapply return_pub_sub_message_keeps_queue.
Qed.

Lemma reply_routing_in_pub_sub_mode_witness :
  return_reply (text "PONG")
    (set_pub_sub_mode 2
       (set_command_queue [new_Command (str "ping") [] None None]
          (RedisClient_new default_options)))
  = normal_reply (text "PONG")
      (set_pub_sub_mode 1
         (set_command_queue [new_Command (str "ping") [] None None]
            (RedisClient_new default_options))).
Proof.
  refine (proj1 (proj1 (reply_routing_in_pub_sub_mode
    (set_pub_sub_mode 2
       (set_command_queue [new_Command (str "ping") [] None None]
          (RedisClient_new default_options)))
    (text "PONG") _ _ _) _)); [discriminate | cbn; lia | reflexivity | cbn; lia].
Defined.

(** ** hgetall *)

Lemma object_of_pairs_snoc kvs k v :
  object_of_pairs (kvs ++ [(k, v)]) = <[k := v]> (object_of_pairs kvs).
Proof. unfold object_of_pairs. by rewrite reverse_snoc. Qed.

(** Later pairs win. *)
Lemma object_of_pairs_lookup_last kvs k v :
  object_of_pairs (kvs ++ [(k, v)]) !! k = Some v.
Proof. rewrite object_of_pairs_snoc. apply lookup_insert_eq. Qed.

Lemma object_of_pairs_lookup_other kvs k v k' :
  k <> k' -> object_of_pairs (kvs ++ [(k, v)]) !! k' = object_of_pairs kvs !! k'.
Proof. intros H. rewrite object_of_pairs_snoc. by apply lookup_insert_ne. Qed.









(** A field named [__proto__] is not kept: the assignment goes to the
    accessor of [Object.prototype], and the object handed to the sink has
    the other field only. *)
Lemma hgetall_proto_field_is_not_kept :
  normal_reply (VArr [text "__proto__"; text "x"; text "a"; text "1"]) hgetall_in_flight
  = Some (invoke (UserCb 1) None (RObj (object_of_pairs [(str "a", text "1")]))
            (set_command_queue [] hgetall_in_flight)).
Proof. reflexivity. Qed.



(** ** The error flusher and the retry budget *)

Lemma continues_refl c : continues c c.
Proof. apply adds_refl. Qed.

Lemma continues_trans c1 c2 c3 : continues c1 c2 -> continues c2 c3 -> continues c1 c3.
Proof. apply adds_trans. Qed.

Lemma adds_continues P c c' : adds P c c' -> continues c c'.
Proof. apply adds_weaken. done. Qed.

Lemma continues_same_events c c' : events c' = events c -> continues c c'.
Proof. apply adds_same_events. Qed.

Lemma emitted_log e c : emitted c (log e c) e.
Proof. exists [e]. split; [reflexivity | by left]. Qed.

Lemma emitted_then c1 c2 c3 e : emitted c1 c2 e -> continues c2 c3 -> emitted c1 c3 e.
Proof.
  intros (n1 & E1 & I) (n2 & E2 & _). exists (n1 ++ n2). split.
  - by rewrite E2, E1, app_assoc.
  - apply in_or_app. by left.
Qed.

Lemma emitted_after c1 c2 c3 e : continues c1 c2 -> emitted c2 c3 e -> emitted c1 c3 e.
Proof.
  intros (n1 & E1 & _) (n2 & E2 & I). exists (n1 ++ n2). split.
  - by rewrite E2, E1, app_assoc.
  - apply in_or_app. by right.
Qed.

Lemma invoke_continues cb err res c : continues c (invoke cb err res c).
Proof. eapply adds_continues, invoke_adds. Qed.

Lemma continues_destroy_if_writable c :
  continues c
    (if stream_writable c then log StreamDestroy (set_stream_writable false c) else c).
Proof. eapply adds_continues, adds_destroy_if_writable. Qed.

Lemma continues_emit_error_if err c :
  continues c (match err with Some e => emit_error e c | None => c end).
Proof. eapply adds_continues, adds_emit_error_if. Qed.

(** An error other than [NR_CLOSED] reaches every function of the caller a
    sink ends in. *)
Lemma invoke_error_reaches_sinks :
  forall cb e res c id,
    has_code "NR_CLOSED" e = false -> In id (user_sinks cb) ->
    exists r, emitted c (invoke cb (Some e) res c) (Call id (Some e) r).
Proof.
  fix IH 1. intros [n|n|cb'|d cb'|cell|fn later res'] e res c id NC I; simpl in I.
  - destruct I as [<- | []]. eexists. apply emitted_log.
  - destruct I.
  - destruct cb' as [f|]; [| destruct I]. simpl in I.
    destruct (IH f e res c id NC I) as (r & E).
    exists r. simpl. rewrite NC.
    eapply emitted_then; [exact E | apply continues_destroy_if_writable].
  - destruct cb' as [f|]; [| destruct I]. simpl in I. simpl. by apply IH.
  - destruct I.
  - simpl. apply in_app_or in I as [I | I].
    + destruct fn as [f|]; [| destruct I]. simpl in I.
      destruct (IH f e res c id NC I) as (r & E). exists r.
      eapply emitted_then; [exact E |].
      destruct later; [apply invoke_continues | apply (continues_emit_error_if (Some e))].
    + destruct later as [f|]; [| destruct I]. simpl in I.
      set (c1 := match fn with Some g => invoke g (Some e) res c | None => emit_error e c end).
      destruct (IH f e res' c1 id NC I) as (r & E). exists r.
      eapply emitted_after; [| exact E]. subst c1.
      destruct fn; [apply invoke_continues | apply (continues_emit_error_if (Some e))].
Qed.

Lemma erase_invoke q cb err res c : erase q (invoke cb err res c) = erase q c.
Proof.
  destruct q.
  - exact (f_equal erase_command_queue (invoke_core cb err res c)).
  - exact (f_equal erase_offline_queue (invoke_core cb err res c)).
Qed.

Lemma erase_set_queue q l c : erase q (set_queue q l c) = erase q c.
Proof. by destruct q. Qed.

Lemma get_set_queue q l c : get_queue q (set_queue q l c) = l.
Proof. by destruct q. Qed.

Lemma get_queue_invoke q cb err res c : get_queue q (invoke cb err res c) = get_queue q c.
Proof. destruct q; [apply invoke_command_queue | apply invoke_offline_queue]. Qed.

(** The inner loop of [flush_and_error]: the queue ends empty, nothing else
    of the core changes, and every function of the caller behind a flushed
    command is called with the error of that command. *)
Lemma flush_commands_spec q l message code origin :
  forall c agg,
    let r := flush_commands q l message code origin (c, agg) in
    erase q r.1 = erase q c
    /\ continues c r.1
    /\ get_queue q r.1 = match l with [] => get_queue q c | _ => [] end
    /\ forall o cb id,
       In o l -> callback o = Some cb -> In id (user_sinks cb) ->
       has_code "NR_CLOSED" (abort_error message code origin o) = false ->
       exists res,
         emitted c r.1 (Call id (Some (abort_error message code origin o)) res).
Proof.
  induction l as [|o l IH]; intros c agg r.
  - repeat split; [apply continues_refl |]. intros ? ? ? [].
  - subst r. cbn [flush_commands].
    set (c0 := set_queue q l c).
    set (st := match callback o with
               | Some cb => (invoke cb (Some (abort_error message code origin o)) undefined c0, agg)
               | None => (c0, agg ++ [abort_error message code origin o])
               end).
    assert (E0 : erase q st.1 = erase q c).
    { subst st. unfold c0. destruct (callback o); cbn [fst].
      - by rewrite erase_invoke, erase_set_queue.
      - apply erase_set_queue. }
    assert (C0 : continues c st.1).
    { subst st. destruct (callback o); cbn [fst].
      - eapply continues_trans; [| apply invoke_continues].
        apply continues_same_events. by destruct q.
      - apply continues_same_events. by destruct q. }
    assert (Q0 : get_queue q st.1 = l).
    { subst st. unfold c0. destruct (callback o); cbn [fst].
      - by rewrite get_queue_invoke, get_set_queue.
      - apply get_set_queue. }
    destruct st as [c1 agg1] eqn:ST. cbn [fst] in E0, C0, Q0.
    destruct (IH c1 agg1) as (E1 & C1 & Q1 & S1).
    split; [by rewrite E1 |]. split; [by eapply continues_trans |]. split.
    { rewrite Q1, Q0. by destruct l. }
    intros o' cb id [<- | I] CB U NC.
    + subst st. rewrite CB in ST. injection ST as <- <-.
      destruct (invoke_error_reaches_sinks cb _ undefined c0 id NC U) as (res & E).
      exists res. eapply emitted_then; [| exact C1].
      eapply emitted_after; [| exact E]. apply continues_same_events. by destruct q.
    + destruct (S1 o' cb id I CB U NC) as (res & E). exists res.
      by eapply emitted_after.
Qed.

Lemma flush_debug_tail_spec (b : bool) code message agg c :
  let c' :=
    if b then
      match agg with
      | [] => c
      | [e] => emit_error e c
      | _ =>
        emit_error
          (JsError AggregateError
             (replace_first_by same_letter (str "command") (fun m => m ++ str "s")
                (replace_first (str "It") (str "They") message))
             (Some code) None None None agg) c
      end
    else c in
  core c' = core c /\ continues c c'.
Proof.
  destruct b; [| split; [done | apply continues_refl]].
  destruct agg as [|e [|e' agg]]; (split; [done |]);
    [apply continues_refl | |]; eapply adds_continues, (adds_log (fun _ => True)); done.
Qed.

(** [flush_and_error] over both queues. *)
Lemma flush_and_error_both message code origin c :
  let c' := flush_and_error message code origin None c in
  command_queue c' = [] /\ offline_queue c' = []
  /\ bare c' = bare c
  /\ continues c c'
  /\ forall o cb id,
     In o (command_queue c ++ offline_queue c) ->
     callback o = Some cb -> In id (user_sinks cb) ->
     code <> str "NR_CLOSED" ->
     exists e res, err_code e = Some code /\ emitted c c' (Call id (Some e) res).
Proof.
  unfold flush_and_error. cbn [default from_option id flush_queues get_queue fst].
  set (m1 := message ++ processed_suffix).
  set (m2 := replace_first processed_suffix [] m1).
  pose proof (flush_commands_spec Command_queue (command_queue c) m1 code origin c [])
    as (E1 & C1 & Q1 & S1).
  destruct (flush_commands Command_queue (command_queue c) m1 code origin (c, []))
    as [c1 agg1]. cbn [fst get_queue] in E1, C1, Q1, S1 |- *.
  pose proof (flush_commands_spec Offline_queue (offline_queue c1) m2 code origin c1 agg1)
    as (E2 & C2 & Q2 & S2).
  destruct (flush_commands Offline_queue (offline_queue c1) m2 code origin (c1, agg1))
    as [c2 agg2]. cbn [fst get_queue] in E2, C2, Q2, S2 |- *.
  pose proof (flush_debug_tail_spec (debug_mode (options c2)) code m2 agg2 c2) as (E3 & C3).
  cbv zeta in E3, C3. cbv beta iota zeta.
  set (c3 := if debug_mode (options c2) then _ else c2) in *.
  assert (O1 : offline_queue c1 = offline_queue c)
    by exact (f_equal offline_queue E1).
  assert (K2 : command_queue c2 = command_queue c1)
    by exact (f_equal command_queue E2).
  split; [| split; [| split; [| split]]].
  - rewrite (f_equal command_queue E3 : command_queue c3 = command_queue c2), K2, Q1.
    by destruct (command_queue c).
  - rewrite (f_equal offline_queue E3 : offline_queue c3 = offline_queue c2), Q2.
    by destruct (offline_queue c1).
  - exact (eq_trans (f_equal bare E3) (eq_trans (f_equal bare E2) (f_equal bare E1))).
  - eapply continues_trans; [exact C1 |]. by eapply continues_trans.
  - intros o cb id I CB U NC.
    assert (has_code "NR_CLOSED" (abort_error m1 code origin o) = false
            /\ has_code "NR_CLOSED" (abort_error m2 code origin o) = false) as [H1 H2].
    { unfold has_code, abort_error. cbn [err_code].
      split; apply bool_decide_eq_false; congruence. }
    apply in_app_or in I as [I | I].
    + destruct (S1 o cb id I CB U H1) as (res & E).
      exists (abort_error m1 code origin o), res. split; [reflexivity |].
      eapply emitted_then; [exact E |]. by eapply continues_trans.
    + rewrite <- O1 in I. destruct (S2 o cb id I CB U H2) as (res & E).
      exists (abort_error m2 code origin o), res. split; [reflexivity |].
      eapply emitted_after; [exact C1 |]. by eapply emitted_then.
Qed.

(** [flush_and_error] over the in-flight queue alone. *)
Lemma flush_and_error_in_flight message code origin c :
  let c' := flush_and_error message code origin (Some [Command_queue]) c in
  command_queue c' = [] /\ erase Command_queue c' = erase Command_queue c
  /\ continues c c'.
Proof.
  unfold flush_and_error. cbn [default from_option id flush_queues get_queue fst].
  set (m1 := message ++ processed_suffix).
  pose proof (flush_commands_spec Command_queue (command_queue c) m1 code origin c [])
    as (E1 & C1 & Q1 & _).
  destruct (flush_commands Command_queue (command_queue c) m1 code origin (c, []))
    as [c1 agg1]. cbn [fst get_queue] in E1, C1, Q1 |- *.
  pose proof (flush_debug_tail_spec (debug_mode (options c1)) code m1 agg1 c1) as (E3 & C3).
  cbv zeta in E3, C3. cbv beta iota zeta.
  set (c3 := if debug_mode (options c1) then _ else c1) in *.
  split; [| split].
  - rewrite (f_equal command_queue E3 : command_queue c3 = command_queue c1), Q1.
    by destruct (command_queue c).
  - exact (eq_trans (f_equal erase_command_queue E3) E1).
  - by eapply continues_trans.
Qed.

(** What [mark_disconnected] leaves alone. *)
Lemma mark_disconnected_keeps c :
  let c0 := mark_disconnected c in
  command_queue c0 = command_queue c /\ offline_queue c0 = offline_queue c
  /\ closing c0 = closing c /\ options c0 = options c
  /\ retry_timer c0 = retry_timer c
  /\ max_attempts c0 = max_attempts c /\ attempts c0 = attempts c
  /\ connect_timeout c0 = connect_timeout c
  /\ retry_totaltime c0 = retry_totaltime c
  /\ retry_delay c0 = retry_delay c /\ retry_max_delay c0 = retry_max_delay c
  /\ subscription_set c0 = subscription_set c
  /\ pub_sub_mode c0 = 0.
Proof.
  destruct c as [? ? ? ? ee]. unfold mark_disconnected. by destruct ee.
Qed.





(** ** Sending a command *)

Lemma wview_stream_write d c : wview (stream_write d c) = wview c.
Proof. reflexivity. Qed.

Lemma wview_write d c : wview (write d c) = wview c.
Proof. unfold write. by destruct (pipeline c). Qed.

Lemma wview_write_arg w c : wview (write_arg w c) = wview c.
Proof. destruct w; unfold write_arg; by rewrite ?wview_write. Qed.

Lemma wview_write_args l c : wview (foldl (fun c w => write_arg w c) c l) = wview c.
Proof.
  revert c. induction l as [|w l IH]; intros c; [done |].
  cbn [foldl]. by rewrite IH, wview_write_arg.
Qed.

Lemma wview_warnings l c : wview (foldl (fun c w => warn w c) c l) = wview c.
Proof.
  revert c. induction l as [|w l IH]; intros c; [done |].
  cbn [foldl]. by rewrite IH.
Qed.

(** Writing a command touches the writer's fields, and [fire_strings] when
    an argument is binary. *)
Lemma wview_write_command big name l c :
  wview (write_command big name l c)
  = wview (if big then set_fire_strings false c else c).
Proof.
  unfold write_command. destruct big.
  - by rewrite wview_write_args, wview_write.
  - by rewrite wview_write.
Qed.

Lemma hview_run_hook h c : hview (run_hook h c) = hview c.
Proof. by destruct h. Qed.

Lemma hview_reply_in_order cb err res c :
  hview (reply_in_order cb err res (Some Command_queue) c) = hview c.
Proof. unfold reply_in_order. cbn. by destruct (last (command_queue c)). Qed.

Lemma hview_enqueue_or_skip o c : hview (enqueue_or_skip o c) = hview c.
Proof.
  unfold enqueue_or_skip.
  destruct (reply c); [done | ..]; destruct (callback o);
    try (apply (view_eq hview hview _ _ (hview_reply_in_order _ _ _ _));
         intros ?; reflexivity); reflexivity.
Qed.

(** [fire_strings] after a command has been written. *)
Lemma write_now_fire_strings o c :
  fire_strings (write_now o c)
  = if big_data (copy_args (command o) (args o)) then false else fire_strings c.
Proof.
  unfold write_now.
  set (c1 := foldl _ c _). set (c2 := write_command _ _ _ c1).
  set (c3 := from_option _ c2 _).
  transitivity (fire_strings c3); [by_view (hview_enqueue_or_skip (flagged o) c3) fire_strings |].
  transitivity (fire_strings c2).
  { subst c3. destruct (call_on_write o) as [h|]; [| done].
    by_view (hview_run_hook h c2) fire_strings. }
  subst c2.
  pose proof (wview_write_command (big_data (copy_args (command o) (args o)))
                (renamed (options c1) (command o))
                (prefixed (options c1) (command o) (args_copy (copy_args (command o) (args o))))
                c1) as W.
  transitivity (fire_strings (if big_data (copy_args (command o) (args o))
                              then set_fire_strings false c1 else c1));
    [by_view W fire_strings |].
  destruct (big_data _); [done |].
  subst c1. by_view (wview_warnings (warnings (copy_args (command o) (args o))) c) fire_strings.
Qed.

Lemma with_promise_ready o c :
  ready (with_promise o c).2 = ready c
  /\ stream_writable (with_promise o c).2 = stream_writable c
  /\ fire_strings (with_promise o c).2 = fire_strings c
  /\ command (with_promise o c).1.1 = command o
  /\ args (with_promise o c).1.1 = args o
  /\ call_on_write (with_promise o c).1.1 = call_on_write o
  /\ callback (with_promise o c).1.1 = Some (sink o c).
Proof.
  unfold with_promise, sink. destruct (callback o) eqn:E; cbn; by rewrite ?E.
Qed.

(** On a ready client with a writable stream the command is written at once. *)
Lemma internal_send_command_ready o c :
  ready c = true -> stream_writable c = true ->
  (internal_send_command o c).1
  = write_now (with_promise o c).1.1 (with_promise o c).2.
Proof.
  intros R W. unfold internal_send_command.
  destruct (with_promise_ready o c) as (R' & W' & _).
  destruct (with_promise o c) as [[o' d] c']. cbn [fst snd] in *.
  by rewrite R', W', R, W.
Qed.

Lemma copy_args_lookup name l i a :
  l !! i = Some a ->
  args_copy (copy_args name l) !! i = Some (copy_arg name a).1.1.1
  /\ ((copy_arg name a).1.1.2 = true -> big_data (copy_args name l) = true).
Proof.
  revert i. induction l as [|x l IH]; intros i H; [done |].
  cbn [copy_args]. destruct (copy_arg name x) as [[[w big] buf] warning] eqn:E.
  destruct i as [|i]; cbn in H.
  - injection H as ->. rewrite E. cbn. split; [done |]. by intros ->.
  - destruct (IH i H) as [IH1 IH2]. cbn. split; [done |].
    intros B. rewrite (IH2 B). apply orb_true_r.
Qed.

(** C7, as stated, fails on text outside ASCII: this argument is 30002
    bytes long, more than 30000, and is sent as text; the test reads the
    length in code units, 15001. *)
Lemma long_in_bytes_is_sent_as_text :
  byteLength accented_text = 30002
  /\ js_length accented_text = 15001
  /\ copy_arg (str "set") (VStr accented_text) = (Text accented_text, false, false, None).
Proof. repeat apply conj; vm_compute; reflexivity. Qed.

(** C7 (amended).  A text argument of a command sent while the client is
    ready and the stream writable: when its length in UTF-16 code units, as
    [String.length] gives it, is above 30000, its copy is the buffer of its
    UTF-8 bytes, [big_data] is set and with it [fire_strings] is cleared;
    at 30000 or below its copy is the text itself. *)
Theorem text_argument_promotion o c i s :
  ready c = true ->
  stream_writable c = true ->
  args o !! i = Some (VStr s) ->
  let copied := copy_args (command o) (args o) in
  let c' := (internal_send_command o c).1 in
  (30000 < js_length s ->
   args_copy copied !! i = Some (Binary (utf8_encode s))
   /\ big_data copied = true /\ fire_strings c' = false)
  /\ (js_length s <= 30000 -> args_copy copied !! i = Some (Text s)).
Proof.
  intros R W A copied c'.
  destruct (copy_args_lookup (command o) _ _ _ A) as [L B].
  fold copied in L, B. unfold copy_arg in L, B.
  destruct (Z.ltb_spec 30000 (js_length s)) as [G | G]; cbn in L, B.
  - split; [| lia]. intros _. split; [exact L |]. split; [by apply B |].
    subst c'. rewrite (internal_send_command_ready o c R W), write_now_fire_strings.
    destruct (with_promise_ready o c) as (_ & _ & _ & -> & -> & _).
    fold copied. by rewrite B.
  - split; [lia | by intros _].
Qed.

Lemma text_argument_promotion_witness :
  args_copy (copy_args (str "set") [text "k"; VStr (text_of 30001 97)]) !! 1%nat
  = Some (Binary (utf8_encode (text_of 30001 97)))
  /\ args_copy (copy_args (str "set") [text "k"; VStr (text_of 30000 97)]) !! 1%nat
     = Some (Text (text_of 30000 97)).
Proof.
  split.
  - refine (proj1 (proj1 (text_argument_promotion
      (new_Command (str "set") [text "k"; VStr (text_of 30001 97)] None None)
      (set_ready true (RedisClient_new default_options)) 1 (text_of 30001 97)
      eq_refl eq_refl eq_refl) _)).
    vm_compute. reflexivity.
  - refine (proj2 (text_argument_promotion
      (new_Command (str "set") [text "k"; VStr (text_of 30000 97)] None None)
      (set_ready true (RedisClient_new default_options)) 1 (text_of 30000 97)
      eq_refl eq_refl eq_refl) _).
    vm_compute. discriminate.
Defined.

(** *** [CLIENT REPLY] *)

Lemma replace_last_snoc f q t : replace_last f (q ++ [t]) = q ++ [f t].
Proof.
  induction q as [|x q IH]; [done |].
  cbn [app replace_last]. rewrite IH. by destruct (q ++ [t]) eqn:E; [destruct q |].
Qed.

Lemma callback_flagged o : callback (flagged o) = callback o.
Proof. unfold flagged. by destruct (sets_buffer_args _). Qed.

Lemma command_flagged o : command (flagged o) = command o.
Proof. unfold flagged. by destruct (sets_buffer_args _). Qed.

Lemma call_on_write_flagged o : call_on_write (flagged o) = call_on_write o.
Proof. unfold flagged. by destruct (sets_buffer_args _). Qed.

(** What a write hook leaves alone, and what it sets. *)
Lemma run_hook_keeps h c :
  command_queue (run_hook h c) = command_queue c
  /\ offline_queue (run_hook h c) = offline_queue c
  /\ ticks (run_hook h c) = ticks c
  /\ reply (run_hook h c) = match h with ClientReplyHook m => m | _ => reply c end
  /\ pub_sub_mode (run_hook h c)
     = match h with
       | PubSubHook =>
         if pub_sub_mode c =? 0 then Z.of_nat (length (command_queue c)) + 1
         else pub_sub_mode c
       | _ => pub_sub_mode c
       end.
Proof. by destruct h. Qed.

(** The state in which [write_now] decides on queueing. *)
Lemma write_now_decides o c :
  exists c1,
    write_now o c = enqueue_or_skip (flagged o) c1
    /\ command_queue c1 = command_queue c
    /\ offline_queue c1 = offline_queue c
    /\ ticks c1 = ticks c
    /\ reply c1 = reply_after_hook o c
    /\ pub_sub_mode c1
       = match call_on_write o with
         | Some PubSubHook =>
           if pub_sub_mode c =? 0 then Z.of_nat (length (command_queue c)) + 1
           else pub_sub_mode c
         | _ => pub_sub_mode c
         end.
Proof.
  unfold write_now, reply_after_hook.
  set (c1 := foldl _ c _). set (c2 := write_command _ _ _ c1).
  assert (W : wview c2 = wview (if big_data (copy_args (command o) (args o))
                                then set_fire_strings false c else c)).
  { subst c2. rewrite wview_write_command.
    pose proof (wview_warnings (warnings (copy_args (command o) (args o))) c) as W1.
    fold c1 in W1. destruct (big_data _); [| exact W1].
    apply (view_eq wview (fun x => wview (set_fire_strings false x)) _ _ W1).
    intros ?. reflexivity. }
  assert (K : command_queue c2 = command_queue c /\ offline_queue c2 = offline_queue c
              /\ ticks c2 = ticks c /\ reply c2 = reply c
              /\ pub_sub_mode c2 = pub_sub_mode c).
  { destruct (big_data _); repeat split;
      first [by_view W command_queue | by_view W offline_queue | by_view W ticks
             | by_view W reply | by_view W pub_sub_mode]. }
  destruct K as (K1 & K2 & K3 & K4 & K5).
  exists (from_option (fun h => run_hook h c2) c2 (call_on_write o)).
  split; [reflexivity |].
  destruct (call_on_write o) as [h|]; cbn [from_option].
  - destruct (run_hook_keeps h c2) as (H1 & H2 & H3 & H4 & H5).
    rewrite H1, H2, H3, H4, H5, K1, K2, K3, K4, K5. by destruct h.
  - done.
Qed.

(** A command that is not queued: the reply mode moves on, and the sink is
    put behind the last command in flight, or on the next tick when none
    is. *)
Lemma enqueue_or_skip_skipped o cb c :
  reply c <> ON -> callback o = Some cb ->
  let c' := enqueue_or_skip o c in
  reply c' = after_skipped (reply c)
  /\ (command_queue c = [] ->
      command_queue c' = [] /\ ticks c' = ticks c ++ [(Some cb, None, undefined)])
  /\ (forall q t, command_queue c = q ++ [t] ->
      command_queue c'
      = q ++ [with_callback (Some (InOrderCb (callback t) (Some cb) undefined)) t]
      /\ ticks c' = ticks c).
Proof.
  intros M CB. unfold enqueue_or_skip. rewrite CB.
  set (c1 := reply_in_order (Some cb) None undefined (Some Command_queue) c).
  assert (R : reply c1 = reply c /\
    (command_queue c = [] ->
      command_queue c1 = [] /\ ticks c1 = ticks c ++ [(Some cb, None, undefined)])
    /\ (forall q t, command_queue c = q ++ [t] ->
        command_queue c1
        = q ++ [with_callback (Some (InOrderCb (callback t) (Some cb) undefined)) t]
        /\ ticks c1 = ticks c)).
  { subst c1. unfold reply_in_order. cbn [get_queue set_queue]. split; [| split].
    - by destruct (last (command_queue c)).
    - intros E. rewrite E. cbn. by rewrite E.
    - intros q t E. by rewrite E, last_snoc, replace_last_snoc. }
  destruct R as (R1 & R2 & R3). clearbody c1.
  destruct (reply c) eqn:E; [done | ..]; cbn; (split; [done |]); split; assumption.
Qed.

(** C6, as stated, fails for the command that switches replies back on: it
    is written while the mode is [OFF], and it is queued, because its write
    hook has set the mode to [ON] before the mode is read. *)
Lemma client_reply_on_is_queued_while_off :
  observe (fun c => (reply c, command <$> command_queue c)) reply_off default_options
  = Some (OFF, [])
  /\ observe (fun c => (reply c, command <$> command_queue c))
       (reply_off ++ [ICall (str "client") [text "reply"; text "on"] (Some 2%nat)])
       default_options
     = Some (ON, [str "client"]).
Proof. split; vm_compute; reflexivity. Qed.

(** C6 (amended).  A command sent while the client is ready and the stream
    writable, when the reply mode read after the command's write hook is
    [OFF], [SKIP] or [SKIP_ONE_MORE]: the command is not put on the
    in-flight queue; its sink is put behind the last command in flight, to
    be run with [(null, undefined)] once that command has completed without
    an error, or on the next tick with [(null, undefined)] when no command
    is in flight; [SKIP] becomes [SKIP_ONE_MORE], and [SKIP_ONE_MORE]
    becomes [ON]. *)
Theorem unreplied_command_completion o c :
  ready c = true ->
  stream_writable c = true ->
  reply_after_hook o c <> ON ->
  let cb := sink o c in
  let c' := (internal_send_command o c).1 in
  reply c' = after_skipped (reply_after_hook o c)
  /\ (command_queue c = [] ->
      command_queue c' = [] /\ ticks c' = ticks c ++ [(Some cb, None, undefined)])
  /\ (forall q t, command_queue c = q ++ [t] ->
      command_queue c'
      = q ++ [with_callback (Some (InOrderCb (callback t) (Some cb) undefined)) t]
      /\ ticks c' = ticks c)
  /\ (forall fn res c0,
      invoke (InOrderCb fn (Some cb) undefined) None res c0
      = invoke cb None undefined (callback_or_emit fn None res c0))
  /\ (forall rest c0, ticks c0 = (Some cb, None, undefined) :: rest ->
      run_tick c0 = invoke cb None undefined (set_ticks rest c0)).
Proof.
  intros R W M cb c'. subst c'. rewrite (internal_send_command_ready o c R W).
  destruct (with_promise_ready o c) as (_ & _ & _ & _ & _ & H & CB).
  assert (Q : command_queue (with_promise o c).2 = command_queue c
              /\ ticks (with_promise o c).2 = ticks c
              /\ reply (with_promise o c).2 = reply c).
  { unfold with_promise. by destruct (callback o). }
  destruct Q as (Q1 & Q2 & Q3).
  destruct (with_promise o c) as [[o' d] c0]. cbn [fst snd] in *.
  destruct (write_now_decides o' c0) as (c1 & -> & K1 & _ & K3 & K4 & _).
  assert (M1 : reply c1 = reply_after_hook o c).
  { rewrite K4. unfold reply_after_hook. by rewrite H, Q3. }
  rewrite <- (callback_flagged o') in CB.
  pose proof (enqueue_or_skip_skipped (flagged o') cb c1) as S.
  rewrite M1 in S. specialize (S M CB). cbv zeta in S.
  destruct S as (S1 & S2 & S3). rewrite K1, K3, Q1, Q2 in *.
  split; [exact S1 |]. split; [exact S2 |]. split; [exact S3 |].
  split; [| intros rest c2 T; unfold run_tick; by rewrite T].
  intros fn res c2. by destruct fn.
Qed.

Lemma unreplied_command_completion_witness :
  reply (internal_send_command
           (new_Command (str "set") [text "a"; text "1"] (Some (UserCb 2)) None)
           (set_reply SKIP_ONE_MORE (set_ready true (RedisClient_new default_options)))).1
  = ON.
Proof.
  refine (proj1 (unreplied_command_completion
                   (new_Command (str "set") [text "a"; text "1"] (Some (UserCb 2)) None)
                   (set_reply SKIP_ONE_MORE
                      (set_ready true (RedisClient_new default_options)))
                   eq_refl eq_refl _)).
  vm_compute. discriminate.
Defined.

(** ** The pub/sub mode and the in-flight queue *)

Lemma quiet_not_in_flight l :
  Forall quiet l <-> existsb (fun o => SUBSCRIBE_COMMANDS (command o)) l = false.
Proof.
  induction l as [|o l IH]; [done |]. cbn [existsb].
  rewrite Forall_cons, orb_false_iff, IH. reflexivity.
Qed.

Lemma consistent_ext c c' :
  pub_sub_mode c' = pub_sub_mode c ->
  command_queue c' = command_queue c ->
  offline_queue c' = offline_queue c ->
  pub_sub_consistent c -> pub_sub_consistent c'.
Proof. unfold pub_sub_consistent. by intros -> -> ->. Qed.

(** Any view that keeps the mode and the two queues carries consistency. *)
Lemma consistent_view (v : RedisClient -> RedisClient) c c' :
  v c' = v c ->
  (forall x, pub_sub_mode (v x) = pub_sub_mode x) ->
  (forall x, command_queue (v x) = command_queue x) ->
  (forall x, offline_queue (v x) = offline_queue x) ->
  pub_sub_consistent c -> pub_sub_consistent c'.
Proof.
  intros H M Q O. apply consistent_ext.
  - by rewrite <- (M c'), <- (M c), H.
  - by rewrite <- (Q c'), <- (Q c), H.
  - by rewrite <- (O c'), <- (O c), H.
Qed.

Ltac consistent_by H :=
  apply (consistent_view _ _ _ H); intros ?; reflexivity.

Lemma consistent_invoke cb err res c :
  pub_sub_consistent c -> pub_sub_consistent (invoke cb err res c).
Proof. consistent_by (invoke_core cb err res c). Qed.

Lemma consistent_callback_or_emit cb err res c :
  pub_sub_consistent c -> pub_sub_consistent (callback_or_emit cb err res c).
Proof. consistent_by (callback_or_emit_core cb err res c). Qed.

Lemma Forall_replace_last (P : Command -> Prop) f l :
  (forall o, P o -> P (f o)) -> Forall P l -> Forall P (replace_last f l).
Proof.
  intros H. induction l as [|o l IH]; [done |].
  intros F. apply Forall_cons in F as [F1 F2].
  destruct l as [|o' l]; cbn [replace_last]; [by repeat constructor; auto |].
  constructor; [done | by apply IH].
Qed.

Lemma consistent_reply_in_order cb err res q c :
  pub_sub_consistent c -> pub_sub_consistent (reply_in_order cb err res q c).
Proof.
  intros (M & Z & C & O). unfold reply_in_order.
  set (q' := match q with Some q0 => q0 | None => _ end).
  destruct (last (get_queue q' c)) as [t|]; [| done].
  destruct q'; cbn [get_queue set_queue]; (split; [exact M |]); cbn.
  - split; [intros E; apply Forall_replace_last; [done | auto] |].
    split; [by apply Forall_replace_last | done].
  - split; [exact Z |]. split; [done | by apply Forall_replace_last].
Qed.

Lemma consistent_handle_offline_command o c :
  pub_sub_consistent c -> hooked o ->
  pub_sub_consistent (handle_offline_command o c).
Proof.
  intros I H. unfold handle_offline_command.
  destruct (closing c || negb (enable_offline_queue c)).
  - by apply consistent_reply_in_order.
  - destruct I as (M & Z & C & O). split; [exact M |]. split; [exact Z |].
    split; [exact C |]. cbn. apply Forall_app. split; [done | by repeat constructor].
Qed.

Lemma hooked_flagged o : hooked o -> hooked (flagged o).
Proof. unfold hooked. by rewrite command_flagged, call_on_write_flagged. Qed.

Lemma consistent_enqueue_or_skip o c :
  pub_sub_consistent c -> hooked o -> (pub_sub_mode c = 0 -> quiet o) ->
  pub_sub_consistent (enqueue_or_skip o c).
Proof.
  intros I H Q. unfold enqueue_or_skip.
  assert (X : pub_sub_consistent
                match callback o with
                | Some cb => reply_in_order (Some cb) None undefined (Some Command_queue) c
                | None => c
                end).
  { destruct (callback o); [by apply consistent_reply_in_order | done]. }
  destruct (reply c); [| exact X | revert X; by apply consistent_ext ..].
  destruct I as (M & Z & C & O). split; [exact M |]. cbn.
  split; [| split; [| done]]; [intros E |]; apply Forall_app; split; auto;
    by repeat constructor; auto.
Qed.

Lemma consistent_write_now o c :
  pub_sub_consistent c -> hooked o -> pub_sub_consistent (write_now o c).
Proof.
  intros (M & Z & C & O) H.
  destruct (write_now_decides o c) as (c1 & -> & K1 & K2 & _ & _ & K5).
  apply consistent_enqueue_or_skip; [| by apply hooked_flagged |].
  - unfold pub_sub_consistent. rewrite K1, K2, K5. split; [| split; [| done]].
    + destruct (call_on_write o) as [[]|]; try done.
      destruct (Z.eqb_spec (pub_sub_mode c) 0); lia.
    + destruct (call_on_write o) as [[]|]; try done.
      destruct (Z.eqb_spec (pub_sub_mode c) 0); [lia | done].
  - rewrite K5. unfold quiet. rewrite command_flagged. intros E.
    destruct (SUBSCRIBE_COMMANDS (command o)) eqn:S; [| done].
    rewrite (H S) in E. destruct (Z.eqb_spec (pub_sub_mode c) 0); lia.
Qed.

Lemma consistent_internal_send_command o c :
  pub_sub_consistent c -> hooked o ->
  pub_sub_consistent (internal_send_command o c).1.
Proof.
  intros I H. unfold internal_send_command.
  destruct (with_promise_ready o c) as (_ & _ & _ & N & _ & W & _).
  assert (I' : pub_sub_consistent (with_promise o c).2).
  { unfold with_promise. destruct (callback o); [done |]. revert I.
    by apply consistent_ext. }
  assert (H' : hooked (with_promise o c).1.1) by (unfold hooked; by rewrite N, W).
  destruct (with_promise o c) as [[o' d] c']. cbn [fst snd] in *.
  destruct (negb (ready c') || negb (stream_writable c')); cbn [fst].
  - by apply consistent_handle_offline_command.
  - by apply consistent_write_now.
Qed.

Lemma hooked_new_Command name arr cb h :
  (SUBSCRIBE_COMMANDS name = true -> h = Some PubSubHook) ->
  hooked (new_Command name arr cb h).
Proof. done. Qed.

Lemma consistent_method name arr cb c r :
  method name arr cb c = Some r ->
  pub_sub_consistent c -> pub_sub_consistent r.1.
Proof.
  unfold method. intros H I.
  destruct (outside_model name); [done |].
  destruct (SUBSCRIBE_COMMANDS name) eqn:S.
  { injection H as <-. by apply consistent_internal_send_command. }
  destruct (jseq name (str "client")) eqn:N1.
  { apply bool_decide_eq_true in N1. subst name.
    unfold client in H. apply bind_Some in H as (h & _ & [= <-]).
    by apply consistent_internal_send_command. }
  destruct (jseq name (str "quit")) eqn:N2.
  { injection H as <-. unfold quit.
    pose proof (consistent_internal_send_command
                  (new_Command (str "quit") [] (Some (QuitCb cb)) None) c I
                  ltac:(done)) as X.
    destruct (internal_send_command _ c) as [c' b]. cbn [fst] in *.
    revert X. by apply consistent_ext. }
  destruct (jseq name (str "monitor")) eqn:N3.
  { injection H as <-. by apply consistent_internal_send_command. }
  destruct (jseq name (str "select")) eqn:N4.
  { injection H as <-. by apply consistent_internal_send_command. }
  injection H as <-. apply consistent_internal_send_command; [done |].
  apply hooked_new_Command. congruence.
Qed.

Lemma consistent_normal_reply reply c c' :
  normal_reply reply c = Some c' ->
  pub_sub_consistent c -> pub_sub_consistent c'.
Proof.
  intros H (M & Z & C & O). unfold normal_reply in H.
  destruct (command_queue c) as [|o rest] eqn:Q; [done |].
  apply Forall_cons in C as [_ C].
  assert (I : pub_sub_consistent (set_command_queue rest c)).
  { split; [exact M |]. split; [| done]. cbn. intros E.
    by apply Z, Forall_cons in E as [_ E]. }
  destruct (callback o) as [cb|]; cbn in H.
  - apply bind_Some in H as (r & _ & [= <-]). by apply consistent_invoke.
  - by injection H as <-.
Qed.

Lemma next_subscribe_spec i l :
  0 < i -> 0 <= next_subscribe i l /\ (next_subscribe i l = 0 -> Forall quiet l).
Proof.
  revert i. induction l as [|o l IH]; intros i P; [done |].
  cbn [next_subscribe]. destruct (SUBSCRIBE_COMMANDS (command o)) eqn:S.
  - split; lia.
  - destruct (IH (i + 1)) as [IH1 IH2]; [lia |]. split; [done |].
    intros E. constructor; [done | auto].
Qed.

Lemma consistent_subscribe_unsubscribe reply type c c' :
  subscribe_unsubscribe reply type c = Some c' ->
  pub_sub_mode c = 1 ->
  pub_sub_consistent c -> pub_sub_consistent c'.
Proof.
  intros H P (M & Z & C & O). unfold subscribe_unsubscribe in H.
  destruct (command_queue c) as [|o rest] eqn:Q; [done |].
  apply bind_Some in H as (channel & _ & H). cbv zeta in H.
  set (count := to_number (js_nth reply 2)) in H.
  set (c1 := if negb (is_null channel) then acknowledge type channel count c else c) in H.
  assert (K : pub_sub_mode c1 = pub_sub_mode c /\ command_queue c1 = command_queue c
              /\ offline_queue c1 = offline_queue c).
  { subst c1. destruct (negb _); [| done]. unfold acknowledge.
    by destruct (jseq type (str "subscribe") || jseq type (str "psubscribe")). }
  destruct K as (K1 & K2 & K3). clearbody c1.
  apply Forall_cons in C as [Co C].
  destruct (completes o (sub_commands_left c1) count channel).
  - injection H as <-.
    assert (I : pub_sub_consistent
                  (set_command_queue rest
                     (if bool_decide (count = Num 0)
                      then set_pub_sub_mode (next_subscribe 1 rest) c1 else c1))).
    { destruct (next_subscribe_spec 1 rest) as [N1 N2]; [lia |].
      destruct (bool_decide (count = Num 0)); unfold pub_sub_consistent; cbn.
      - rewrite K3. done.
      - rewrite K1, K3, P. repeat split; [lia | lia | done..]. }
    destruct (callback o) as [cb|].
    + eapply consistent_ext; cycle 3;
        [apply consistent_invoke; exact I | reflexivity..].
    + revert I. by apply consistent_ext.
  - assert (I : pub_sub_consistent c1).
    { unfold pub_sub_consistent. rewrite K1, K2, K3, Q, P.
      split; [lia |]. split; [lia |]. split; [by constructor | done]. }
    destruct (negb (bool_decide (sub_commands_left c1 = Num 0)));
      injection H as <-; revert I; by apply consistent_ext.
Qed.

Lemma consistent_return_pub_sub l c c' :
  return_pub_sub l c = Some c' ->
  pub_sub_mode c = 1 ->
  pub_sub_consistent c -> pub_sub_consistent c'.
Proof.
  unfold return_pub_sub. intros H P I.
  apply bind_Some in H as (type & _ & H).
  destruct (jseq type (str "message")).
  { destruct (negb (return_buffers (options c)) || message_buffers c).
    - apply bind_Some in H as (? & _ & H). apply bind_Some in H as (? & _ & [= <-]).
      revert I. by apply consistent_ext.
    - injection H as <-. revert I. by apply consistent_ext. }
  destruct (jseq type (str "pmessage")).
  { destruct (negb (return_buffers (options c)) || message_buffers c).
    - apply bind_Some in H as (? & _ & H). apply bind_Some in H as (? & _ & H).
      apply bind_Some in H as (? & _ & [= <-]). revert I. by apply consistent_ext.
    - injection H as <-. revert I. by apply consistent_ext. }
  by eapply consistent_subscribe_unsubscribe.
Qed.

Lemma consistent_return_reply reply c c' :
  return_reply reply c = Some c' ->
  pub_sub_consistent c -> pub_sub_consistent c'.
Proof.
  unfold return_reply. intros H I.
  destruct (monitor_line reply c).
  { injection H as <-. revert I. by apply consistent_ext. }
  destruct (Z.eqb_spec (pub_sub_mode c) 0) as [E0 | N0].
  { by eapply consistent_normal_reply. }
  destruct (Z.eqb_spec (pub_sub_mode c) 1) as [E1 | N1]; cbn [negb] in H.
  - destruct (negb (is_array reply) || (length (array_items reply) <=? 2)%nat).
    + by eapply consistent_normal_reply.
    + by eapply consistent_return_pub_sub.
  - eapply consistent_normal_reply; [exact H |].
    destruct I as (M & Z & C & O). split; [cbn; lia |]. split; [cbn; lia | done].
Qed.

Lemma consistent_return_error err c c' :
  return_error err c = Some c' ->
  pub_sub_consistent c -> pub_sub_consistent c'.
Proof.
  unfold return_error. intros H (M & Z & C & O).
  destruct (command_queue c) as [|o rest] eqn:Q; [done |].
  injection H as <-. apply consistent_callback_or_emit.
  apply Forall_cons in C as [_ C].
  destruct (Z.ltb_spec 1 (pub_sub_mode c)); unfold pub_sub_consistent; cbn.
  - split; [lia |]. split; [lia | done].
  - split; [lia |]. split; [| done]. intros E. by apply Z, Forall_cons in E as [_ E].
Qed.

(** After a flush of both queues nothing is queued. *)
Lemma consistent_flush_both message code origin c :
  pub_sub_consistent c ->
  pub_sub_consistent (flush_and_error message code origin None c).
Proof.
  intros (M & _).
  destruct (flush_and_error_both message code origin c) as (Q1 & Q2 & B & _).
  unfold pub_sub_consistent. rewrite Q1, Q2.
  assert (pub_sub_mode (flush_and_error message code origin None c) = pub_sub_mode c)
    as -> by by_view B pub_sub_mode.
  done.
Qed.

Lemma consistent_flush_in_flight message code origin c :
  pub_sub_consistent c ->
  pub_sub_consistent (flush_and_error message code origin (Some [Command_queue]) c).
Proof.
  intros (M & _ & _ & O).
  destruct (flush_and_error_in_flight message code origin c) as (Q1 & B & _).
  unfold pub_sub_consistent. rewrite Q1.
  assert (pub_sub_mode (flush_and_error message code origin (Some [Command_queue]) c)
          = pub_sub_mode c) as -> by by_view B pub_sub_mode.
  assert (offline_queue (flush_and_error message code origin (Some [Command_queue]) c)
          = offline_queue c) as -> by by_view B offline_queue.
  done.
Qed.

Lemma consistent_end flush c : pub_sub_consistent c -> pub_sub_consistent (end_ flush c).
Proof.
  intros I. unfold end_. destruct flush.
  - eapply consistent_ext; cycle 3;
      [apply (consistent_flush_both [] (str "NR_CLOSED") None (set_closing true c));
       revert I; by apply consistent_ext | reflexivity..].
  - revert I. by apply consistent_ext.
Qed.

Lemma consistent_nothing_in_flight c :
  pub_sub_mode c = 0 -> command_queue c = [] -> Forall hooked (offline_queue c) ->
  pub_sub_consistent c.
Proof. intros M Q O. unfold pub_sub_consistent. rewrite M, Q. done. Qed.

Lemma gone_flush_both message code origin c c0 :
  pub_sub_mode c0 = 0 -> subscription_set c0 = subscription_set c ->
  gone c (flush_and_error message code origin None c0).
Proof.
  intros M S.
  destruct (flush_and_error_both message code origin c0) as (Q1 & Q2 & B & _).
  unfold gone. rewrite Q1, Q2, <- M, <- S.
  split; [by_view B pub_sub_mode |]. split; [done |]. split; [done |].
  by_view B subscription_set.
Qed.

Lemma gone_ext c c1 c2 :
  pub_sub_mode c2 = pub_sub_mode c1 -> command_queue c2 = command_queue c1 ->
  offline_queue c2 = offline_queue c1 -> subscription_set c2 = subscription_set c1 ->
  gone c c1 -> gone c c2.
Proof. unfold gone. by intros -> -> -> ->. Qed.

Lemma connection_gone_gone why error c :
  retry_timer c = None -> gone c (connection_gone why error c).
Proof.
  intros T. unfold connection_gone. rewrite T. cbv zeta.
  destruct (mark_disconnected_keeps c)
    as (Q1 & Q2 & _ & _ & _ & _ & _ & _ & _ & _ & _ & S & P).
  cbv zeta in Q1, Q2, S, P.
  generalize dependent (mark_disconnected c). intros c0 Q1 Q2 S P.
  destruct (closing c0); [by apply gone_flush_both |].
  assert (E : forall origin, gone c
            (end_ false
               (flush_and_error (str "Stream connection ended and command aborted.")
                  (str "NR_CLOSED") origin None c0))).
  { intros origin. eapply gone_ext; cycle 4;
      [by apply (gone_flush_both (str "Stream connection ended and command aborted.")
                   (str "NR_CLOSED") origin c c0) | reflexivity..]. }
  set (strategy := match retry_strategy (options c0) with Some f => _ | None => None end).
  assert (X : forall c1,
    pub_sub_mode c1 = 0 -> command_queue c1 = command_queue c ->
    offline_queue c1 = offline_queue c -> subscription_set c1 = subscription_set c ->
    gone c
      (if budget_exhausted c1 then
         end_ false
           (emit_error
              (JsError PlainError (broken_message c1) (Some (str "CONNECTION_BROKEN"))
                 None None error [])
              (flush_and_error (broken_message c1) (str "CONNECTION_BROKEN") error
                 None c1))
       else
         let c2 :=
           if retry_unfulfilled_commands (options c1) then
             set_command_queue []
               (set_offline_queue (unshift_apply (offline_queue c1) (command_queue c1)) c1)
           else
             match command_queue c1 with
             | [] => c1
             | _ :: _ =>
               flush_and_error (str "Redis connection lost and command aborted.")
                 (str "UNCERTAIN_STATE") error (Some [Command_queue]) c1
             end in
         let c3 := set_retry_delay (capped_retry_delay c2) c2 in
         set_retry_timer (Some (retry_delay c3, error)) c3)).
  { intros c1 M1 K1 K2 S1. destruct (budget_exhausted c1).
    - eapply gone_ext; cycle 4;
        [by apply (gone_flush_both (broken_message c1) (str "CONNECTION_BROKEN")
                     error c c1) | reflexivity..].
    - cbv zeta.
      set (c2 := if retry_unfulfilled_commands (options c1) then _ else _).
      apply (gone_ext c c2); [reflexivity.. |]. subst c2.
      destruct (retry_unfulfilled_commands (options c1)).
      + split; [exact M1 |]. split; [reflexivity |]. split; [| exact S1].
        intros H1 H2.
        change (Forall hooked (unshift_apply (offline_queue c1) (command_queue c1))).
        rewrite K1, K2. by apply Forall_unshift_apply.
      + destruct (command_queue c1) as [|o rest] eqn:Q.
        * unfold gone. rewrite M1, Q, K2, S1. done.
        * destruct (flush_and_error_in_flight
                      (str "Redis connection lost and command aborted.")
                      (str "UNCERTAIN_STATE") error c1) as (F1 & B & _).
          unfold gone. rewrite F1, <- M1, <- S1, <- K2.
          split; [by_view B pub_sub_mode |]. split; [done |].
          split; [| by_view B subscription_set].
          intros _ H.
          assert (offline_queue
                    (flush_and_error (str "Redis connection lost and command aborted.")
                       (str "UNCERTAIN_STATE") error (Some [Command_queue]) c1)
                  = offline_queue c1) as -> by by_view B offline_queue.
          exact H. }
  destruct strategy as [[d | e |]|]; [| apply E | apply E |].
  - by apply X.
  - by apply X.
Qed.

Lemma consistent_connection_gone why error c :
  pub_sub_consistent c -> pub_sub_consistent (connection_gone why error c).
Proof.
  intros I. destruct (retry_timer c) eqn:T.
  - unfold connection_gone. by rewrite T.
  - destruct (connection_gone_gone why error c T) as (M & Q & O & _).
    destruct I as (_ & _ & C & O').
    apply consistent_nothing_in_flight; auto.
Qed.

Lemma consistent_on_error err c :
  pub_sub_consistent c -> pub_sub_consistent (on_error err c).
Proof.
  intros I. unfold on_error. destruct (closing c); [done |].
  apply consistent_connection_gone.
  cbv zeta.
  match goal with
  | |- pub_sub_consistent (match ?x with _ => _ end) => destruct x
  end; revert I; by apply consistent_ext.
Qed.

Lemma consistent_on_timeout c :
  pub_sub_consistent c -> pub_sub_consistent (on_timeout c).
Proof.
  intros I. apply consistent_connection_gone. revert I. by apply consistent_ext.
Qed.

Lemma consistent_return_fatal_error err c :
  pub_sub_consistent c -> pub_sub_consistent (return_fatal_error err c).
Proof.
  intros I. unfold return_fatal_error.
  eapply consistent_ext; cycle 3;
    [apply (consistent_flush_in_flight
              (str "Fatal error encountered. Command aborted.") (str "NR_FATAL")
              (Some (with_message (err_message err ++ str ". Please report this.") err))
              (set_ready false c)); revert I; by apply consistent_ext
    | reflexivity..].
Qed.

Lemma consistent_retry_connection c :
  pub_sub_consistent c -> pub_sub_consistent (retry_connection c).
Proof.
  unfold retry_connection. destruct (retry_timer c) as [[d e]|]; [| done].
  by apply consistent_ext.
Qed.

Lemma wview_flush_text acc c : wview (flush_text acc c) = wview c.
Proof. destruct acc; [done | apply wview_stream_write]. Qed.

Lemma wview_write_strings_loop q : forall acc c,
  wview (write_strings_loop q acc c) = wview c.
Proof.
  induction q as [|w q IH]; intros acc c; cbn [write_strings_loop].
  - by rewrite wview_flush_text.
  - assert (X : wview
                  (if 4 * 1024 * 1024 <? js_length acc + wire_length w
                   then write_strings_loop q (wire_text w)
                          (stream_write (Text acc) (set_pipeline_queue q c))
                   else write_strings_loop q (acc ++ wire_text w)
                          (set_pipeline_queue q c))
                = wview c).
    { destruct (_ <? _); rewrite IH; [by rewrite wview_stream_write | done]. }
    destruct w as [[|]|]; [by rewrite wview_flush_text | exact X..].
Qed.

Lemma wview_write_buffers_loop q : forall c,
  wview (write_buffers_loop q c) = wview c.
Proof.
  induction q as [|w q IH]; intros c; cbn [write_buffers_loop]; [done |].
  assert (X : wview (write_buffers_loop q (stream_write w (set_pipeline_queue q c)))
              = wview c) by by rewrite IH, wview_stream_write.
  destruct w as [[|]|]; [done | exact X..].
Qed.

Lemma consistent_uncork c : pub_sub_consistent c -> pub_sub_consistent (uncork c).
Proof.
  intros I. unfold uncork. destruct (corkable c); [| done]. cbv zeta.
  set (c1 := if fire_strings c then _ else _).
  assert (W : wview c1 = wview c).
  { subst c1. destruct (fire_strings c);
      [apply wview_write_strings_loop | apply wview_write_buffers_loop]. }
  apply (consistent_ext c1); [reflexivity.. |]. revert I. consistent_by W.
Qed.

Lemma consistent_run_tick c : pub_sub_consistent c -> pub_sub_consistent (run_tick c).
Proof.
  intros I. unfold run_tick. destruct (ticks c) as [|[[cb err] res] rest]; [done |].
  apply consistent_callback_or_emit. revert I. by apply consistent_ext.
Qed.

Lemma consistent_send_offline_loop fuel : forall c c',
  send_offline_loop fuel c = Some c' ->
  pub_sub_consistent c -> pub_sub_consistent c'.
Proof.
  induction fuel as [|n IH]; intros c c' H I; [done |]. cbn [send_offline_loop] in H.
  destruct (offline_queue c) as [|o rest] eqn:Q; [by injection H as <- |].
  apply IH in H; [done |].
  destruct I as (M & Z & C & O). rewrite Q in O. apply Forall_cons in O as [O1 O2].
  by apply consistent_internal_send_command.
Qed.

Lemma consistent_send_offline_queue c c' :
  send_offline_queue c = Some c' ->
  pub_sub_consistent c -> pub_sub_consistent c'.
Proof.
  unfold send_offline_queue. intros H I.
  apply fmap_Some in H as (c1 & H & ->).
  apply consistent_send_offline_loop in H; [| done].
  revert H. by apply consistent_ext.
Qed.

Lemma consistent_resubscribe cell l : forall c,
  pub_sub_consistent c -> pub_sub_consistent (foldl (resubscribe cell) c l).
Proof.
  induction l as [|e l IH]; intros c I; [done |]. cbn [foldl]. apply IH.
  by apply consistent_internal_send_command.
Qed.

Lemma consistent_on_ready c c' :
  on_ready c = Some c' -> pub_sub_consistent c -> pub_sub_consistent c'.
Proof.
  unfold on_ready. intros H I. cbv zeta in H.
  set (c0 := set_corkable true (set_ready true c)) in H.
  assert (I0 : pub_sub_consistent c0) by (revert I; by apply consistent_ext).
  clearbody c0.
  set (c1 := match selected_db c0 with Some d => _ | None => c0 end) in H.
  assert (I1 : pub_sub_consistent c1).
  { subst c1. destruct (selected_db c0); [| done].
    by apply consistent_internal_send_command. }
  clearbody c1.
  set (c2 := if monitoring c1 then _ else c1) in H.
  assert (I2 : pub_sub_consistent c2).
  { subst c2. destruct (monitoring c1); [| done].
    by apply consistent_internal_send_command. }
  clearbody c2.
  destruct (_ && _).
  - apply consistent_send_offline_queue in H; [done |].
    apply consistent_resubscribe. revert I2. by apply consistent_ext.
  - apply fmap_Some in H as (c3 & H & ->).
    apply consistent_send_offline_queue in H; [| done].
    revert H. by apply consistent_ext.
Qed.

Lemma consistent_on_connect c c' :
  on_connect c = Some c' -> pub_sub_consistent c -> pub_sub_consistent c'.
Proof.
  unfold on_connect. intros H I. apply consistent_on_ready in H; [done |].
  revert I. by apply consistent_ext.
Qed.

Lemma consistent_step i c c' :
  step i c = Some c' -> pub_sub_consistent c -> pub_sub_consistent c'.
Proof.
  destruct i; cbn [step]; intros H I;
    try (injection H as <-).
  - apply fmap_Some in H as (r & H & ->). by apply (consistent_method _ _ _ _ _ H).
  - unfold cork. destruct (corkable c); [| done]. revert I. by apply consistent_ext.
  - by apply consistent_uncork.
  - by apply consistent_end.
  - unfold on_message_buffer_listener. destruct (_ && _); [| done].
    revert I. by apply consistent_ext.
  - by apply (consistent_return_reply _ _ _ H).
  - by apply (consistent_return_error _ _ _ H).
  - by apply consistent_return_fatal_error.
  - unfold emit_idle. destruct (_ && _); [| done]. revert I. by apply consistent_ext.
  - by apply consistent_on_error.
  - by apply consistent_connection_gone.
  - by apply consistent_connection_gone.
  - by apply consistent_on_timeout.
  - revert I. by apply consistent_ext.
  - revert I. by apply consistent_ext.
  - by apply (consistent_on_connect _ _ H).
  - by apply consistent_retry_connection.
  - by apply consistent_run_tick.
Qed.

Lemma consistent_new o : pub_sub_consistent (RedisClient_new o).
Proof. unfold pub_sub_consistent. cbn. done. Qed.

Lemma consistent_reachable o c : reachable o c -> pub_sub_consistent c.
Proof.
  induction 1 as [|c i c' _ IH H]; [apply consistent_new |].
  by apply (consistent_step i c c').
Qed.

(** ** The pub/sub mode invariant *)

(** A refused SUBSCRIBE leaves the mode at 1 although the subscription set
    is empty and nothing is in flight: [return_error] only counts the mode
    down while it is above 1. *)
Lemma refused_subscribe_keeps_mode :
  observe pub_sub_summary subscribe_refused default_options = Some (1, 0%nat, false).
Proof. vm_compute. reflexivity. Qed.

(** C1, counterexample: after an acknowledged SUBSCRIBE and a closed stream
    [pub_sub_mode] is 0 while the subscription set still holds the channel
    (and no subscribe-family command is in flight). *)
Lemma disconnect_keeps_subscriptions :
  observe pub_sub_summary subscribed_then_closed default_options
  = Some (0, 1%nat, false).
Proof. vm_compute. reflexivity. Qed.

(** C1, as the code has it: in every state a client can reach,
    [pub_sub_mode] is not negative, and when it is 0 no subscribe-family
    command is in the in-flight queue.  The subscription set is not tied to
    the mode: a disconnect ([connection_gone]) keeps the set for the
    resubscription of [on_ready] and, unless a retry is already pending,
    puts the mode back to 0. *)
Theorem pub_sub_mode_zero_nothing_in_flight o c :
  reachable o c ->
  0 <= pub_sub_mode c
  /\ (pub_sub_mode c = 0 -> subscribe_in_flight c = false)
  /\ forall why error,
       subscription_set (connection_gone why error c) = subscription_set c
       /\ (retry_timer c = None -> pub_sub_mode (connection_gone why error c) = 0).
Proof.
  intros R. destruct (consistent_reachable o c R) as (M & Z & _).
  split; [exact M |]. split.
  - intros E. by apply quiet_not_in_flight, Z.
  - intros why error. destruct (retry_timer c) eqn:T.
    + unfold connection_gone. rewrite T. done.
    + destruct (connection_gone_gone why error c T) as (M' & _ & _ & S). done.
Qed.

Lemma pub_sub_mode_zero_nothing_in_flight_witness :
  reachable default_options (on_close (RedisClient_new default_options))
  /\ (pub_sub_mode (on_close (RedisClient_new default_options)) = 0 ->
      subscribe_in_flight (on_close (RedisClient_new default_options)) = false).
Proof.
  assert (R : reachable default_options (on_close (RedisClient_new default_options))).
  { apply (reachable_step _ (RedisClient_new default_options) IStreamClose);
      [apply reachable_new | reflexivity]. }
  split; [exact R |].
  exact (proj1 (proj2 (pub_sub_mode_zero_nothing_in_flight default_options _ R))).
Defined.

(** * Further properties of the code *)

(** ** Reply conversion *)

Lemma reply_to_strings_spec : forall reply,
  holds_buffer (reply_to_strings reply) = false
  /\ reply_to_strings (reply_to_strings reply) = reply_to_strings reply.
Proof.
  fix IH 1. intros [ | | n | s | b | t | ctor t | l]; cbn [reply_to_strings holds_buffer];
    try done.
  induction l as [|x l IHl]; [done |].
  destruct (IH x) as [H1 H2]. destruct IHl as [G1 G2].
  cbn [map existsb]. rewrite H1, G1, H2. split; [done |].
  injection G2 as G2. by rewrite G2.
Qed.

(** X1.  [reply_to_strings] leaves no buffer in a reply, at any nesting
    depth, and converting twice is converting once. *)
Theorem reply_to_strings_leaves_no_buffer reply :
  holds_buffer (reply_to_strings reply) = false
  /\ reply_to_strings (reply_to_strings reply) = reply_to_strings reply.
Proof. apply reply_to_strings_spec. Qed.

Lemma assign_values (P : value -> Prop) key x obj :
  P x -> (forall k v, obj.2 !! k = Some v -> P v) ->
  forall k v, (assign key x obj).2 !! k = Some v -> P v.
Proof.
  intros Px I k v. unfold assign. destruct (obj.1 && jseq key (str "__proto__")).
  - apply I.
  - cbn [snd]. destruct (decide (key = k)) as [-> | N].
    + rewrite lookup_insert_eq. by intros [= <-].
    + rewrite lookup_insert_ne by done. apply I.
Qed.

Lemma pairs_to_object_values (P : value -> Prop) l : forall obj o,
  pairs_to_object l obj = Some o ->
  P VUndefined -> Forall P l ->
  (forall k v, obj.2 !! k = Some v -> P v) ->
  forall k v, o.2 !! k = Some v -> P v.
Proof.
  induction l as [l IH] using (induction_ltof1 _ (@length _)); unfold ltof in IH.
  intros obj o H U F I k v L. destruct l as [|a [|b rest]]; cbn [pairs_to_object] in H.
  - injection H as <-. eauto.
  - apply bind_Some in H as (key & _ & [= <-]).
    by apply (assign_values P key VUndefined obj U I k v).
  - apply bind_Some in H as (key & _ & H).
    apply Forall_cons in F as [_ F]. apply Forall_cons in F as [Fb F].
    refine (IH rest _ _ _ H U F _ k v L); [cbn; lia |].
    by apply assign_values.
Qed.

(** X2.  With [detect_buffers] in force and no buffer among the arguments
    of an [hgetall], no value of the object handed to the sink holds a
    buffer. *)
Theorem hgetall_object_without_buffers reply o :
  handle_detect_buffers_reply reply (str "hgetall") false = Some (RObj o) ->
  forall k v, o !! k = Some v -> holds_buffer v = false.
Proof.
  unfold handle_detect_buffers_reply. cbn [negb].
  change (jseq (str "hgetall") (str "hgetall")) with true. cbv iota.
  destruct reply as [ | | n | s | b | t | ctor t | l]; try done.
  cbn [reply_to_strings]. destruct l as [|a l]; [done |].
  unfold reply_to_object. remember (map reply_to_strings (a :: l)) as l' eqn:E.
  destruct l' as [|a' l'']; [done |]. rewrite E. clear E a' l''.
  intros H. apply fmap_Some in H as (o' & H & [= ->]).
  apply (pairs_to_object_values (fun v => holds_buffer v = false) _ _ _ H); [done | |].
  - apply Forall_forall. intros x Hx.
    apply list_elem_of_fmap in Hx as (y & -> & _). apply reply_to_strings_spec.
  - intros k v L. cbn [snd] in L. by rewrite lookup_empty in L.
Qed.

Lemma hgetall_object_without_buffers_witness :
  handle_detect_buffers_reply
    (VArr [VBuf (utf8_encode (str "f")); VBuf (utf8_encode (str "1"))])
    (str "hgetall") false
  = Some (RObj (<[str "f" := VStr (str "1")]> ∅))
  /\ holds_buffer (VStr (str "1")) = false.
Proof.
  split; [reflexivity |].
  apply (hgetall_object_without_buffers
           (VArr [VBuf (utf8_encode (str "f")); VBuf (utf8_encode (str "1"))])
           (<[str "f" := VStr (str "1")]> ∅) eq_refl (str "f") (VStr (str "1"))).
  reflexivity.
Defined.

(** ** Error replies *)

Lemma span_app (p : N -> bool) a b :
  Forall (fun u => p u = true) a ->
  match b with [] => True | u :: _ => p u = false end ->
  span p (a ++ b) = (a, b).
Proof.
  intros F H. induction F as [|u a Hu F IH]; cbn [app span].
  - destruct b as [|u b]; [done |]. cbn [span]. by rewrite H.
  - by rewrite Hu, IH.
Qed.

Lemma is_space_not_upper u : is_space u = true -> is_upper u = false.
Proof.
  unfold is_space, is_upper. intros H.
  destruct (65 <=? u)%N eqn:A; [| done]. destruct (u <=? 90)%N eqn:B; [| done].
  apply N.leb_le in A, B. exfalso.
  repeat (apply orb_true_iff in H as [H | H]);
    repeat match goal with
           | H : (_ && _) = true |- _ => apply andb_true_iff in H as [? ?]
           | H : (_ <=? _)%N = true |- _ => apply N.leb_le in H
           | H : (_ =? _)%N = true |- _ => apply N.eqb_eq in H
           end; lia.
Qed.

Lemma err_code_match_spec code sp rest :
  code <> [] -> Forall (fun u => is_upper u = true) code ->
  sp <> [] -> Forall (fun u => is_space u = true) sp ->
  rest <> [] -> Forall (fun u => is_line_terminator u = false) rest ->
  match rest with [] => True | u :: _ => is_space u = false end ->
  err_code_match (code ++ sp ++ rest) = Some code.
Proof.
  intros C FC S FS R FR HR. unfold err_code_match.
  rewrite (span_app is_upper code (sp ++ rest) FC).
  2:{ destruct sp as [|u sp]; [done |]. cbn [app].
      apply is_space_not_upper. by apply Forall_cons in FS as [? _]. }
  rewrite (span_app is_space sp rest FS HR).
  destruct rest as [|r rest]; [done |]. destruct code as [|k code]; [done |].
  destruct sp as [|u sp]; [done |]. cbn [length].
  assert (forallb (fun u => negb (is_line_terminator u)) (r :: rest) = true) as ->; [| done].
  apply forallb_forall. intros x Hx. rewrite Forall_forall in FR.
  apply list_elem_of_In in Hx. by rewrite (FR x Hx).
Qed.

(** X3.  An error reply whose message is a run of capital letters, white
    space and a rest on one line completes the command at the head of the
    in-flight queue with that error: its [code] is the run of capitals, its
    [command] the name in capitals, and the command leaves the queue. *)
Theorem error_reply_code err code sp rest o q c id :
  err_message err = code ++ sp ++ rest ->
  code <> [] -> Forall (fun u => is_upper u = true) code ->
  sp <> [] -> Forall (fun u => is_space u = true) sp ->
  rest <> [] -> Forall (fun u => is_line_terminator u = false) rest ->
  match rest with [] => True | u :: _ => is_space u = false end ->
  command_queue c = o :: q -> callback o = Some (UserCb id) ->
  exists e c',
    return_error err c = Some c'
    /\ events c' = events c ++ [Call id (Some e) undefined]
    /\ err_code e = Some code
    /\ err_message e = err_message err
    /\ err_command e = Some (toUpperCase (command o))
    /\ command_queue c' = q.
Proof.
  intros M C FC S FS R FR HR Q CB. unfold return_error. rewrite Q, CB, M.
  rewrite (err_code_match_spec code sp rest C FC S FS R FR HR).
  eexists _, _. split; [reflexivity |]. cbn [callback_or_emit invoke].
  split; [by destruct (1 <? _) |].
  split; [reflexivity |]. split; [reflexivity |]. split; [reflexivity |].
  by destruct (1 <? _).
Qed.

Lemma error_reply_code_witness :
  exists e c',
    return_error
      (JsError ReplyError (str "WRONGTYPE Operation against a key") None None None None [])
      (set_command_queue [new_Command (str "get") [text "k"] (Some (UserCb 1)) None]
         (RedisClient_new default_options)) = Some c'
    /\ events c' = [StreamCreate; Call 1 (Some e) undefined]
    /\ err_code e = Some (str "WRONGTYPE").
Proof.
  destruct (error_reply_code
    (JsError ReplyError (str "WRONGTYPE Operation against a key") None None None None [])
    (str "WRONGTYPE") (str " ") (str "Operation against a key")
    (new_Command (str "get") [text "k"] (Some (UserCb 1)) None) []
    (set_command_queue [new_Command (str "get") [text "k"] (Some (UserCb 1)) None]
       (RedisClient_new default_options)) 1%nat)
    as (e & c' & H & E & K & _); try reflexivity; try discriminate.
  - repeat constructor.
  - repeat constructor.
  - repeat constructor.
  - exists e, c'. split; [exact H |]. split; [exact E | exact K].
Defined.

(** ** Writing a command *)

Lemma write_all_app l1 l2 c : write_all (l1 ++ l2) c = write_all l2 (write_all l1 c).
Proof. apply foldl_app. Qed.

Lemma write_args_fragments l : forall c,
  foldl (fun c w => write_arg w c) c l = write_all (l ≫= arg_fragments) c.
Proof.
  induction l as [|w l IH]; intros c; [done |].
  cbn [foldl]. rewrite IH. change ((w :: l) ≫= arg_fragments)
    with (arg_fragments w ++ (l ≫= arg_fragments)).
  rewrite write_all_app. by destruct w.
Qed.

Lemma foldl_bulk_text l : forall acc,
  foldl (fun acc w => acc ++ bulk_text w) acc l = acc ++ concat (bulk_text <$> l).
Proof.
  induction l as [|w l IH]; intros acc; cbn [foldl fmap list_fmap concat].
  - by rewrite app_nil_r.
  - by rewrite IH, app_assoc.
Qed.

(** [write_command] is [write] on the fragments of the command. *)
Lemma write_command_fragments big name l c :
  write_command big name l c
  = write_all (fragments big name l) (if big then set_fire_strings false c else c).
Proof.
  unfold write_command, fragments. destruct big.
  - by rewrite write_args_fragments.
  - by rewrite foldl_bulk_text.
Qed.

Lemma command_header_truthy n name : command_header n name <> [].
Proof. done. Qed.

Lemma fragments_truthy big name l : Forall truthy (fragments big name l).
Proof.
  unfold fragments. destruct big; [| by repeat constructor].
  constructor; [done |]. induction l as [|w l IH]; [constructor |].
  change ((w :: l) ≫= arg_fragments) with (arg_fragments w ++ (l ≫= arg_fragments)).
  apply Forall_app. split; [| exact IH]. destruct w; by repeat constructor.
Qed.

Lemma fragments_not_nil big name l : fragments big name l <> [].
Proof. unfold fragments. by destruct big. Qed.

(** While the pipeline is on, the fragments are queued and nothing reaches
    the stream. *)
Lemma write_all_corked l : forall c,
  pipeline c = true ->
  events (write_all l c) = events c
  /\ pipeline_queue (write_all l c) = pipeline_queue c ++ l
  /\ should_buffer (write_all l c) = should_buffer c.
Proof.
  induction l as [|d l IH]; intros c P; cbn [write_all foldl].
  - by rewrite app_nil_r.
  - assert (W : write d c = set_pipeline_queue (pipeline_queue c ++ [d]) c)
      by (unfold write; by rewrite P).
    fold (write_all l (write d c)). rewrite W.
    destruct (IH (set_pipeline_queue (pipeline_queue c ++ [d]) c) P) as (E & Q & B).
    rewrite E, Q, B. cbn. by rewrite <- app_assoc.
Qed.

(** While it is off, each fragment is handed to the stream, in order. *)
Lemma write_all_direct l : forall c,
  pipeline c = false ->
  events (write_all l c) = events c ++ (StreamWrite <$> l)
  /\ pipeline_queue (write_all l c) = pipeline_queue c
  /\ should_buffer (write_all l c)
     = match l with [] => should_buffer c | _ => negb (stream_write_ok c) end.
Proof.
  induction l as [|d l IH]; intros c P; cbn [write_all foldl].
  - by rewrite app_nil_r.
  - assert (W : write d c = stream_write d c) by (unfold write; by rewrite P).
    fold (write_all l (write d c)). rewrite W.
    destruct (IH (stream_write d c) P) as (E & Q & B).
    rewrite E, Q, B. cbn. rewrite <- app_assoc. by destruct l.
Qed.

Lemma wview_write_all l : forall c, wview (write_all l c) = wview c.
Proof.
  induction l as [|d l IH]; intros c; [done |].
  cbn [write_all foldl]. fold (write_all l (write d c)). by rewrite IH, wview_write.
Qed.

(** ** What sending a command leaves alone *)

Lemma sview_reply_in_order cb err res q c :
  sview (reply_in_order cb err res q c) = sview c.
Proof.
  unfold reply_in_order.
  set (q' := match q with Some q0 => q0 | None => _ end).
  destruct (last (get_queue q' c)); [by destruct q' | reflexivity].
Qed.

Lemma sview_handle_offline_command o c : sview (handle_offline_command o c) = sview c.
Proof.
  unfold handle_offline_command.
  destruct (closing c || negb (enable_offline_queue c)); [| reflexivity].
  apply sview_reply_in_order.
Qed.

Lemma sview_enqueue_or_skip o c : sview (enqueue_or_skip o c) = sview c.
Proof.
  pose proof (hview_enqueue_or_skip o c) as H. by_view H sview.
Qed.

Lemma sview_write_now o c : sview (write_now o c) = sview c.
Proof.
  unfold write_now. rewrite sview_enqueue_or_skip.
  set (c1 := foldl _ c _). set (c2 := write_command _ _ _ c1).
  assert (S1 : sview c1 = sview c).
  { pose proof (wview_warnings (warnings (copy_args (command o) (args o))) c) as W.
    fold c1 in W. by_view W sview. }
  assert (S2 : sview c2 = sview c1).
  { subst c2. pose proof (wview_write_command (big_data (copy_args (command o) (args o)))
      (renamed (options c1) (command o))
      (prefixed (options c1) (command o) (args_copy (copy_args (command o) (args o))))
      c1) as W.
    destruct (big_data _).
    - apply (view_eq wview sview _ _ W (fun x => eq_refl)).
    - by_view W sview. }
  rewrite <- S1, <- S2. clearbody c2. clear.
  destruct (call_on_write o) as [h|]; [| reflexivity]. cbn [from_option].
  pose proof (hview_run_hook h c2) as H. by_view H sview.
Qed.

Lemma sview_with_promise o c : sview (with_promise o c).2 = sview c.
Proof. unfold with_promise. by destruct (callback o). Qed.

(** Sending a command touches the queues, the writer, the reply mode, the
    pub/sub mode, [monitoring], the promise counter, the scheduler and the
    trace, and nothing else. *)
Lemma sview_internal_send_command o c : sview (internal_send_command o c).1 = sview c.
Proof.
  unfold internal_send_command. pose proof (sview_with_promise o c) as S.
  destruct (with_promise o c) as [[o' d] c']. cbn [snd] in S.
  destruct (negb (ready c') || negb (stream_writable c')); cbn [fst].
  - by rewrite sview_handle_offline_command.
  - by rewrite sview_write_now.
Qed.

Lemma foldl_warn l : forall c,
  foldl (fun c w => warn w c) c l = set_events (events c ++ (Warn <$> l)) c.
Proof.
  induction l as [|w l IH]; intros c; cbn [foldl].
  - destruct c. cbn. by rewrite app_nil_r.
  - rewrite IH. cbn. by rewrite <- app_assoc.
Qed.

(** The state in which the command is written, and what the rest of
    [internal_send_command] keeps of the writer. *)
Lemma write_now_writes o c :
  let big := big_data (copy_args (command o) (args o)) in
  let c1 := set_events (events c ++ (Warn <$> warnings (copy_args (command o) (args o)))) c in
  let c2 := write_all (command_fragments o c) (if big then set_fire_strings false c1 else c1) in
  events (write_now o c) = events c2
  /\ pipeline_queue (write_now o c) = pipeline_queue c2
  /\ should_buffer (write_now o c) = should_buffer c2.
Proof.
  intros big c1 c2. unfold write_now. rewrite foldl_warn. fold c1.
  rewrite write_command_fragments. fold big.
  change (write_all _ (if big then set_fire_strings false c1 else c1)) with c2.
  clearbody c2. clear.
  assert (H : hview (enqueue_or_skip (flagged o)
                       (from_option (fun h => run_hook h c2) c2 (call_on_write o)))
              = hview c2).
  { rewrite hview_enqueue_or_skip. destruct (call_on_write o); [| done].
    apply hview_run_hook. }
  repeat split; [by_view H events | by_view H pipeline_queue | by_view H should_buffer].
Qed.

Lemma written_app l1 l2 : written (l1 ++ l2) = written l1 ++ written l2.
Proof.
  induction l1 as [|e l1 IH]; [done |]. destruct e; cbn [app written]; by rewrite ?IH.
Qed.

Lemma written_warnings (l : list warning) : written (Warn <$> l) = [].
Proof. by induction l. Qed.

Lemma written_writes l : written (StreamWrite <$> l) = l.
Proof. induction l as [|d l IH]; [done |]. cbn. by rewrite IH. Qed.

(** X4.  A command sent while the pipeline is on ([cork]) reaches no
    [stream.write]: its fragments, none of them an empty text, are put at
    the back of the pipeline queue, and the value returned is what
    [should_buffer] was. *)
Theorem corked_command_is_queued o c :
  ready c = true -> stream_writable c = true -> pipeline c = true ->
  let r := internal_send_command o c in
  written (events r.1) = written (events c)
  /\ pipeline_queue r.1 = pipeline_queue c ++ command_fragments o c
  /\ Forall truthy (command_fragments o c)
  /\ command_fragments o c <> []
  /\ (callback o <> None -> r.2 = Flag (negb (should_buffer c))).
Proof.
  intros R W P r.
  assert (E : events r.1
              = events c ++ (Warn <$> warnings (copy_args (command o) (args o)))
              /\ pipeline_queue r.1 = pipeline_queue c ++ command_fragments o c
              /\ should_buffer r.1 = should_buffer c).
  { subst r. rewrite internal_send_command_ready by done.
    destruct (with_promise_ready o c) as (_ & _ & _ & N & A & _).
    assert (V : pipeline (with_promise o c).2 = pipeline c
                /\ options (with_promise o c).2 = options c
                /\ events (with_promise o c).2 = events c
                /\ pipeline_queue (with_promise o c).2 = pipeline_queue c
                /\ should_buffer (with_promise o c).2 = should_buffer c).
    { unfold with_promise. by destruct (callback o). }
    destruct V as (V1 & V2 & V3 & V4 & V5).
    destruct (with_promise o c) as [[o' d] c']. cbn [fst snd] in *.
    destruct (write_now_writes o' c') as (E1 & E2 & E3). cbv zeta in E1, E2, E3.
    rewrite E1, E2, E3. clear E1 E2 E3.
    unfold command_fragments, wire_args. rewrite N, A, V2.
    set (fr := fragments _ _ _). clearbody fr.
    set (c1 := if big_data _ then _ else _).
    assert (K : pipeline c1 = true /\ events c1
                = events c ++ (Warn <$> warnings (copy_args (command o) (args o)))
                /\ pipeline_queue c1 = pipeline_queue c
                /\ should_buffer c1 = should_buffer c).
    { subst c1. rewrite <- P, <- V1, <- V3, <- V4, <- V5. by destruct (big_data _). }
    clearbody c1. destruct K as (P1 & K1 & K2 & K3).
    destruct (write_all_corked fr c1 P1) as (F1 & F2 & F3).
    by rewrite F1, F2, F3, K1, K2, K3. }
  destruct E as (E1 & E2 & E3). split.
  { by rewrite E1, written_app, written_warnings, app_nil_r. }
  split; [exact E2 |]. split; [apply fragments_truthy |].
  split; [apply fragments_not_nil |].
  intros CB. subst r. unfold internal_send_command in *.
  unfold with_promise in *. destruct (callback o) eqn:K; [| done].
  rewrite R, W in *. cbn [negb orb fst snd] in *. by rewrite E3.
Qed.

Lemma corked_command_is_queued_witness :
  pipeline_queue (internal_send_command get_k (set_pipeline true ready_client)).1
  = [Text get_k_text].
Proof.
  exact (proj1 (proj2 (corked_command_is_queued get_k (set_pipeline true ready_client)
                         eq_refl eq_refl eq_refl))).
Defined.

Lemma copy_args_length name l : length (args_copy (copy_args name l)) = length l.
Proof.
  induction l as [|a l IH]; [done |]. cbn [copy_args].
  destruct (copy_arg name a) as [[[w big] buf] warning]. cbn. by rewrite IH.
Qed.

Lemma prefix_keys_length p indexes l : length (prefix_keys p indexes l) = length l.
Proof.
  unfold prefix_keys. induction indexes as [|i indexes IH]; [done |].
  cbn [foldr]. by rewrite length_alter.
Qed.

Lemma wire_args_length o c : length (wire_args o c) = length (args o).
Proof.
  unfold wire_args, prefixed.
  destruct (prefix (options c)) as [[|u r]|];
    by rewrite ?prefix_keys_length, copy_args_length.
Qed.

Lemma internal_send_command_direct o c :
  ready c = true -> stream_writable c = true -> pipeline c = false ->
  let r := internal_send_command o c in
  written (events r.1) = written (events c) ++ command_fragments o c
  /\ pipeline_queue r.1 = pipeline_queue c
  /\ (big_data (copy_args (command o) (args o)) = false ->
      command_fragments o c
      = [Text (command_header (Z.of_nat (length (args o))) (renamed (options c) (command o))
               ++ concat (bulk_text <$> wire_args o c))])
  /\ (callback o <> None -> r.2 = Flag (stream_write_ok c)).
Proof.
  intros R W P r.
  assert (E : events r.1
              = events c ++ (Warn <$> warnings (copy_args (command o) (args o)))
                ++ (StreamWrite <$> command_fragments o c)
              /\ pipeline_queue r.1 = pipeline_queue c
              /\ should_buffer r.1 = negb (stream_write_ok c)).
  { subst r. rewrite internal_send_command_ready by done.
    destruct (with_promise_ready o c) as (_ & _ & _ & N & A & _).
    assert (V : pipeline (with_promise o c).2 = pipeline c
                /\ options (with_promise o c).2 = options c
                /\ events (with_promise o c).2 = events c
                /\ pipeline_queue (with_promise o c).2 = pipeline_queue c
                /\ stream_write_ok (with_promise o c).2 = stream_write_ok c).
    { unfold with_promise. by destruct (callback o). }
    destruct V as (V1 & V2 & V3 & V4 & V5).
    destruct (with_promise o c) as [[o' d] c']. cbn [fst snd] in *.
    destruct (write_now_writes o' c') as (E1 & E2 & E3). cbv zeta in E1, E2, E3.
    rewrite E1, E2, E3. clear E1 E2 E3.
    unfold command_fragments, wire_args. rewrite N, A, V2.
    pose proof (fragments_not_nil (big_data (copy_args (command o) (args o)))
                  (renamed (options c) (command o))
                  (prefixed (options c) (command o)
                     (args_copy (copy_args (command o) (args o))))) as NE.
    set (fr := fragments _ _ _) in *. clearbody fr.
    set (c1 := if big_data _ then _ else _).
    assert (K : pipeline c1 = false /\ events c1
                = events c ++ (Warn <$> warnings (copy_args (command o) (args o)))
                /\ pipeline_queue c1 = pipeline_queue c
                /\ stream_write_ok c1 = stream_write_ok c).
    { subst c1. rewrite <- P, <- V1, <- V3, <- V4, <- V5. by destruct (big_data _). }
    clearbody c1. destruct K as (P1 & K1 & K2 & K3).
    destruct (write_all_direct fr c1 P1) as (F1 & F2 & F3).
    rewrite F1, F2, F3, K1, K2, K3, <- app_assoc. by destruct fr. }
  destruct E as (E1 & E2 & E3). split.
  { by rewrite E1, !written_app, written_warnings, written_writes. }
  split; [exact E2 |]. split.
  { intros B. unfold command_fragments, fragments. by rewrite B, wire_args_length. }
  intros CB. subst r. unfold internal_send_command in *.
  unfold with_promise in *. destruct (callback o) eqn:K; [| done].
  rewrite R, W in *. cbn [negb orb fst snd] in *. rewrite E3. by destruct (stream_write_ok c).
Qed.


(** X5.  A command sent on a ready client while the pipeline is off is
    handed to the stream fragment by fragment, in order, and the value
    returned is what the last [stream.write] returned.  Without a buffer or
    a text of more than 30000 code units among the arguments the command is
    one write: the header for [1 + args.length] bulks, then every argument
    as a bulk. *)
Theorem command_is_written_in_order o c :
  ready c = true -> stream_writable c = true -> pipeline c = false ->
  let r := internal_send_command o c in
  written (events r.1) = written (events c) ++ command_fragments o c
  /\ pipeline_queue r.1 = pipeline_queue c
  /\ (big_data (copy_args (command o) (args o)) = false ->
      command_fragments o c
      = [Text (command_header (Z.of_nat (length (args o))) (renamed (options c) (command o))
               ++ concat (bulk_text <$> wire_args o c))])
  /\ (callback o <> None -> r.2 = Flag (stream_write_ok c)).
Proof. apply internal_send_command_direct. Qed.

Lemma command_is_written_in_order_witness :
  written (events (internal_send_command get_k ready_client).1) = [Text get_k_text]
  /\ (internal_send_command get_k ready_client).2 = Flag true.
Proof.
  destruct (command_is_written_in_order get_k ready_client eq_refl eq_refl eq_refl)
    as (H1 & _ & _ & H4).
  split; [exact H1 | by apply H4].
Defined.

(** ** Emptying the pipeline *)

Lemma write_buffers_loop_spec q : forall c,
  Forall truthy q ->
  events (write_buffers_loop q c) = events c ++ (StreamWrite <$> q)
  /\ pipeline_queue (write_buffers_loop q c) = [].
Proof.
  induction q as [|w q IH]; intros c F; cbn [write_buffers_loop].
  - by rewrite app_nil_r.
  - apply Forall_cons in F as [T F].
    assert (X : events (write_buffers_loop q (stream_write w (set_pipeline_queue q c)))
                = events c ++ (StreamWrite <$> w :: q)
                /\ pipeline_queue
                     (write_buffers_loop q (stream_write w (set_pipeline_queue q c))) = []).
    { destruct (IH (stream_write w (set_pipeline_queue q c)) F) as [E Q].
      rewrite E, Q. cbn. by rewrite <- app_assoc. }
    destruct w as [[|u s]|b]; [done | exact X..].
Qed.

Lemma total_length_nonneg q : 0 <= total_length q.
Proof.
  induction q as [|w q IH]; [done |]. cbn [total_length foldr].
  fold (total_length q). destruct w; unfold wire_length, js_length; lia.
Qed.

Lemma write_strings_loop_spec q : forall acc c,
  Forall truthy q ->
  exists chunks,
    events (write_strings_loop q acc c) = events c ++ (StreamWrite <$> (Text <$> chunks))
    /\ concat chunks = acc ++ concat (wire_text <$> q)
    /\ pipeline_queue (write_strings_loop q acc c) = []
    /\ (js_length acc + total_length q <= 4 * 1024 * 1024 ->
        chunks = match acc ++ concat (wire_text <$> q) with
                 | [] => []
                 | t => [t]
                 end).
Proof.
  induction q as [|w q IH]; intros acc c F; cbn [write_strings_loop].
  - exists (match acc with [] => [] | _ => [acc] end).
    cbn [fmap list_fmap concat]. rewrite !app_nil_r.
    destruct acc; cbn; by rewrite ?app_nil_r.
  - apply Forall_cons in F as [T F].
    assert (X : exists chunks,
      events (if 4 * 1024 * 1024 <? js_length acc + wire_length w
              then write_strings_loop q (wire_text w)
                     (stream_write (Text acc) (set_pipeline_queue q c))
              else write_strings_loop q (acc ++ wire_text w) (set_pipeline_queue q c))
      = events c ++ (StreamWrite <$> (Text <$> chunks))
      /\ concat chunks = acc ++ concat (wire_text <$> w :: q)
      /\ pipeline_queue
           (if 4 * 1024 * 1024 <? js_length acc + wire_length w
            then write_strings_loop q (wire_text w)
                   (stream_write (Text acc) (set_pipeline_queue q c))
            else write_strings_loop q (acc ++ wire_text w) (set_pipeline_queue q c)) = []
      /\ (js_length acc + total_length (w :: q) <= 4 * 1024 * 1024 ->
          chunks = match acc ++ concat (wire_text <$> w :: q) with
                   | [] => []
                   | t => [t]
                   end)).
    { pose proof (total_length_nonneg q) as NN.
      cbn [total_length foldr fmap list_fmap concat]. fold (total_length q).
      destruct (Z.ltb_spec (4 * 1024 * 1024) (js_length acc + wire_length w)) as [L | L].
      - destruct (IH (wire_text w) (stream_write (Text acc) (set_pipeline_queue q c)) F)
          as (chunks & E & C & Q & _).
        exists (acc :: chunks). rewrite E, Q. cbn. rewrite C, <- app_assoc.
        repeat split. lia.
      - destruct (IH (acc ++ wire_text w) (set_pipeline_queue q c) F)
          as (chunks & E & C & Q & S).
        exists chunks. rewrite E, Q, C, <- app_assoc. repeat split.
        intros B. rewrite S; [by rewrite <- app_assoc |].
        unfold js_length in *. rewrite length_app.
        assert (Z.of_nat (length (wire_text w)) <= wire_length w); [| lia].
        destruct w as [s|b]; cbn [wire_text wire_length]; unfold js_length; [lia |].
        clear. rewrite <- Nat2Z.inj_le.
        induction b as [b IHb] using (induction_ltof1 _ (@length _)). unfold ltof in IHb.
        destruct b as [|b0 r0]; [done |]. cbn [utf8_decode].
        repeat match goal with
               | |- context [if ?x then _ else _] => destruct x
               | |- context [match ?l with [] => _ | _ :: _ => _ end] =>
                 is_var l; destruct l
               | |- (length (_ :: utf8_decode ?r) <= _)%nat =>
                 cbn [length]; pose proof (IHb r ltac:(cbn; lia)); cbn [length] in *; lia
               | |- (length (units_of_code_point ?cp ++ utf8_decode ?r) <= _)%nat =>
                 rewrite length_app; pose proof (IHb r ltac:(cbn; lia));
                 assert (length (units_of_code_point cp) <= 2)%nat
                   by (unfold units_of_code_point; destruct (_ <? _)%N; cbn; lia);
                 cbn [length] in *; lia
               | |- _ => cbn [length]; lia
               end. }
    destruct w as [[|u s]|b]; [done | exact X..].
Qed.

(** X6.  [uncork] in buffer mode ([fire_strings] unset) hands every queued
    fragment to the stream, one write each and in order, and leaves the
    pipeline off, the queue empty and [fire_strings] set again. *)
Theorem uncork_writes_every_fragment c :
  corkable c = true -> fire_strings c = false -> Forall truthy (pipeline_queue c) ->
  events (uncork c) = events c ++ (StreamWrite <$> pipeline_queue c)
  /\ pipeline_queue (uncork c) = []
  /\ pipeline (uncork c) = false
  /\ fire_strings (uncork c) = true.
Proof.
  intros K S F. unfold uncork. rewrite K, S. cbv zeta. unfold write_buffers.
  destruct (write_buffers_loop_spec (pipeline_queue c) c F) as [E Q].
  repeat split; [exact E | exact Q].
Qed.

Lemma uncork_writes_every_fragment_witness :
  written (events (uncork (two_queued false))) = [Text (str "ab"); Text (str "cd")].
Proof.
  destruct (uncork_writes_every_fragment (two_queued false) eq_refl eq_refl) as (E & _).
  - repeat constructor; discriminate.
  - rewrite E. reflexivity.
Defined.

(** X7.  [uncork] in text mode ([fire_strings] set) writes the queued
    fragments joined: the texts handed to the stream, put end to end, are
    the queued texts put end to end, and they are one write when the lengths
    add up to no more than 4 MiB.  The pipeline is left off and empty. *)
Theorem uncork_joins_the_texts c :
  corkable c = true -> fire_strings c = true -> Forall truthy (pipeline_queue c) ->
  exists chunks,
    events (uncork c) = events c ++ (StreamWrite <$> (Text <$> chunks))
    /\ concat chunks = concat (wire_text <$> pipeline_queue c)
    /\ pipeline_queue (uncork c) = []
    /\ pipeline (uncork c) = false
    /\ fire_strings (uncork c) = true
    /\ (total_length (pipeline_queue c) <= 4 * 1024 * 1024 ->
        chunks = match concat (wire_text <$> pipeline_queue c) with
                 | [] => []
                 | t => [t]
                 end).
Proof.
  intros K S F. unfold uncork. rewrite K, S. cbv zeta. unfold write_strings.
  destruct (write_strings_loop_spec (pipeline_queue c) [] c F) as (chunks & E & C & Q & O).
  exists chunks. repeat split; [exact E | exact C | exact Q | exact O].
Qed.

Lemma uncork_joins_the_texts_witness :
  written (events (uncork (two_queued true))) = [Text (str "abcd")].
Proof.
  destruct (uncork_joins_the_texts (two_queued true) eq_refl eq_refl)
    as (chunks & E & _ & _ & _ & _ & O).
  - repeat constructor; discriminate.
  - rewrite E, (O ltac:(vm_compute; discriminate)). reflexivity.
Defined.

(** ** The offline queue *)

Lemma write_now_offline_queue o c : offline_queue (write_now o c) = offline_queue c.
Proof.
  destruct (write_now_decides o c) as (c1 & -> & _ & K & _).
  rewrite <- K. pose proof (hview_enqueue_or_skip (flagged o) c1) as H.
  by_view H offline_queue.
Qed.

Lemma request_flagged o : request (flagged o) = request o.
Proof. unfold flagged. by destruct (sets_buffer_args _). Qed.

(** A command written in reply mode [ON] goes to the back of the in-flight
    queue. *)
Lemma write_now_enqueues o c :
  reply c = ON -> replied o ->
  command_queue (write_now o c) = command_queue c ++ [flagged o]
  /\ reply (write_now o c) = ON.
Proof.
  intros R P. destruct (write_now_decides o c) as (c1 & -> & K1 & _ & _ & K4 & _).
  assert (R1 : reply c1 = ON).
  { rewrite K4. unfold reply_after_hook, replied in *.
    by destruct (call_on_write o) as [[]|]. }
  unfold enqueue_or_skip. rewrite R1. cbn. by rewrite K1.
Qed.

Lemma internal_send_command_replayed o c :
  ready c = true -> stream_writable c = true ->
  let c' := (internal_send_command o c).1 in
  offline_queue c' = offline_queue c
  /\ (reply c = ON -> replied o ->
      request <$> command_queue c' = (request <$> command_queue c) ++ [request o]
      /\ reply c' = ON).
Proof.
  intros R W c'. subst c'. rewrite internal_send_command_ready by done.
  destruct (with_promise_ready o c) as (_ & _ & _ & N & A & H & _).
  assert (V : offline_queue (with_promise o c).2 = offline_queue c
              /\ command_queue (with_promise o c).2 = command_queue c
              /\ reply (with_promise o c).2 = reply c).
  { unfold with_promise. by destruct (callback o). }
  destruct V as (V1 & V2 & V3).
  destruct (with_promise o c) as [[o' d] c']. cbn [fst snd] in *.
  split; [by rewrite write_now_offline_queue |].
  intros RO P.
  destruct (write_now_enqueues o' c') as [Q R']; [by rewrite V3 | |].
  { unfold replied in *. by rewrite H. }
  rewrite Q, R', V2, fmap_app. cbn. rewrite request_flagged. unfold request.
  by rewrite N, A.
Qed.

Lemma send_offline_loop_spec n : forall c,
  ready c = true -> stream_writable c = true ->
  (length (offline_queue c) < n)%nat ->
  exists c',
    send_offline_loop n c = Some c'
    /\ offline_queue c' = []
    /\ (reply c = ON -> Forall replied (offline_queue c) ->
        request <$> command_queue c'
        = request <$> (command_queue c ++ offline_queue c)).
Proof.
  induction n as [|n IH]; intros c R W L; [lia |]. cbn [send_offline_loop].
  destruct (offline_queue c) as [|o rest] eqn:Q.
  - exists c. rewrite app_nil_r. by repeat split.
  - set (c0 := set_offline_queue rest c).
    destruct (internal_send_command_replayed o c0 R W) as [O P]. cbv zeta in O, P.
    pose proof (sview_internal_send_command o c0) as S.
    assert (R1 : ready (internal_send_command o c0).1 = true)
      by (rewrite <- R; by_view S ready).
    assert (W1 : stream_writable (internal_send_command o c0).1 = true)
      by (rewrite <- W; by_view S stream_writable).
    destruct (IH (internal_send_command o c0).1 R1 W1) as (c' & H & E & K).
    { rewrite O. cbn in *. lia. }
    exists c'. split; [exact H |]. split; [exact E |].
    intros RO F. apply Forall_cons in F as [F1 F2].
    destruct (P RO F1) as [P1 P2]. rewrite K; [| exact P2 | by rewrite O].
    rewrite !fmap_app, P1, O. cbn. by rewrite <- app_assoc.
Qed.

Lemma offline_queue_is_replayed_lemma c :
  ready c = true -> stream_writable c = true ->
  exists c',
    send_offline_queue c = Some c'
    /\ offline_queue c' = []
    /\ should_buffer c' = false
    /\ (reply c = ON -> Forall replied (offline_queue c) ->
        request <$> command_queue c'
        = request <$> (command_queue c ++ offline_queue c)).
Proof.
  intros R W. unfold send_offline_queue.
  destruct (send_offline_loop_spec (S (length (offline_queue c))) c R W ltac:(lia))
    as (c' & H & E & K).
  exists (drain c'). rewrite H. by repeat split.
Qed.

(** X8.  On a ready client with a writable stream [send_offline_queue]
    comes to an end with the offline queue empty and [should_buffer]
    unset; when replies are on (and no queued command switches them off)
    the queued commands have joined the in-flight queue in the order in
    which they were queued. *)
Theorem offline_queue_is_replayed c :
  ready c = true -> stream_writable c = true ->
  exists c',
    send_offline_queue c = Some c'
    /\ offline_queue c' = []
    /\ should_buffer c' = false
    /\ (reply c = ON -> Forall replied (offline_queue c) ->
        request <$> command_queue c'
        = request <$> (command_queue c ++ offline_queue c)).
Proof. apply offline_queue_is_replayed_lemma. Qed.

Lemma offline_queue_is_replayed_witness :
  exists c',
    send_offline_queue (set_offline_queue [get_k] ready_client) = Some c'
    /\ offline_queue c' = []
    /\ request <$> command_queue c' = [request get_k].
Proof.
  destruct (offline_queue_is_replayed (set_offline_queue [get_k] ready_client)
              eq_refl eq_refl) as (c' & H & E & _ & K).
  exists c'. split; [exact H |]. split; [exact E |].
  apply K; [reflexivity | by repeat constructor].
Defined.

(** X9.  While the stream cannot be written to, the client is not closing
    and the offline queue is in use, [send_offline_queue] does not come to
    an end on a queue that is not empty: every command it takes from the
    front is put at the back again. *)
Theorem offline_replay_needs_a_writable_stream c :
  stream_writable c = false -> closing c = false -> enable_offline_queue c = true ->
  offline_queue c <> [] ->
  (forall fuel, send_offline_loop fuel c = None) /\ send_offline_queue c = None.
Proof.
  intros W C E Q.
  assert (L : forall fuel c, stream_writable c = false -> closing c = false ->
                enable_offline_queue c = true -> offline_queue c <> [] ->
                send_offline_loop fuel c = None).
  { clear. induction fuel as [|n IH]; intros c W C E Q; [done |].
    cbn [send_offline_loop]. destruct (offline_queue c) as [|o rest] eqn:K; [done |].
    set (c0 := set_offline_queue rest c).
    pose proof (sview_internal_send_command o c0) as S.
    apply IH.
    - rewrite <- W. by_view S stream_writable.
    - rewrite <- C. by_view S closing.
    - rewrite <- E. by_view S enable_offline_queue.
    - unfold internal_send_command.
      assert (V : stream_writable (with_promise o c0).2 = false
                  /\ closing (with_promise o c0).2 = false
                  /\ enable_offline_queue (with_promise o c0).2 = true).
      { unfold with_promise. by destruct (callback o). }
      destruct V as (V1 & V2 & V3).
      destruct (with_promise o c0) as [[o' d] c']. cbn [fst snd] in *.
      rewrite V1, orb_true_r. cbn [fst]. unfold handle_offline_command.
      rewrite V2, V3. cbn. by destruct (offline_queue c'). }
  split; [intros fuel; by apply L |]. unfold send_offline_queue. by rewrite L.
Qed.

Lemma offline_replay_needs_a_writable_stream_witness :
  send_offline_queue
    (set_stream_writable false (set_offline_queue [get_k] ready_client)) = None.
Proof.
  apply (offline_replay_needs_a_writable_stream
           (set_stream_writable false (set_offline_queue [get_k] ready_client)));
    [reflexivity | reflexivity | reflexivity | discriminate].
Defined.

Lemma request_replace_last cb l :
  request <$> replace_last (with_callback cb) l = request <$> l.
Proof.
  induction l as [|o l IH]; [done |].
  destruct l as [|o' l]; [done |]. cbn [replace_last fmap list_fmap] in *.
  by rewrite IH.
Qed.

Lemma reply_in_order_requests cb err res q c :
  let c' := reply_in_order cb err res q c in
  request <$> offline_queue c' = request <$> offline_queue c
  /\ request <$> command_queue c' = request <$> command_queue c
  /\ events c' = events c
  /\ pipeline_queue c' = pipeline_queue c
  /\ (command_queue c = [] -> offline_queue c = [] ->
      ticks c' = ticks c ++ [(cb, err, res)]).
Proof.
  unfold reply_in_order.
  set (q' := match q with Some q0 => q0 | None => _ end).
  destruct (last (get_queue q' c)) as [t|] eqn:L.
  - destruct q'; cbn [get_queue set_queue] in *; cbn;
      rewrite ?request_replace_last; repeat split; intros E1 E2;
      rewrite ?E1, ?E2 in L; done.
  - by repeat split.
Qed.

(** X10.  A command sent while the client is not ready, or the stream not
    writable, is not written and [false] is returned.  It joins the back of
    the offline queue, which sets [should_buffer]; but when the client is
    closing or the offline queue is switched off it is left out of both
    queues and is completed with an [AbortError] of code [NR_CLOSED], on
    the next tick when no command is queued. *)
Theorem command_before_ready o cb c :
  ready c = false \/ stream_writable c = false ->
  callback o = Some cb ->
  let r := internal_send_command o c in
  r.2 = Flag false
  /\ events r.1 = events c
  /\ pipeline_queue r.1 = pipeline_queue c
  /\ (closing c = false -> enable_offline_queue c = true ->
      offline_queue r.1 = offline_queue c ++ [o]
      /\ command_queue r.1 = command_queue c
      /\ should_buffer r.1 = true
      /\ ticks r.1 = ticks c)
  /\ (closing c = true \/ enable_offline_queue c = false ->
      request <$> offline_queue r.1 = request <$> offline_queue c
      /\ request <$> command_queue r.1 = request <$> command_queue c
      /\ (command_queue c = [] -> offline_queue c = [] ->
          exists e,
            ticks r.1 = ticks c ++ [(Some cb, Some e, undefined)]
            /\ err_class e = AbortError
            /\ err_code e = Some (str "NR_CLOSED")
            /\ err_command e = Some (toUpperCase (command o)))).
Proof.
  intros N CB r. subst r. unfold internal_send_command, with_promise. rewrite CB.
  assert (negb (ready c) || negb (stream_writable c) = true) as ->
    by (destruct N as [-> | ->]; [done | apply orb_true_r]).
  cbn [fst snd]. split; [done |]. unfold handle_offline_command.
  destruct (closing c) eqn:C; [| destruct (enable_offline_queue c) eqn:E]; cbn [orb negb].
  - destruct (reply_in_order_requests (Some cb)
      (Some (JsError AbortError
               (toUpperCase (command o) ++ str " can't be processed. "
                ++ str "The connection is already closed.")
               (Some (str "NR_CLOSED")) (Some (toUpperCase (command o)))
               (non_empty_args (args o)) None [])) undefined None c)
      as (R1 & R2 & R3 & R4 & R5).
    cbv zeta in R1, R2, R3, R4, R5. rewrite CB.
    split; [exact R3 |]. split; [exact R4 |]. split; [done |].
    intros _. split; [exact R1 |]. split; [exact R2 |].
    intros Q1 Q2. eexists. split; [by apply R5 | done].
  - split; [done |]. split; [done |]. split; [done |]. by intros [? | ?].
  - set (msg := if stream_writable c then _ else _).
    destruct (reply_in_order_requests (Some cb)
      (Some (JsError AbortError
               (toUpperCase (command o) ++ str " can't be processed. " ++ msg)
               (Some (str "NR_CLOSED")) (Some (toUpperCase (command o)))
               (non_empty_args (args o)) None [])) undefined None c)
      as (R1 & R2 & R3 & R4 & R5).
    cbv zeta in R1, R2, R3, R4, R5. rewrite CB.
    split; [exact R3 |]. split; [exact R4 |]. split; [done |].
    intros _. split; [exact R1 |]. split; [exact R2 |].
    intros Q1 Q2. eexists. split; [by apply R5 | done].
Qed.

Lemma command_before_ready_witness :
  offline_queue (internal_send_command get_k (RedisClient_new default_options)).1
  = [get_k].
Proof.
  destruct (command_before_ready get_k (UserCb 1) (RedisClient_new default_options)
              (or_introl eq_refl) eq_refl) as (_ & _ & _ & Q & _).
  exact (proj1 (Q eq_refl eq_refl)).
Defined.

(** X11.  The sink that [reply_in_order] puts behind the last command of a
    queue is called with the error the completion of that command carries,
    not with the error [reply_in_order] was given: the parameter of the
    wrapper hides it.  The result it receives is the one given. *)
Theorem reply_in_order_passes_the_error_in_front id err res q c front t :
  get_queue q c = front ++ [t] ->
  let c' := reply_in_order (Some (UserCb id)) err res (Some q) c in
  exists t',
    get_queue q c' = front ++ [t']
    /\ request t' = request t
    /\ forall cb', callback t' = Some cb' ->
       forall e d c0,
         exists c1,
           continues c0 c1
           /\ events (invoke cb' e d c0) = events c1 ++ [Call id e res].
Proof.
  intros Q. unfold reply_in_order. rewrite Q, last_snoc, replace_last_snoc.
  exists (with_callback (Some (InOrderCb (callback t) (Some (UserCb id)) res)) t).
  split; [by destruct q |]. split; [done |].
  intros cb' [= <-] e d c0. cbn [invoke].
  eexists. split; [| reflexivity].
  destruct (callback t) as [f|]; [apply invoke_continues |].
  destruct e; [| apply continues_refl].
  apply (adds_continues (fun _ => True)), adds_log. done.
Qed.

Lemma reply_in_order_passes_the_error_in_front_witness :
  exists t',
    command_queue
      (reply_in_order (Some (UserCb 2)) (Some connection_refused) undefined
         (Some Command_queue) (set_command_queue [get_k] ready_client)) = [t']
    /\ forall cb', callback t' = Some cb' ->
       exists c1,
         events (invoke cb' None (RVal (text "v")) ready_client)
         = events c1 ++ [Call 2 None undefined].
Proof.
  destruct (reply_in_order_passes_the_error_in_front 2 (Some connection_refused)
              undefined Command_queue (set_command_queue [get_k] ready_client) [] get_k
              eq_refl) as (t' & Q & _ & H).
  exists t'. split; [exact Q |]. intros cb' E.
  destruct (H cb' E None (RVal (text "v")) ready_client) as (c1 & _ & K).
  exists c1. exact K.
Defined.

(** ** Becoming ready *)

Lemma send_offline_loop_sview n : forall c c',
  send_offline_loop n c = Some c' -> sview c' = sview c /\ offline_queue c' = [].
Proof.
  induction n as [|n IH]; intros c c' H; [done |]. cbn [send_offline_loop] in H.
  destruct (offline_queue c) as [|o rest] eqn:Q; [by injection H as <- |].
  apply IH in H as [S E]. split; [| exact E].
  rewrite S, sview_internal_send_command. reflexivity.
Qed.

Lemma send_offline_queue_sview c c' :
  send_offline_queue c = Some c' -> sview c' = sview c /\ offline_queue c' = [].
Proof.
  unfold send_offline_queue. intros H. apply fmap_Some in H as (c1 & H & ->).
  apply send_offline_loop_sview in H as [S E]. split; [| exact E].
  rewrite <- S. reflexivity.
Qed.

Lemma sview_resubscribe cell l : forall c, sview (foldl (resubscribe cell) c l) = sview c.
Proof.
  induction l as [|e l IH]; intros c; [done |]. cbn [foldl]. rewrite IH.
  apply sview_internal_send_command.
Qed.

(** [on_ready] sets [ready], installs [cork] and [uncork], may add a
    countdown cell, and otherwise touches what sending a command touches. *)
Lemma on_ready_sview c c' :
  on_ready c = Some c' ->
  offline_queue c' = []
  /\ exists cells,
       sview c' = sview (set_ready_cells cells (set_corkable true (set_ready true c))).
Proof.
  unfold on_ready. intros H. cbv zeta in H.
  set (c0 := set_corkable true (set_ready true c)) in *.
  set (c1 := match selected_db c0 with Some d => _ | None => c0 end) in H.
  assert (S1 : sview c1 = sview c0).
  { subst c1. destruct (selected_db c0); [apply sview_internal_send_command | done]. }
  clearbody c1.
  set (c2 := if monitoring c1 then _ else c1) in H.
  assert (S2 : sview c2 = sview c0).
  { subst c2. rewrite <- S1.
    destruct (monitoring c1); [apply sview_internal_send_command | done]. }
  clearbody c2. clear S1 c1.
  destruct (_ && _).
  - apply send_offline_queue_sview in H as [S E]. split; [exact E |].
    exists (ready_cells c2 ++ [Z.of_nat (size (subscription_set c2))]).
    rewrite S, sview_resubscribe.
    apply (view_eq sview (fun x => sview (set_ready_cells _ x)) _ _ S2 (fun x => eq_refl)).
  - apply fmap_Some in H as (c3 & H & ->).
    apply send_offline_queue_sview in H as [S E]. split; [exact E |].
    exists (ready_cells c0).
    transitivity (sview c3); [reflexivity |]. rewrite S, S2.
    subst c0. destruct c. reflexivity.
Qed.

Lemma send_offline_queue_total c :
  ready c = true -> stream_writable c = true ->
  exists c', send_offline_queue c = Some c'.
Proof.
  intros R W. destruct (offline_queue_is_replayed_lemma c R W) as (c' & H & _). eauto.
Qed.

Lemma on_ready_total c :
  stream_writable c = true -> exists c', on_ready c = Some c'.
Proof.
  intros W. unfold on_ready. cbv zeta.
  set (c0 := set_corkable true (set_ready true c)).
  assert (K0 : ready c0 = true /\ stream_writable c0 = true) by done.
  clearbody c0.
  set (c1 := match selected_db c0 with Some d => _ | None => c0 end).
  assert (K1 : ready c1 = true /\ stream_writable c1 = true).
  { subst c1. destruct (selected_db c0) as [d|]; [| done].
    pose proof (sview_internal_send_command (new_Command (str "select") [d] None None) c0)
      as S.
    destruct K0 as [R0 W0].
    split; [transitivity (ready c0) | transitivity (stream_writable c0)];
      first [assumption | by_view S ready | by_view S stream_writable]. }
  clearbody c1. clear K0.
  set (c2 := if monitoring c1 then _ else c1).
  assert (K2 : ready c2 = true /\ stream_writable c2 = true).
  { subst c2. destruct (monitoring c1); [| done].
    pose proof (sview_internal_send_command (new_Command (str "monitor") [] None None) c1)
      as S.
    destruct K1 as [R1 W1].
    split; [transitivity (ready c1) | transitivity (stream_writable c1)];
      first [assumption | by_view S ready | by_view S stream_writable]. }
  clearbody c2. clear K1. destruct K2 as [R2 W2].
  destruct (_ && _).
  - apply send_offline_queue_total.
    + pose proof (sview_resubscribe (length (ready_cells c2))
                    (map_to_list (subscription_set c2))
                    (set_ready_cells
                       (ready_cells c2 ++ [Z.of_nat (size (subscription_set c2))]) c2))
        as S.
      transitivity (ready (set_ready_cells
        (ready_cells c2 ++ [Z.of_nat (size (subscription_set c2))]) c2)); [| exact R2].
      by_view S ready.
    + pose proof (sview_resubscribe (length (ready_cells c2))
                    (map_to_list (subscription_set c2))
                    (set_ready_cells
                       (ready_cells c2 ++ [Z.of_nat (size (subscription_set c2))]) c2))
        as S.
      transitivity (stream_writable (set_ready_cells
        (ready_cells c2 ++ [Z.of_nat (size (subscription_set c2))]) c2)); [| exact W2].
      by_view S stream_writable.
  - destruct (send_offline_queue_total c2 R2 W2) as (c3 & ->). by eexists.
Qed.

(** X12.  A connect event on a client whose stream can be written to is
    handled to the end, and the retry bookkeeping starts afresh whatever
    went before: first attempt, delay 200, no time spent, no timer.  The
    client is connected and ready, and the offline queue has been
    emptied. *)
Theorem connect_restarts_the_retry_budget c :
  stream_writable c = true ->
  exists c',
    on_connect c = Some c'
    /\ attempts c' = 1 /\ retry_delay c' = 200 /\ retry_totaltime c' = 0
    /\ retry_timer c' = None
    /\ connected c' = true /\ ready c' = true /\ emitted_end c' = false
    /\ times_connected c' = times_connected c + 1
    /\ offline_queue c' = [].
Proof.
  intros W. unfold on_connect. cbv zeta.
  set (c0 := initialize_retry_vars _).
  destruct (on_ready_total c0 W) as (c' & H). exists c'. split; [exact H |].
  destruct (on_ready_sview c0 c' H) as (E & cells & S).
  assert (X : forall {A} (f : RedisClient -> A),
            (forall x, f (sview x) = f x) ->
            f c' = f (set_ready_cells cells (set_corkable true (set_ready true c0)))).
  { intros A f F. by rewrite <- (F c'), S, F. }
  repeat split; try exact E;
    first [ exact (X _ attempts (fun _ => eq_refl))
          | exact (X _ retry_delay (fun _ => eq_refl))
          | exact (X _ retry_totaltime (fun _ => eq_refl))
          | exact (X _ retry_timer (fun _ => eq_refl))
          | exact (X _ connected (fun _ => eq_refl))
          | exact (X _ ready (fun _ => eq_refl))
          | exact (X _ emitted_end (fun _ => eq_refl))
          | exact (X _ times_connected (fun _ => eq_refl)) ].
Qed.

Lemma connect_restarts_the_retry_budget_witness :
  exists c',
    on_connect (set_attempts 7 (set_retry_delay 2841 (RedisClient_new default_options)))
    = Some c'
    /\ attempts c' = 1 /\ retry_delay c' = 200.
Proof.
  destruct (connect_restarts_the_retry_budget
              (set_attempts 7 (set_retry_delay 2841 (RedisClient_new default_options)))
              eq_refl) as (c' & H & A & D & _).
  exists c'. repeat split; assumption.
Defined.

(** ** Disconnects *)

Lemma mview_mark_disconnected c : mview (mark_disconnected c) = mview c.
Proof. destruct c as [? ? ? ? ee]. unfold mark_disconnected. by destruct ee. Qed.

Lemma dview_flush_and_error_both message code origin c :
  dview (flush_and_error message code origin None c) = dview c.
Proof.
  destruct (flush_and_error_both message code origin c) as (_ & _ & B & _).
  cbv zeta in B. by_view B dview.
Qed.

Lemma dview_flush_and_error_in_flight message code origin c :
  dview (flush_and_error message code origin (Some [Command_queue]) c) = dview c.
Proof.
  destruct (flush_and_error_in_flight message code origin c) as (_ & B & _).
  cbv zeta in B. cbn [erase] in B. by_view B dview.
Qed.

(** Whatever [connection_gone] does, it leaves the rest of the client
    alone. *)
Lemma dview_connection_gone why error c : dview (connection_gone why error c) = dview c.
Proof.
  unfold connection_gone. destruct (retry_timer c); [done |]. cbv zeta.
  pose proof (mview_mark_disconnected c) as M.
  assert (D : dview (mark_disconnected c) = dview c) by by_view M dview.
  clear M. generalize dependent (mark_disconnected c). intros c0 D. rewrite <- D. clear D c.
  destruct (closing c0); [apply dview_flush_and_error_both |].
  assert (E : forall origin,
            dview (end_ false
                     (flush_and_error (str "Stream connection ended and command aborted.")
                        (str "NR_CLOSED") origin None c0)) = dview c0).
  { intros origin. rewrite <- (dview_flush_and_error_both
      (str "Stream connection ended and command aborted.") (str "NR_CLOSED") origin c0).
    reflexivity. }
  set (strategy := match retry_strategy (options c0) with Some f => _ | None => None end).
  assert (X : forall c1, dview c1 = dview c0 ->
    dview
      (if budget_exhausted c1 then
         end_ false
           (emit_error
              (JsError PlainError (broken_message c1) (Some (str "CONNECTION_BROKEN"))
                 None None error [])
              (flush_and_error (broken_message c1) (str "CONNECTION_BROKEN") error
                 None c1))
       else
         let c2 :=
           if retry_unfulfilled_commands (options c1) then
             set_command_queue []
               (set_offline_queue (unshift_apply (offline_queue c1) (command_queue c1)) c1)
           else
             match command_queue c1 with
             | [] => c1
             | _ :: _ =>
               flush_and_error (str "Redis connection lost and command aborted.")
                 (str "UNCERTAIN_STATE") error (Some [Command_queue]) c1
             end in
         let c3 := set_retry_delay (capped_retry_delay c2) c2 in
         set_retry_timer (Some (retry_delay c3, error)) c3) = dview c0).
  { intros c1 <-. destruct (budget_exhausted c1).
    - rewrite <- (dview_flush_and_error_both (broken_message c1)
                    (str "CONNECTION_BROKEN") error c1). reflexivity.
    - cbv zeta.
      set (c2 := if retry_unfulfilled_commands (options c1) then _ else _).
      transitivity (dview c2); [reflexivity |]. subst c2.
      destruct (retry_unfulfilled_commands (options c1)); [reflexivity |].
      destruct (command_queue c1); [reflexivity |].
      apply dview_flush_and_error_in_flight. }
  destruct strategy as [[d | e |]|]; [| apply E | apply E |]; by apply X.
Qed.

(** X13.  A disconnect resets the pub/sub mode but not the rest of the
    session state: whatever branch [connection_gone] takes, the reply mode
    of [CLIENT REPLY], the [monitoring] flag, the countdown of
    acknowledgements, the pipeline queue and [fire_strings] are what they
    were. *)
Theorem disconnect_keeps_the_session_state why error c :
  let c' := connection_gone why error c in
  reply c' = reply c
  /\ monitoring c' = monitoring c
  /\ sub_commands_left c' = sub_commands_left c
  /\ pipeline_queue c' = pipeline_queue c
  /\ fire_strings c' = fire_strings c.
Proof.
  pose proof (dview_connection_gone why error c) as D. cbv zeta.
  repeat split; [by_view D reply | by_view D monitoring | by_view D sub_commands_left
                 | by_view D pipeline_queue | by_view D fire_strings].
Qed.

Lemma capped_retry_delay_ext c c' :
  retry_max_delay c' = retry_max_delay c -> retry_delay c' = retry_delay c ->
  connect_timeout c' = connect_timeout c -> retry_totaltime c' = retry_totaltime c ->
  capped_retry_delay c' = capped_retry_delay c.
Proof. unfold capped_retry_delay. by intros -> -> -> ->. Qed.

Lemma budget_exhausted_ext c c' :
  max_attempts c' = max_attempts c -> attempts c' = attempts c ->
  connect_timeout c' = connect_timeout c -> retry_totaltime c' = retry_totaltime c ->
  budget_exhausted c' = budget_exhausted c.
Proof. unfold budget_exhausted. by intros -> -> -> ->. Qed.

Lemma mark_disconnected_adds c : adds end_event c (mark_disconnected c).
Proof.
  destruct c as [? ? ? ? ee]. unfold mark_disconnected.
  destruct ee; [by apply adds_same_events |].
  exists [Emit (str "end") []]. split; [reflexivity | by repeat constructor].
Qed.

(** The disconnect that schedules a retry: the state in which the timer is
    set. *)
Lemma connection_gone_retry why error c :
  retry_timer c = None -> closing c = false -> retry_strategy (options c) = None ->
  budget_exhausted c = false ->
  exists c0 c2,
    mview c0 = mview c /\ adds end_event c c0
    /\ c2 = (if retry_unfulfilled_commands (options c) then
               set_command_queue []
                 (set_offline_queue (unshift_apply (offline_queue c) (command_queue c)) c0)
             else
               match command_queue c with
               | [] => c0
               | _ :: _ =>
                 flush_and_error (str "Redis connection lost and command aborted.")
                   (str "UNCERTAIN_STATE") error (Some [Command_queue]) c0
               end)
    /\ capped_retry_delay c2 = capped_retry_delay c
    /\ connection_gone why error c
       = set_retry_timer (Some (capped_retry_delay c2, error))
           (set_retry_delay (capped_retry_delay c2) c2).
Proof.
  intros T C S B. unfold connection_gone. rewrite T. cbv zeta.
  pose proof (mview_mark_disconnected c) as M.
  pose proof (mark_disconnected_adds c) as A.
  generalize dependent (mark_disconnected c). intros c0 M A.
  assert (K : closing c0 = false /\ options c0 = options c
              /\ command_queue c0 = command_queue c
              /\ offline_queue c0 = offline_queue c
              /\ budget_exhausted c0 = false
              /\ capped_retry_delay c0 = capped_retry_delay c).
  { repeat split; [transitivity (closing c); [by_view M closing | exact C]
                   | by_view M options | by_view M command_queue
                   | by_view M offline_queue | transitivity (budget_exhausted c); [| exact B] |].
    - apply budget_exhausted_ext; [by_view M max_attempts | by_view M attempts
                                   | by_view M connect_timeout | by_view M retry_totaltime].
    - apply capped_retry_delay_ext; [by_view M retry_max_delay | by_view M retry_delay
                                     | by_view M connect_timeout
                                     | by_view M retry_totaltime]. }
  destruct K as (K1 & K2 & K3 & K4 & K5 & K6).
  rewrite K1, K2, S. cbv iota. rewrite ?K2, K5, K3, K4. cbv iota.
  eexists c0, _. split; [exact M |]. split; [exact A |]. split; [reflexivity |].
  split; [| reflexivity]. rewrite <- K6.
  destruct (retry_unfulfilled_commands (options c)); [done |].
  destruct (command_queue c); [done |].
  pose proof (dview_flush_and_error_in_flight (str "Redis connection lost and command aborted.")
                (str "UNCERTAIN_STATE") error c0) as D.
  destruct (flush_and_error_in_flight (str "Redis connection lost and command aborted.")
              (str "UNCERTAIN_STATE") error c0) as (_ & E & _).
  cbv zeta in E. cbn [erase] in E.
  apply capped_retry_delay_ext; [by_view E retry_max_delay | by_view E retry_delay
                                 | by_view E connect_timeout | by_view E retry_totaltime].
Qed.

(** X14.  A disconnect that is acted upon, on a client that is not closing,
    has no [retry_strategy] and has budget left, schedules one retry: the
    timer is set with the capped delay, which is never above
    [retry_max_delay] nor above the delay before the caps, and the
    in-flight queue is left empty. *)
Theorem disconnect_schedules_a_retry why error c :
  retry_timer c = None -> closing c = false -> retry_strategy (options c) = None ->
  budget_exhausted c = false ->
  let c' := connection_gone why error c in
  retry_timer c' = Some (capped_retry_delay c, error)
  /\ retry_delay c' = capped_retry_delay c
  /\ capped_retry_delay c <= retry_delay c
  /\ (forall m, retry_max_delay c = Some m -> capped_retry_delay c <= m)
  /\ command_queue c' = []
  /\ closing c' = false.
Proof.
  intros T C S B c'. subst c'.
  destruct (connection_gone_retry why error c T C S B) as (c0 & c2 & M & A & E2 & K & ->).
  rewrite K. split; [reflexivity |]. split; [reflexivity |]. split; [| split].
  { unfold capped_retry_delay.
    repeat match goal with
           | |- context [match ?x with Some _ => _ | None => _ end] => destruct x
           | |- context [if (?a <? ?b) then _ else _] => destruct (Z.ltb_spec a b)
           end; lia. }
  { intros m E. unfold capped_retry_delay. rewrite E.
    repeat match goal with
           | |- context [if (?a <? ?b) then _ else _] => destruct (Z.ltb_spec a b)
           end; lia. }
  assert (Q : command_queue c2 = [] /\ closing c2 = false).
  { assert (closing c0 = false) as C0
      by (transitivity (closing c); [by_view M closing | exact C]).
    rewrite E2. destruct (retry_unfulfilled_commands (options c)); [done |].
    destruct (command_queue c) eqn:Q.
    - split; [| exact C0]. rewrite <- Q. by_view M command_queue.
    - destruct (flush_and_error_in_flight (str "Redis connection lost and command aborted.")
                  (str "UNCERTAIN_STATE") error c0) as (F & E & _).
      cbv zeta in E, F. cbn [erase] in E. split; [exact F |].
      transitivity (closing c0); [by_view E closing | exact C0]. }
  exact Q.
Qed.

Lemma disconnect_schedules_a_retry_witness :
  retry_timer (connection_gone "close" None (limited_client false)) = Some (200, None)
  /\ command_queue (connection_gone "close" None (limited_client false)) = [].
Proof.
  destruct (disconnect_schedules_a_retry "close" None (limited_client false)
              eq_refl eq_refl eq_refl eq_refl) as (H1 & _ & _ & _ & H2 & _).
  split; [exact H1 | exact H2].
Defined.

(** X15.  With [retry_unfulfilled_commands], a disconnect that schedules a
    retry keeps one of the commands in flight for the retry: the one at the
    head of the queue, which is put in front of the offline queue.  The
    commands behind it are dropped: the offline queue gains nothing else,
    the in-flight queue is emptied, and none is completed, now or on a
    later tick; the trace gains at most the [end] event. *)
Theorem first_unfulfilled_command_waits_for_the_retry why error c :
  retry_timer c = None -> closing c = false -> retry_strategy (options c) = None ->
  budget_exhausted c = false ->
  retry_unfulfilled_commands (options c) = true ->
  let c' := connection_gone why error c in
  offline_queue c' = take 1 (command_queue c) ++ offline_queue c
  /\ command_queue c' = []
  /\ ticks c' = ticks c
  /\ adds end_event c c'.
Proof.
  intros T C S B U c'. subst c'.
  destruct (connection_gone_retry why error c T C S B) as (c0 & c2 & M & A & E2 & K & ->).
  rewrite U in E2. subst c2.
  split; [apply unshift_apply_take |]. split; [reflexivity |].
  split; [change (ticks c0 = ticks c); by_view M ticks |].
  destruct A as (new & E & F). exists new. split; [exact E | exact F].
Qed.

Lemma first_unfulfilled_command_waits_for_the_retry_witness :
  command_queue two_in_flight = [get_k; set_k]
  /\ offline_queue (connection_gone "close" None two_in_flight) = [get_k]
  /\ command_queue (connection_gone "close" None two_in_flight) = [].
Proof.
  destruct (first_unfulfilled_command_waits_for_the_retry "close" None two_in_flight
              eq_refl eq_refl eq_refl eq_refl eq_refl) as (H1 & H2 & _).
  split; [reflexivity |]. split; [exact H1 | exact H2].
Defined.

(** [flush_and_error] over the in-flight queue: the functions of the caller
    behind the flushed commands are called with the error. *)
Lemma flush_and_error_in_flight_sinks message code origin c :
  code <> str "NR_CLOSED" ->
  let c' := flush_and_error message code origin (Some [Command_queue]) c in
  forall o cb id,
    In o (command_queue c) -> callback o = Some cb -> In id (user_sinks cb) ->
    exists res,
      emitted c c'
        (Call id (Some (abort_error (message ++ processed_suffix) code origin o)) res).
Proof.
  intros NC. unfold flush_and_error.
  cbn [default from_option id flush_queues get_queue fst].
  set (m1 := message ++ processed_suffix).
  pose proof (flush_commands_spec Command_queue (command_queue c) m1 code origin c [])
    as (E1 & C1 & Q1 & S1).
  destruct (flush_commands Command_queue (command_queue c) m1 code origin (c, []))
    as [c1 agg1]. cbn [fst get_queue] in E1, C1, Q1, S1 |- *.
  pose proof (flush_debug_tail_spec (debug_mode (options c1)) code m1 agg1 c1) as (E3 & C3).
  cbv zeta in E3, C3. cbv beta iota zeta.
  set (c3 := if debug_mode (options c1) then _ else c1) in *.
  intros o cb id I CB U.
  destruct (S1 o cb id I CB U) as (res & E).
  { unfold has_code, abort_error. cbn [err_code].
    apply bool_decide_eq_false. congruence. }
  exists res. by eapply emitted_then.
Qed.

(** X16.  Without [retry_unfulfilled_commands], a disconnect that schedules
    a retry completes every command in flight with an [AbortError] of code
    [UNCERTAIN_STATE] that names the command and carries the error of the
    disconnect as its [origin]; the offline queue stays as it is. *)
Theorem commands_in_flight_are_aborted why error c :
  retry_timer c = None -> closing c = false -> retry_strategy (options c) = None ->
  budget_exhausted c = false ->
  retry_unfulfilled_commands (options c) = false ->
  let c' := connection_gone why error c in
  request <$> offline_queue c' = request <$> offline_queue c
  /\ forall o cb id,
     In o (command_queue c) -> callback o = Some cb -> In id (user_sinks cb) ->
     exists e res,
       err_class e = AbortError
       /\ err_code e = Some (str "UNCERTAIN_STATE")
       /\ err_command e = Some (toUpperCase (command o))
       /\ err_origin e = error
       /\ emitted c c' (Call id (Some e) res).
Proof.
  intros T C S B U c'. subst c'.
  destruct (connection_gone_retry why error c T C S B) as (c0 & c2 & M & A & E2 & K & ->).
  rewrite U in E2.
  assert (Q0 : command_queue c0 = command_queue c) by by_view M command_queue.
  assert (O0 : offline_queue c0 = offline_queue c) by by_view M offline_queue.
  destruct (command_queue c) as [|o0 rest] eqn:Q.
  { subst c2. split; [by rewrite <- O0 | intros ? ? ? []]. }
  destruct (flush_and_error_in_flight (str "Redis connection lost and command aborted.")
              (str "UNCERTAIN_STATE") error c0) as (_ & E & _).
  pose proof (flush_and_error_in_flight_sinks
                (str "Redis connection lost and command aborted.")
                (str "UNCERTAIN_STATE") error c0 ltac:(discriminate)) as F.
  cbv zeta in E, F. cbn [erase] in E. rewrite <- E2 in E, F.
  split.
  { change (request <$> offline_queue c2 = request <$> offline_queue c).
    rewrite <- O0. f_equal. by_view E offline_queue. }
  intros o cb id I CB SK. rewrite Q0 in F.
  destruct (F o cb id I CB SK) as (res & H).
  exists (abort_error (str "Redis connection lost and command aborted." ++ processed_suffix)
            (str "UNCERTAIN_STATE") error o), res.
  do 4 (split; [reflexivity |]).
  apply (emitted_after c c0); [by eapply adds_continues |].
  destruct H as (new & H1 & H2). exists new. split; [exact H1 | exact H2].
Qed.

Lemma commands_in_flight_are_aborted_witness :
  exists e res,
    err_code e = Some (str "UNCERTAIN_STATE")
    /\ emitted (limited_client false)
         (connection_gone "close" None (limited_client false)) (Call 1 (Some e) res).
Proof.
  destruct (commands_in_flight_are_aborted "close" None (limited_client false)
              eq_refl eq_refl eq_refl eq_refl eq_refl) as (_ & H).
  destruct (H get_k (UserCb 1) 1%nat (or_introl eq_refl) eq_refl (or_introl eq_refl))
    as (e & res & _ & H2 & _ & _ & H5).
  exists e, res. split; [exact H2 | exact H5].
Defined.

(** X17.  The retry that a disconnect schedules reports, when its timer
    fires, the delay that was scheduled, and spends it: [retry_totaltime]
    grows by that delay, [attempts] by one, the next delay is 1.7 times the
    delay, rounded, and a new stream is made.  Unless [retry_max_delay] cut
    the delay, the time spent stays within [connect_timeout]. *)
Theorem retry_spends_the_scheduled_delay why error c :
  retry_timer c = None -> closing c = false -> retry_strategy (options c) = None ->
  budget_exhausted c = false ->
  let c1 := connection_gone why error c in
  let c2 := retry_connection c1 in
  emitted c1 c2
    (EmitReconnecting (capped_retry_delay c) (attempts c) error (retry_totaltime c)
       (times_connected c))
  /\ retry_totaltime c2 = retry_totaltime c + capped_retry_delay c
  /\ attempts c2 = attempts c + 1
  /\ retry_delay c2 = backoff (capped_retry_delay c)
  /\ retry_timer c2 = None
  /\ stream_writable c2 = true
  /\ ((forall m, retry_max_delay c = Some m -> retry_delay c <= m) ->
      retry_totaltime c2 <= connect_timeout c).
Proof.
  intros T C S B c1 c2.
  pose proof (dview_connection_gone why error c) as D. fold c1 in D.
  assert (K : retry_totaltime c1 = retry_totaltime c /\ attempts c1 = attempts c
              /\ times_connected c1 = times_connected c).
  { repeat split; [by_view D retry_totaltime | by_view D attempts
                   | by_view D times_connected]. }
  destruct K as (K1 & K2 & K3).
  assert (R : retry_timer c1 = Some (capped_retry_delay c, error)
              /\ retry_delay c1 = capped_retry_delay c).
  { subst c1.
    destruct (connection_gone_retry why error c T C S B) as (c0 & c3 & _ & _ & _ & K & ->).
    by rewrite K. }
  destruct R as (R1 & R2). clearbody c1. subst c2. unfold retry_connection. rewrite R1.
  cbv zeta. split.
  { exists [EmitReconnecting (retry_delay c1) (attempts c1) error (retry_totaltime c1)
              (times_connected c1); StreamDestroy; StreamCreate].
    split; [cbn; by rewrite <- !app_assoc |]. left. by rewrite R2, K1, K2, K3. }
  split; [cbn; by rewrite K1, R2 |]. split; [cbn; by rewrite K2 |].
  split; [cbn; by rewrite R2 |]. split; [reflexivity |]. split; [reflexivity |].
  intros M. cbn. rewrite K1, R2. unfold budget_exhausted in B.
  apply orb_false_iff in B as [_ B]. apply Z.leb_gt in B.
  unfold capped_retry_delay. destruct (retry_max_delay c) as [m|].
  - specialize (M m eq_refl). destruct (Z.ltb_spec m (retry_delay c)); [lia |].
    destruct (Z.ltb_spec (connect_timeout c) (retry_totaltime c + retry_delay c)); lia.
  - destruct (Z.ltb_spec (connect_timeout c) (retry_totaltime c + retry_delay c)); lia.
Qed.

Lemma retry_spends_the_scheduled_delay_witness :
  retry_totaltime
    (retry_connection (connection_gone "close" None (limited_client false))) = 200
  /\ retry_delay
       (retry_connection (connection_gone "close" None (limited_client false))) = 340.
Proof.
  destruct (retry_spends_the_scheduled_delay "close" None (limited_client false)
              eq_refl eq_refl eq_refl eq_refl) as (_ & H1 & _ & H2 & _).
  split; [exact H1 | exact H2].
Defined.

(** ** Fatal errors and [quit] *)

(** X18.  A fatal error of the parser completes every command in flight
    with an [AbortError] of code [NR_FATAL] whose [origin] is the parser's
    error, leaves the offline queue as it is, emits the error (its message
    ending in [. Please report this.]) and makes a new stream; the client
    is not ready until that stream connects. *)
Theorem fatal_error_aborts_the_commands_in_flight err c :
  let err' := with_message (err_message err ++ str ". Please report this.") err in
  let c' := return_fatal_error err c in
  command_queue c' = []
  /\ request <$> offline_queue c' = request <$> offline_queue c
  /\ ready c' = false
  /\ stream_writable c' = true
  /\ emitted c c' (EmitError err')
  /\ (exists old, events c' = old ++ [EmitError err'; StreamDestroy; StreamCreate])
  /\ forall o cb id,
     In o (command_queue c) -> callback o = Some cb -> In id (user_sinks cb) ->
     exists e res,
       err_class e = AbortError
       /\ err_code e = Some (str "NR_FATAL")
       /\ err_origin e = Some err'
       /\ emitted c c' (Call id (Some e) res).
Proof.
  intros err' c'. subst c'. unfold return_fatal_error. cbv zeta. fold err'.
  set (c0 := set_ready false c).
  destruct (flush_and_error_in_flight (str "Fatal error encountered. Command aborted.")
              (str "NR_FATAL") (Some err') c0) as (Q & E & C).
  pose proof (flush_and_error_in_flight_sinks (str "Fatal error encountered. Command aborted.")
                (str "NR_FATAL") (Some err') c0 ltac:(discriminate)) as F.
  cbv zeta in Q, E, C, F. cbn [erase] in E.
  generalize dependent (flush_and_error (str "Fatal error encountered. Command aborted.")
                          (str "NR_FATAL") (Some err') (Some [Command_queue]) c0).
  intros c1 Q E C F.
  assert (X : events (create_stream (emit_error err' c1))
              = events c1 ++ [EmitError err'; StreamDestroy; StreamCreate]).
  { cbn. by rewrite <- !app_assoc. }
  split; [exact Q |]. split.
  { change (request <$> offline_queue c1 = request <$> offline_queue c0).
    f_equal. by_view E offline_queue. }
  split; [change (ready c1 = ready c0); by_view E ready |].
  split; [reflexivity |]. split.
  { apply (emitted_after c c1); [exact C |].
    exists [EmitError err'; StreamDestroy; StreamCreate]. split; [exact X | by left]. }
  split; [by exists (events c1) |].
  intros o cb id I CB U. destruct (F o cb id I CB U) as (res & H).
  exists (abort_error (str "Fatal error encountered. Command aborted." ++ processed_suffix)
            (str "NR_FATAL") (Some err') o), res.
  do 3 (split; [reflexivity |]).
  apply (emitted_then c c1); [exact H |].
  exists [EmitError err'; StreamDestroy; StreamCreate].
  split; [exact X | by repeat constructor].
Qed.

Lemma fatal_error_aborts_the_commands_in_flight_witness :
  exists e res,
    err_code e = Some (str "NR_FATAL")
    /\ emitted (limited_client false)
         (return_fatal_error protocol_error (limited_client false)) (Call 1 (Some e) res).
Proof.
  destruct (fatal_error_aborts_the_commands_in_flight protocol_error (limited_client false))
    as (_ & _ & _ & _ & _ & _ & H).
  destruct (H get_k (UserCb 1) 1%nat (or_introl eq_refl) eq_refl (or_introl eq_refl))
    as (e & res & _ & H2 & _ & H4).
  exists e, res. split; [exact H2 | exact H4].
Defined.

(** X19.  After [quit] the client is closing and not ready, and a
    disconnect that follows schedules no retry: the timer is what it was
    before [quit].  When no retry was pending the disconnect ends the
    client, with both queues left empty; when one was pending the
    disconnect is ignored. *)
Theorem quit_then_disconnect_does_not_retry cb c why error :
  let c1 := (quit cb c).1 in
  let c2 := connection_gone why error c1 in
  closing c1 = true /\ ready c1 = false
  /\ retry_timer c2 = retry_timer c
  /\ closing c2 = true
  /\ (retry_timer c = None -> command_queue c2 = [] /\ offline_queue c2 = [])
  /\ (retry_timer c <> None -> c2 = c1).
Proof.
  intros c1 c2.
  assert (K : closing c1 = true /\ ready c1 = false /\ retry_timer c1 = retry_timer c).
  { subst c1. unfold quit.
    pose proof (sview_internal_send_command
                  (new_Command (str "quit") [] (Some (QuitCb cb)) None) c) as S.
    destruct (internal_send_command _ c) as [c' b]. cbn [fst] in *.
    split; [reflexivity |]. split; [reflexivity |].
    change (retry_timer c' = retry_timer c). by_view S retry_timer. }
  destruct K as (K1 & K2 & K3). split; [exact K1 |]. split; [exact K2 |].
  clearbody c1. subst c2. unfold connection_gone. rewrite K3.
  destruct (retry_timer c) as [t|] eqn:T.
  { split; [exact K3 |]. split; [exact K1 |]. split; [discriminate | reflexivity]. }
  cbv zeta.
  pose proof (mview_mark_disconnected c1) as M.
  generalize dependent (mark_disconnected c1). intros c0 M.
  assert (C0 : closing c0 = true) by (transitivity (closing c1); [by_view M closing | done]).
  assert (T0 : retry_timer c0 = None)
    by (transitivity (retry_timer c1); [by_view M retry_timer | done]).
  rewrite C0.
  destruct (flush_and_error_both (str "Stream connection ended and command aborted.")
              (str "NR_CLOSED") error c0) as (Q1 & Q2 & B & _).
  cbv zeta in Q1, Q2, B.
  split; [transitivity (retry_timer c0); [by_view B retry_timer | exact T0] |].
  split; [transitivity (closing c0); [by_view B closing | exact C0] |].
  split; [by intros _ | done].
Qed.

Lemma quit_then_disconnect_does_not_retry_witness :
  retry_timer (connection_gone "close" None (quit (Some (UserCb 1)) ready_client).1) = None
  /\ closing (quit (Some (UserCb 1)) ready_client).1 = true
  /\ offline_queue (connection_gone "close" None (quit (Some (UserCb 1)) ready_client).1)
     = [].
Proof.
  destruct (quit_then_disconnect_does_not_retry (Some (UserCb 1)) ready_client "close" None)
    as (H1 & _ & H2 & _ & H3 & _).
  split; [exact H2 |]. split; [exact H1 |]. exact (proj2 (H3 eq_refl)).
Defined.

(** ** What a connection starts with *)

Lemma write_all_adds l c : adds send_event c (write_all l c).
Proof.
  destruct (pipeline c) eqn:P.
  - destruct (write_all_corked l c P) as (E & _). by apply adds_same_events.
  - destruct (write_all_direct l c P) as (E & _). exists (StreamWrite <$> l).
    split; [exact E |]. apply Forall_fmap, Forall_forall. by intros.
Qed.

Lemma write_now_adds o c : adds send_event c (write_now o c).
Proof.
  destruct (write_now_writes o c) as (E & _). cbv zeta in E.
  set (c1 := set_events _ c) in E.
  set (c2 := if big_data _ then _ else _) in E.
  assert (A : adds send_event c c2).
  { exists (Warn <$> warnings (copy_args (command o) (args o))). split.
    - subst c2 c1. by destruct (big_data _).
    - apply Forall_fmap, Forall_forall. by intros. }
  destruct (write_all_adds (command_fragments o c1) c2) as (new & E' & F).
  eapply adds_trans; [exact A |]. exists new. split; [| exact F]. by rewrite E.
Qed.

(** Sending a command adds warnings and writes to the trace, nothing else. *)
Lemma internal_send_command_adds o c : adds send_event c (internal_send_command o c).1.
Proof.
  unfold internal_send_command.
  assert (V : events (with_promise o c).2 = events c)
    by (unfold with_promise; by destruct (callback o)).
  destruct (with_promise o c) as [[o' d] c']. cbn [snd] in V.
  destruct (negb (ready c') || negb (stream_writable c')); cbn [fst].
  - apply adds_same_events. rewrite <- V. unfold handle_offline_command.
    destruct (closing c' || negb (enable_offline_queue c')); [| done].
    apply reply_in_order_requests.
  - destruct (write_now_adds o' c') as (new & E & F). exists new. by rewrite E, V.
Qed.

Lemma resubscribe_adds cell l : forall c, adds send_event c (foldl (resubscribe cell) c l).
Proof.
  induction l as [|e l IH]; intros c; [apply adds_refl |]. cbn [foldl].
  eapply adds_trans; [| apply IH]. apply internal_send_command_adds.
Qed.

Lemma send_offline_loop_adds n : forall c c',
  send_offline_loop n c = Some c' -> adds send_event c c'.
Proof.
  induction n as [|n IH]; intros c c' H; [done |]. cbn [send_offline_loop] in H.
  destruct (offline_queue c) as [|o rest]; [injection H as <-; apply adds_refl |].
  apply IH in H. eapply adds_trans; [| exact H].
  destruct (internal_send_command_adds o (set_offline_queue rest c)) as (new & E & F).
  exists new. split; [exact E | exact F].
Qed.

(** The requests in flight stay in front when a command is sent. *)
Lemma internal_send_command_keeps_front o c :
  exists l,
    request <$> command_queue (internal_send_command o c).1
    = (request <$> command_queue c) ++ l.
Proof.
  unfold internal_send_command.
  assert (V : command_queue (with_promise o c).2 = command_queue c)
    by (unfold with_promise; by destruct (callback o)).
  destruct (with_promise o c) as [[o' d] c']. cbn [snd] in V. rewrite <- V.
  destruct (negb (ready c') || negb (stream_writable c')); cbn [fst].
  - exists []. rewrite app_nil_r. unfold handle_offline_command.
    destruct (closing c' || negb (enable_offline_queue c')); [| done].
    apply reply_in_order_requests.
  - destruct (write_now_decides o' c') as (c1 & -> & K & _). rewrite <- K.
    unfold enqueue_or_skip.
    assert (X : request <$> command_queue
                  match callback (flagged o') with
                  | Some cb => reply_in_order (Some cb) None undefined (Some Command_queue) c1
                  | None => c1
                  end = request <$> command_queue c1).
    { destruct (callback (flagged o')); [apply reply_in_order_requests | done]. }
    destruct (reply c1).
    + exists [request (flagged o')]. cbn. by rewrite fmap_app.
    + exists []. by rewrite app_nil_r.
    + exists []. rewrite app_nil_r. exact X.
    + exists []. rewrite app_nil_r. exact X.
Qed.

Lemma resubscribe_keeps_front cell l : forall c,
  exists k,
    request <$> command_queue (foldl (resubscribe cell) c l)
    = (request <$> command_queue c) ++ k.
Proof.
  induction l as [|e l IH]; intros c; [exists []; by rewrite app_nil_r |]. cbn [foldl].
  destruct (IH (resubscribe cell c e)) as (k & ->).
  destruct (internal_send_command_keeps_front
              (new_Command (key_command e.1) [e.2] (Some (ReadyCb cell)) (Some PubSubHook)) c)
    as (k' & E).
  exists (k' ++ k). unfold resubscribe, subscribe_family. by rewrite E, app_assoc.
Qed.

Lemma send_offline_loop_keeps_front n : forall c c',
  send_offline_loop n c = Some c' ->
  exists k, request <$> command_queue c' = (request <$> command_queue c) ++ k.
Proof.
  induction n as [|n IH]; intros c c' H; [done |]. cbn [send_offline_loop] in H.
  destruct (offline_queue c) as [|o rest]; [injection H as <-; exists []; by rewrite app_nil_r |].
  apply IH in H as (k & ->).
  destruct (internal_send_command_keeps_front o (set_offline_queue rest c)) as (k' & E).
  exists (k' ++ k). by rewrite E, app_assoc.
Qed.

Lemma adds_written P c c' :
  adds P c c' -> exists more, written (events c') = written (events c) ++ more.
Proof. intros (new & E & _). exists (written new). by rewrite E, written_app. Qed.

(** [on_ready] after its first statements: what follows the SELECT keeps
    the requests in flight in front and only adds to the trace. *)
Lemma on_ready_after_select c c' :
  on_ready c = Some c' ->
  let c0 := set_corkable true (set_ready true c) in
  let c1 :=
    match selected_db c0 with
    | Some d => (internal_send_command (new_Command (str "select") [d] None None) c0).1
    | None => c0
    end in
  (exists k, request <$> command_queue c' = (request <$> command_queue c1) ++ k)
  /\ continues c1 c'.
Proof.
  unfold on_ready. intros H. cbv zeta in H |- *.
  set (c0 := set_corkable true (set_ready true c)) in *.
  set (c1 := match selected_db c0 with Some d => _ | None => c0 end) in *.
  clearbody c1.
  set (c2 := if monitoring c1 then _ else c1) in H.
  assert (K2 : (exists k, request <$> command_queue c2 = (request <$> command_queue c1) ++ k)
               /\ continues c1 c2).
  { subst c2. destruct (monitoring c1).
    - split; [apply internal_send_command_keeps_front |].
      eapply adds_continues, internal_send_command_adds.
    - split; [exists []; by rewrite app_nil_r | apply continues_refl]. }
  clearbody c2. destruct K2 as ((k2 & Q2) & C2).
  assert (L : forall x y, send_offline_queue x = Some y ->
              (exists k, request <$> command_queue y = (request <$> command_queue x) ++ k)
              /\ continues x y).
  { intros x y E. unfold send_offline_queue in E. apply fmap_Some in E as (z & E & ->).
    split.
    - apply send_offline_loop_keeps_front in E as (k & E). exists k. exact E.
    - apply send_offline_loop_adds in E. eapply continues_trans.
      + eapply adds_continues, E.
      + eapply adds_continues, (adds_log (fun _ => True)). done. }
  destruct (_ && _).
  - apply L in H as ((k & Q) & C).
    set (c3 := set_ready_cells _ c2) in *.
    destruct (resubscribe_keeps_front (length (ready_cells c2))
                (map_to_list (subscription_set c3)) c3) as (k' & Q').
    split.
    + exists (k2 ++ k' ++ k). rewrite Q, Q'. subst c3. cbn [command_queue set_ready_cells].
      by rewrite Q2, <- !app_assoc.
    + eapply continues_trans; [exact C2 |]. eapply continues_trans; [| exact C].
      eapply continues_trans; [| eapply adds_continues, resubscribe_adds].
      by apply continues_same_events.
  - apply fmap_Some in H as (c3 & H & ->). apply L in H as ((k & Q) & C).
    split.
    + exists (k2 ++ k). transitivity (request <$> command_queue c3); [reflexivity |].
      by rewrite Q, Q2, <- app_assoc.
    + eapply continues_trans; [exact C2 |]. eapply continues_trans; [exact C |].
      eapply adds_continues, (adds_log (fun _ => True)). done.
Qed.

(** X20.  On becoming ready with a database selected, the SELECT for it is
    the first command of the new connection: it heads the in-flight queue
    and its text is the first thing written, before MONITOR, the
    subscriptions and the offline queue. *)
Theorem select_is_sent_first_on_ready c d :
  selected_db c = Some d ->
  stream_writable c = true -> command_queue c = [] -> reply c = ON -> pipeline c = false ->
  exists c' rest more,
    on_ready c = Some c'
    /\ request <$> command_queue c' = (str "select", [d]) :: rest
    /\ written (events c')
       = written (events c)
         ++ command_fragments (new_Command (str "select") [d] None None) c ++ more.
Proof.
  intros D W Q R P. destruct (on_ready_total c W) as (c' & H).
  destruct (on_ready_after_select c c' H) as ((k & K) & C). cbv zeta in K, C.
  set (c0 := set_corkable true (set_ready true c)) in *.
  change (selected_db c0) with (selected_db c) in K, C. rewrite D in K, C.
  set (o := new_Command (str "select") [d] None None) in *.
  destruct (internal_send_command_replayed o c0 eq_refl W) as (_ & X).
  destruct (X R I) as (X1 & _).
  destruct (internal_send_command_direct o c0 eq_refl W P) as (Y & _).
  exists c', k. destruct (adds_written _ _ _ C) as (more & M). exists more.
  split; [exact H |]. split.
  - rewrite K, X1. change (command_queue c0) with (command_queue c). by rewrite Q.
  - rewrite M, Y. by rewrite <- app_assoc.
Qed.

Lemma select_is_sent_first_on_ready_witness :
  exists c' rest more,
    on_ready (set_selected_db (Some (text "2")) (RedisClient_new default_options))
    = Some c'
    /\ request <$> command_queue c' = (str "select", [text "2"]) :: rest
    /\ written (events c')
       = [Text (str "*2" ++ crlf ++ str "$6" ++ crlf ++ str "select" ++ crlf
                ++ str "$1" ++ crlf ++ str "2" ++ crlf)] ++ more.
Proof.
  exact (select_is_sent_first_on_ready
           (set_selected_db (Some (text "2")) (RedisClient_new default_options))
           (text "2") eq_refl eq_refl eq_refl eq_refl eq_refl).
Defined.




Lemma countdown cell err res k : forall c z,
  ready_cells c !! cell = Some z ->
  let c' := Nat.iter k (invoke (ReadyCb cell) err res) c in
  ready_cells c' !! cell = Some (z - Z.of_nat k)
  /\ events c'
     = events c ++ (if bool_decide (0 < z <= Z.of_nat k) then [ready_event] else []).
Proof.
  induction k as [|k IH]; intros c z L c'; subst c'.
  - change (Nat.iter 0 (invoke (ReadyCb cell) err res) c) with c.
    rewrite Z.sub_0_r, bool_decide_eq_false_2 by lia.
    by rewrite app_nil_r.
  - rewrite Nat.iter_succ. destruct (IH c z L) as [L' E]. cbv zeta in L', E.
    generalize dependent (Nat.iter k (invoke (ReadyCb cell) err res) c). intros c1 L' E.
    cbn [invoke]. rewrite L'.
    assert (B : (cell < length (ready_cells c1))%nat) by (eapply lookup_lt_Some; eauto).
    destruct (Z.eqb_spec (z - Z.of_nat k - 1) 0) as [Z0 | Z0].
    + split.
      * cbn. rewrite list_lookup_insert_eq by done. f_equal. lia.
      * cbn. rewrite E, bool_decide_eq_false_2 by lia.
        rewrite bool_decide_eq_true_2 by lia. by rewrite app_nil_r.
    + split.
      * cbn. rewrite list_lookup_insert_eq by done. f_equal. lia.
      * cbn. rewrite E. do 2 case_bool_decide; try lia; done.
Qed.

(** X22.  The countdown that [on_ready] starts emits [ready] once, at its
    last step: no call before the one that brings the counter to zero emits
    it, that call does, and no later call does again. *)
Theorem ready_is_emitted_by_the_last_countdown cell n err res c :
  ready_cells c !! cell = Some (Z.of_nat (S n)) ->
  events (Nat.iter n (invoke (ReadyCb cell) err res) c) = events c
  /\ forall k,
     events (Nat.iter (S n + k) (invoke (ReadyCb cell) err res) c)
     = events c ++ [ready_event].
Proof.
  intros L. split.
  - destruct (countdown cell err res n c _ L) as [_ E]. cbv zeta in E.
    rewrite E, bool_decide_eq_false_2 by lia. by rewrite app_nil_r.
  - intros k. destruct (countdown cell err res (S n + k) c _ L) as [_ E]. cbv zeta in E.
    rewrite E, bool_decide_eq_true_2 by lia. done.
Qed.

Lemma ready_is_emitted_by_the_last_countdown_witness :
  events (Nat.iter 1 (invoke (ReadyCb 0) None undefined)
            (set_ready_cells [2] ready_client)) = [StreamCreate]
  /\ events (Nat.iter 2 (invoke (ReadyCb 0) None undefined)
               (set_ready_cells [2] ready_client)) = [StreamCreate; ready_event].
Proof.
  destruct (ready_is_emitted_by_the_last_countdown 0 1 None undefined
              (set_ready_cells [2] ready_client) eq_refl) as [H1 H2].
  split; [exact H1 | exact (H2 0%nat)].
Defined.

(** ** The subscription set *)

Lemma key_command_subscription_key kind channel :
  kind = str "subscribe" \/ kind = str "psubscribe" ->
  key_command (subscription_key kind channel) = kind.
Proof. intros [-> | ->]; reflexivity. Qed.

(** X23.  The key under which an acknowledged subscription is kept names
    the command that replays it: whatever the channel (underscores
    included), [on_ready] resubscribes with the kind of the subscription
    and the channel as its one argument. *)
Theorem subscription_is_replayed_with_its_kind kind channel count cell c0 c :
  kind = str "subscribe" \/ kind = str "psubscribe" ->
  subscription_set (acknowledge kind channel count c0) !! subscription_key kind channel
  = Some channel
  /\ resubscribe cell c (subscription_key kind channel, channel)
     = (subscribe_family kind [channel] (Some (ReadyCb cell)) c).1.
Proof.
  intros K. split.
  - unfold acknowledge.
    assert (jseq kind (str "subscribe") || jseq kind (str "psubscribe") = true) as ->
      by (destruct K as [-> | ->]; reflexivity).
    cbn. apply lookup_insert_eq.
  - unfold resubscribe. cbn [fst snd]. by rewrite key_command_subscription_key.
Qed.

Lemma subscription_is_replayed_with_its_kind_witness :
  resubscribe 0 ready_client (str "psubscribe_news_*", text "news_*")
  = (subscribe_family (str "psubscribe") [text "news_*"] (Some (ReadyCb 0)) ready_client).1.
Proof.
  exact (proj2 (subscription_is_replayed_with_its_kind (str "psubscribe") (text "news_*")
                  (Num 1) 0 ready_client ready_client (or_intror eq_refl))).
Defined.

(** X24.  The acknowledgement of an unsubscription removes what the
    acknowledgement of the subscription to the same channel put into the
    subscription set, and it does not touch the entries of the other kind:
    channels and patterns of the same name are kept apart. *)
Theorem unsubscription_forgets_the_channel kind other channel n m c :
  (kind = str "subscribe" /\ other = str "psubscribe")
  \/ (kind = str "psubscribe" /\ other = str "subscribe") ->
  subscription_set (acknowledge (undo kind) channel m (acknowledge kind channel n c))
  = delete (subscription_key kind channel) (subscription_set c)
  /\ forall channel',
     subscription_set (acknowledge (undo kind) channel m c) !! subscription_key other channel'
     = subscription_set c !! subscription_key other channel'.
Proof.
  intros K. split.
  - destruct K as [[-> ->] | [-> ->]]; unfold acknowledge, undo; cbn;
      apply delete_insert_eq.
  - intros channel'.
    destruct K as [[-> ->] | [-> ->]]; unfold acknowledge, undo; cbn;
      by apply lookup_delete_ne.
Qed.

Lemma unsubscription_forgets_the_channel_witness :
  subscription_set
    (acknowledge (str "unsubscribe") (text "a") (Num 0)
       (acknowledge (str "subscribe") (text "a") (Num 1) ready_client)) = ∅.
Proof.
  exact (eq_trans
           (proj1 (unsubscription_forgets_the_channel (str "subscribe") (str "psubscribe")
                     (text "a") (Num 1) (Num 0) ready_client
                     (or_introl (conj eq_refl eq_refl))))
           eq_refl).
Defined.

(** ** Argument lists *)

Lemma split_callback_spec args :
  let r := split_callback args in
  is_function_or_undefined r.2 = true
  /\ (args = r.1 ++ [r.2]
      \/ (args = r.1 /\ r.2 = AUndefined
          /\ forall front a, args = front ++ [a] -> is_function_or_undefined a = false)).
Proof.
  unfold split_callback. induction args as [|z front _] using rev_ind.
  - cbn. split; [done |]. right. repeat split. intros [|? ?] ? ?; discriminate.
  - rewrite length_app. cbn [length].
    replace (length front + 1 - 1)%nat with (length front) by lia.
    replace (length front + 1 =? 0)%nat with false by (symmetry; apply Nat.eqb_neq; lia).
    cbn [negb andb]. unfold arg_nth. rewrite app_nth2, Nat.sub_diag by lia. cbn [nth].
    destruct (is_function_or_undefined z) eqn:F; cbn [fst snd].
    + split; [exact F |]. left. by rewrite take_app_length.
    + split; [done |]. right. rewrite firstn_all2 by (rewrite length_app; cbn; lia).
      repeat split. intros front' a E. apply app_inj_tail in E as [_ <-]. exact F.
Qed.

(** X25.  [prepare_arguments_optional], when its first argument is not an
    array, neither loses nor reorders an argument: a last argument that is
    a function or [undefined] is taken for the callback, everything before
    it is the argument array; otherwise the whole list is the argument
    array and there is no callback. *)
Theorem optional_arguments_are_split_at_the_callback args :
  is_array_arg (arg_nth args 0) = false ->
  let r := prepare_arguments_optional args in
  is_function_or_undefined r.2 = true
  /\ (args = r.1 ++ [r.2]
      \/ (args = r.1 /\ r.2 = AUndefined
          /\ forall front a, args = front ++ [a] -> is_function_or_undefined a = false)).
Proof.
  intros A. unfold prepare_arguments_optional.
  destruct (arg_nth args 0); try discriminate; apply split_callback_spec.
Qed.

Lemma optional_arguments_are_split_at_the_callback_witness :
  is_function_or_undefined
    (prepare_arguments_optional [AStr (str "a"); AStr (str "b"); AUndefined]).2 = true.
Proof.
  exact (proj1 (optional_arguments_are_split_at_the_callback
                  [AStr (str "a"); AStr (str "b"); AUndefined] eq_refl)).
Defined.

(** X26.  In the form [(key, [values], callback)],
    [prepare_arguments_variable_length] puts the key in front of the values
    and takes the callback only when the function around it was called with
    three arguments: its own argument count is never looked at.  Under the
    module wrapper of Node.js, called with five, the callback is dropped. *)
Theorem array_form_reads_the_outer_argument_count outer key l cb withObject :
  is_array_arg key = false ->
  prepare_arguments_variable_length outer [key; AArray l; cb] withObject
  = (key :: l, if (outer =? 3)%nat then cb else AUndefined)
  /\ prepare_arguments_variable_length module_arguments [key; AArray l; cb] withObject
     = (key :: l, AUndefined).
Proof.
  intros A. unfold prepare_arguments_variable_length. cbn [arg_nth nth].
  by destruct key.
Qed.

Lemma array_form_reads_the_outer_argument_count_witness :
  prepare_arguments_variable_length module_arguments
    [AStr (str "k"); AArray [AStr (str "f"); AStr (str "v")]; AFunction 1] false
  = ([AStr (str "k"); AStr (str "f"); AStr (str "v")], AUndefined).
Proof.
  exact (proj2 (array_form_reads_the_outer_argument_count 0 (AStr (str "k"))
                  [AStr (str "f"); AStr (str "v")] (AFunction 1) false eq_refl)).
Defined.

(** X27.  In the form [(key, object)] or [(key, object, callback)], with
    the callback a function or [undefined], the object is flattened into
    [field, value] pairs behind the key when [withObject] is set, as for
    [hmset] of the client; without it the object stays one argument. *)
Theorem object_form_is_flattened outer key fields rest :
  is_array_arg key = false ->
  rest = [] \/ (exists cb, rest = [cb] /\ is_function_or_undefined cb = true) ->
  prepare_arguments_variable_length outer (key :: AObject fields :: rest) true
  = (key :: (fields ≫= (fun f => [AStr f.1; f.2])), arg_nth rest 0)
  /\ prepare_arguments_variable_length outer (key :: AObject fields :: rest) false
     = ([key; AObject fields], arg_nth rest 0).
Proof.
  intros A [-> | (cb & -> & F)]; unfold prepare_arguments_variable_length, split_callback;
    cbn [arg_nth nth length]; destruct key; try discriminate; cbn; by rewrite ?F.
Qed.

Lemma object_form_is_flattened_witness :
  prepare_arguments_variable_length module_arguments
    [AStr (str "k"); AObject [(str "f", AStr (str "v")); (str "g", ANum (Num 1))];
     AFunction 1] true
  = ([AStr (str "k"); AStr (str "f"); AStr (str "v"); AStr (str "g"); ANum (Num 1)],
     AFunction 1).
Proof.
  exact (proj1 (object_form_is_flattened module_arguments (AStr (str "k"))
                  [(str "f", AStr (str "v")); (str "g", ANum (Num 1))] [AFunction 1]
                  eq_refl (or_intror (ex_intro _ (AFunction 1) (conj eq_refl eq_refl))))).
Defined.

(** ** The queues of a reachable client *)

Lemma well_queued_ext c c' :
  command_queue c' = command_queue c -> offline_queue c' = offline_queue c ->
  pipeline_queue c' = pipeline_queue c -> fire_strings c' = fire_strings c ->
  well_queued c -> well_queued c'.
Proof. unfold well_queued. by intros -> -> -> ->. Qed.

Lemma well_queued_view (v : RedisClient -> RedisClient) c c' :
  v c' = v c ->
  (forall x, command_queue (v x) = command_queue x) ->
  (forall x, offline_queue (v x) = offline_queue x) ->
  (forall x, pipeline_queue (v x) = pipeline_queue x) ->
  (forall x, fire_strings (v x) = fire_strings x) ->
  well_queued c -> well_queued c'.
Proof.
  intros H Q O P F. apply well_queued_ext.
  - by rewrite <- (Q c'), <- (Q c), H.
  - by rewrite <- (O c'), <- (O c), H.
  - by rewrite <- (P c'), <- (P c), H.
  - by rewrite <- (F c'), <- (F c), H.
Qed.

Ltac well_queued_by H := apply (well_queued_view _ _ _ H); intros ?; reflexivity.

Lemma well_queued_invoke cb err res c :
  well_queued c -> well_queued (invoke cb err res c).
Proof. well_queued_by (invoke_core cb err res c). Qed.

Lemma well_queued_callback_or_emit cb err res c :
  well_queued c -> well_queued (callback_or_emit cb err res c).
Proof. well_queued_by (callback_or_emit_core cb err res c). Qed.

Lemma has_sink_with_callback cb o : has_sink (with_callback (Some cb) o).
Proof. done. Qed.

Lemma well_queued_reply_in_order cb err res q c :
  well_queued c -> well_queued (reply_in_order cb err res q c).
Proof.
  intros (C & O & P & F). unfold reply_in_order.
  set (q' := match q with Some q0 => q0 | None => _ end).
  destruct (last (get_queue q' c)) as [t|]; [| done].
  destruct q'; cbn [get_queue set_queue]; unfold well_queued; cbn.
  - split; [| done]. apply Forall_replace_last; [| done]. intros. apply has_sink_with_callback.
  - split; [done |]. split; [| done].
    apply Forall_replace_last; [| done]. intros. apply has_sink_with_callback.
Qed.

Lemma well_queued_handle_offline_command o c :
  well_queued c -> has_sink o -> well_queued (handle_offline_command o c).
Proof.
  intros I H. unfold handle_offline_command.
  destruct (closing c || negb (enable_offline_queue c)).
  - by apply well_queued_reply_in_order.
  - destruct I as (C & O & P & F). unfold well_queued. cbn.
    split; [done |]. split; [| done]. apply Forall_app. split; [done | by repeat constructor].
Qed.

Lemma has_sink_flagged o : has_sink o -> has_sink (flagged o).
Proof. unfold has_sink. by rewrite callback_flagged. Qed.

Lemma well_queued_enqueue_or_skip o c :
  well_queued c -> has_sink o -> well_queued (enqueue_or_skip o c).
Proof.
  intros I H. unfold enqueue_or_skip.
  assert (X : well_queued
                match callback o with
                | Some cb => reply_in_order (Some cb) None undefined (Some Command_queue) c
                | None => c
                end).
  { destruct (callback o); [by apply well_queued_reply_in_order | done]. }
  destruct (reply c); [| exact X | revert X; by apply well_queued_ext ..].
  destruct I as (C & O & P & F). unfold well_queued. cbn.
  split; [| done]. apply Forall_app. split; [done | by repeat constructor].
Qed.

Lemma fragments_text name l : Forall is_text (fragments false name l).
Proof. by repeat constructor. Qed.

(** The pipeline queue after a write: what was queued, then the fragments
    of the command or nothing. *)
Lemma write_now_pipeline o c :
  pipeline_queue (write_now o c) = pipeline_queue c
  \/ pipeline_queue (write_now o c) = pipeline_queue c ++ command_fragments o c.
Proof.
  destruct (write_now_writes o c) as (_ & E & _). cbv zeta in E. rewrite E.
  set (c2 := if big_data _ then _ else _).
  assert (K : pipeline_queue c2 = pipeline_queue c /\ pipeline c2 = pipeline c)
    by (subst c2; by destruct (big_data _)).
  destruct K as [K1 K2]. clearbody c2.
  destruct (pipeline c) eqn:P.
  - right. destruct (write_all_corked (command_fragments o c) c2 K2) as (_ & Q & _).
    by rewrite Q, K1.
  - left. destruct (write_all_direct (command_fragments o c) c2 K2) as (_ & Q & _).
    by rewrite Q, K1.
Qed.

Lemma well_queued_write_now o c :
  well_queued c -> has_sink o -> well_queued (write_now o c).
Proof.
  intros I H.
  assert (Q : Forall has_sink (command_queue (write_now o c))
              /\ Forall has_sink (offline_queue (write_now o c))).
  { destruct (write_now_decides o c) as (c1 & -> & K1 & K2 & _).
    assert (I1 : well_queued (set_pipeline_queue [] c1)).
    { destruct I as (C & O & _). unfold well_queued. cbn. rewrite K1, K2.
      split; [done |]. split; [done |]. split; [constructor |]. intros _. constructor. }
    assert (V : command_queue (enqueue_or_skip (flagged o) (set_pipeline_queue [] c1))
                = command_queue (enqueue_or_skip (flagged o) c1)
                /\ offline_queue (enqueue_or_skip (flagged o) (set_pipeline_queue [] c1))
                   = offline_queue (enqueue_or_skip (flagged o) c1)).
    { unfold enqueue_or_skip. cbn [reply set_pipeline_queue].
      destruct (reply c1); [done | ..]; destruct (callback (flagged o)); try done;
        unfold reply_in_order; cbn; by destruct (last (command_queue c1)). }
    destruct V as [<- <-].
    destruct (well_queued_enqueue_or_skip (flagged o) _ I1 (has_sink_flagged o H))
      as (C & O & _). by split. }
  destruct Q as [Q1 Q2]. split; [exact Q1 |]. split; [exact Q2 |].
  destruct I as (_ & _ & P & F). rewrite write_now_fire_strings.
  destruct (write_now_pipeline o c) as [-> | ->].
  - split; [exact P |]. destruct (big_data _); [done | exact F].
  - split; [apply Forall_app; split; [exact P | apply fragments_truthy] |].
    unfold command_fragments. destruct (big_data _); [done |]. intros E.
    apply Forall_app. split; [by apply F | apply fragments_text].
Qed.

Lemma well_queued_internal_send_command o c :
  well_queued c -> well_queued (internal_send_command o c).1.
Proof.
  intros I. unfold internal_send_command.
  destruct (with_promise_ready o c) as (_ & _ & _ & _ & _ & _ & K).
  assert (I' : well_queued (with_promise o c).2).
  { unfold with_promise. destruct (callback o); [done |]. revert I.
    by apply well_queued_ext. }
  assert (H' : has_sink (with_promise o c).1.1) by (unfold has_sink; by rewrite K).
  destruct (with_promise o c) as [[o' d] c']. cbn [fst snd] in *.
  destruct (negb (ready c') || negb (stream_writable c')); cbn [fst].
  - by apply well_queued_handle_offline_command.
  - by apply well_queued_write_now.
Qed.

Lemma well_queued_method name arr cb c r :
  method name arr cb c = Some r -> well_queued c -> well_queued r.1.
Proof.
  unfold method. intros H I.
  destruct (outside_model name); [done |].
  destruct (SUBSCRIBE_COMMANDS name).
  { injection H as <-. by apply well_queued_internal_send_command. }
  destruct (jseq name (str "client")).
  { unfold client in H. apply bind_Some in H as (h & _ & [= <-]).
    by apply well_queued_internal_send_command. }
  destruct (jseq name (str "quit")).
  { injection H as <-. unfold quit.
    pose proof (well_queued_internal_send_command
                  (new_Command (str "quit") [] (Some (QuitCb cb)) None) c I) as X.
    destruct (internal_send_command _ c) as [c' b]. cbn [fst] in *.
    revert X. by apply well_queued_ext. }
  destruct (jseq name (str "monitor")).
  { injection H as <-. by apply well_queued_internal_send_command. }
  destruct (jseq name (str "select")).
  { injection H as <-. by apply well_queued_internal_send_command. }
  injection H as <-. by apply well_queued_internal_send_command.
Qed.

Lemma well_queued_shift o rest c :
  command_queue c = o :: rest -> well_queued c -> well_queued (set_command_queue rest c).
Proof.
  intros Q (C & O & P & F). rewrite Q in C. apply Forall_cons in C as [_ C]. by split.
Qed.

Lemma well_queued_normal_reply reply c c' :
  normal_reply reply c = Some c' -> well_queued c -> well_queued c'.
Proof.
  intros H I. unfold normal_reply in H.
  destruct (command_queue c) as [|o rest] eqn:Q; [done |].
  pose proof (well_queued_shift o rest c Q I) as I1.
  destruct (callback o) as [cb|]; cbn in H.
  - apply bind_Some in H as (r & _ & [= <-]). by apply well_queued_invoke.
  - by injection H as <-.
Qed.

Lemma well_queued_subscribe_unsubscribe reply type c c' :
  subscribe_unsubscribe reply type c = Some c' -> well_queued c -> well_queued c'.
Proof.
  intros H I. unfold subscribe_unsubscribe in H.
  destruct (command_queue c) as [|o rest] eqn:Q; [done |].
  apply bind_Some in H as (channel & _ & H). cbv zeta in H.
  set (count := to_number (js_nth reply 2)) in H.
  set (c1 := if negb (is_null channel) then acknowledge type channel count c else c) in H.
  assert (I1 : well_queued c1 /\ command_queue c1 = o :: rest).
  { rewrite <- Q. subst c1. destruct (negb _); [| done]. unfold acknowledge.
    destruct (jseq type (str "subscribe") || jseq type (str "psubscribe"));
      (split; [revert I; by apply well_queued_ext | done]). }
  destruct I1 as [I1 Q1]. clearbody c1.
  destruct (completes o (sub_commands_left c1) count channel).
  - injection H as <-.
    assert (I2 : well_queued
                   (set_command_queue rest
                      (if bool_decide (count = Num 0)
                       then set_pub_sub_mode (next_subscribe 1 rest) c1 else c1))).
    { pose proof (well_queued_shift o rest c1 Q1 I1) as X. revert X.
      destruct (bool_decide (count = Num 0)); by apply well_queued_ext. }
    destruct (callback o) as [cb|].
    + eapply well_queued_ext; cycle 4;
        [apply well_queued_invoke; exact I2 | reflexivity..].
    + revert I2. by apply well_queued_ext.
  - destruct (negb (bool_decide (sub_commands_left c1 = Num 0)));
      injection H as <-; revert I1; by apply well_queued_ext.
Qed.

Lemma well_queued_return_pub_sub l c c' :
  return_pub_sub l c = Some c' -> well_queued c -> well_queued c'.
Proof.
  unfold return_pub_sub. intros H I.
  apply bind_Some in H as (type & _ & H).
  destruct (jseq type (str "message")).
  { destruct (negb (return_buffers (options c)) || message_buffers c).
    - apply bind_Some in H as (? & _ & H). apply bind_Some in H as (? & _ & [= <-]).
      revert I. by apply well_queued_ext.
    - injection H as <-. revert I. by apply well_queued_ext. }
  destruct (jseq type (str "pmessage")).
  { destruct (negb (return_buffers (options c)) || message_buffers c).
    - apply bind_Some in H as (? & _ & H). apply bind_Some in H as (? & _ & H).
      apply bind_Some in H as (? & _ & [= <-]). revert I. by apply well_queued_ext.
    - injection H as <-. revert I. by apply well_queued_ext. }
  by eapply well_queued_subscribe_unsubscribe.
Qed.

Lemma well_queued_return_reply reply c c' :
  return_reply reply c = Some c' -> well_queued c -> well_queued c'.
Proof.
  unfold return_reply. intros H I.
  destruct (monitor_line reply c).
  { injection H as <-. revert I. by apply well_queued_ext. }
  destruct (pub_sub_mode c =? 0); [by eapply well_queued_normal_reply |].
  destruct (pub_sub_mode c =? 1); cbn [negb] in H.
  - destruct (negb (is_array reply) || (length (array_items reply) <=? 2)%nat).
    + by eapply well_queued_normal_reply.
    + by eapply well_queued_return_pub_sub.
  - eapply well_queued_normal_reply; [exact H |]. revert I. by apply well_queued_ext.
Qed.

Lemma well_queued_return_error err c c' :
  return_error err c = Some c' -> well_queued c -> well_queued c'.
Proof.
  unfold return_error. intros H I.
  destruct (command_queue c) as [|o rest] eqn:Q; [done |].
  injection H as <-. apply well_queued_callback_or_emit.
  pose proof (well_queued_shift o rest c Q I) as X. revert X.
  match goal with
  | |- context [if ?b then _ else _] => destruct b
  end; by apply well_queued_ext.
Qed.

Lemma well_queued_flush_both message code origin c :
  well_queued c -> well_queued (flush_and_error message code origin None c).
Proof.
  intros (_ & _ & P & F).
  destruct (flush_and_error_both message code origin c) as (Q1 & Q2 & B & _).
  cbv zeta in Q1, Q2, B. unfold well_queued. rewrite Q1, Q2.
  assert (pipeline_queue (flush_and_error message code origin None c) = pipeline_queue c)
    as -> by by_view B pipeline_queue.
  assert (fire_strings (flush_and_error message code origin None c) = fire_strings c)
    as -> by by_view B fire_strings.
  done.
Qed.

Lemma well_queued_flush_in_flight message code origin c :
  well_queued c ->
  well_queued (flush_and_error message code origin (Some [Command_queue]) c).
Proof.
  intros (_ & O & P & F).
  destruct (flush_and_error_in_flight message code origin c) as (Q1 & B & _).
  cbv zeta in Q1, B. cbn [erase] in B. unfold well_queued. rewrite Q1.
  assert (offline_queue (flush_and_error message code origin (Some [Command_queue]) c)
          = offline_queue c) as -> by by_view B offline_queue.
  assert (pipeline_queue (flush_and_error message code origin (Some [Command_queue]) c)
          = pipeline_queue c) as -> by by_view B pipeline_queue.
  assert (fire_strings (flush_and_error message code origin (Some [Command_queue]) c)
          = fire_strings c) as -> by by_view B fire_strings.
  done.
Qed.

Lemma well_queued_end flush c : well_queued c -> well_queued (end_ flush c).
Proof.
  intros I. unfold end_. destruct flush.
  - eapply well_queued_ext; cycle 4;
      [apply (well_queued_flush_both [] (str "NR_CLOSED") None (set_closing true c));
       revert I; by apply well_queued_ext | reflexivity..].
  - revert I. by apply well_queued_ext.
Qed.

(** The queues after a disconnect that is acted upon. *)
Lemma connection_gone_queues why error c :
  retry_timer c = None ->
  command_queue (connection_gone why error c) = []
  /\ (offline_queue (connection_gone why error c) = []
      \/ offline_queue (connection_gone why error c) = offline_queue c
      \/ offline_queue (connection_gone why error c) = unshift_apply (offline_queue c) (command_queue c)).
Proof.
  intros T. unfold connection_gone. rewrite T. cbv zeta.
  pose proof (mview_mark_disconnected c) as M.
  assert (K : command_queue (mark_disconnected c) = command_queue c
              /\ offline_queue (mark_disconnected c) = offline_queue c)
    by (split; [by_view M command_queue | by_view M offline_queue]).
  clear M. destruct K as [K1 K2]. rewrite <- K1, <- K2.
  generalize (mark_disconnected c). clear. intros c0.
  assert (B : forall message code origin,
            command_queue (flush_and_error message code origin None c0) = []
            /\ offline_queue (flush_and_error message code origin None c0) = []).
  { intros. destruct (flush_and_error_both message code origin c0) as (Q1 & Q2 & _).
    by split. }
  destruct (closing c0); [destruct (B (str "Stream connection ended and command aborted.")
                                      (str "NR_CLOSED") error) as [-> ->]; eauto |].
  assert (E : forall origin,
            command_queue
              (end_ false
                 (flush_and_error (str "Stream connection ended and command aborted.")
                    (str "NR_CLOSED") origin None c0)) = []
            /\ offline_queue
                 (end_ false
                    (flush_and_error (str "Stream connection ended and command aborted.")
                       (str "NR_CLOSED") origin None c0)) = []).
  { intros origin. apply (B (str "Stream connection ended and command aborted.")
                            (str "NR_CLOSED") origin). }
  set (strategy := match retry_strategy (options c0) with Some f => _ | None => None end).
  assert (X : forall c1,
    command_queue c1 = command_queue c0 -> offline_queue c1 = offline_queue c0 ->
    let c' :=
      if budget_exhausted c1 then
        end_ false
          (emit_error
             (JsError PlainError (broken_message c1) (Some (str "CONNECTION_BROKEN"))
                None None error [])
             (flush_and_error (broken_message c1) (str "CONNECTION_BROKEN") error
                None c1))
      else
        let c2 :=
          if retry_unfulfilled_commands (options c1) then
            set_command_queue []
               (set_offline_queue (unshift_apply (offline_queue c1) (command_queue c1)) c1)
          else
            match command_queue c1 with
            | [] => c1
            | _ :: _ =>
              flush_and_error (str "Redis connection lost and command aborted.")
                (str "UNCERTAIN_STATE") error (Some [Command_queue]) c1
            end in
        let c3 := set_retry_delay (capped_retry_delay c2) c2 in
        set_retry_timer (Some (retry_delay c3, error)) c3 in
    command_queue c' = []
    /\ (offline_queue c' = [] \/ offline_queue c' = offline_queue c0
        \/ offline_queue c' = unshift_apply (offline_queue c0) (command_queue c0))).
  { intros c1 K1 K2 c'. subst c'. rewrite <- K1, <- K2. clear. destruct (budget_exhausted c1).
    - destruct (flush_and_error_both (broken_message c1) (str "CONNECTION_BROKEN") error c1)
        as (Q1 & Q2 & _). cbv zeta in Q1, Q2. split; [exact Q1 | left; exact Q2].
    - cbv zeta.
      set (c2 := if retry_unfulfilled_commands (options c1) then _ else _).
      change (command_queue c2 = []
              /\ (offline_queue c2 = [] \/ offline_queue c2 = offline_queue c1
                  \/ offline_queue c2 = unshift_apply (offline_queue c1) (command_queue c1))).
      subst c2. destruct (retry_unfulfilled_commands (options c1)); [by eauto |].
      destruct (command_queue c1) as [|o rest] eqn:Q; [by eauto |].
      destruct (flush_and_error_in_flight
                  (str "Redis connection lost and command aborted.")
                  (str "UNCERTAIN_STATE") error c1) as (F1 & B & _).
      cbv zeta in F1, B. cbn [erase] in B. split; [exact F1 |]. right. left.
      by_view B offline_queue. }
  destruct strategy as [[d | e |]|];
    [| destruct (E (Some e)) as [-> ->]; eauto | destruct (E error) as [-> ->]; eauto |].
  - by apply (X (set_retry_delay d c0)).
  - by apply (X c0).
Qed.

Lemma well_queued_connection_gone why error c :
  well_queued c -> well_queued (connection_gone why error c).
Proof.
  intros I. destruct (retry_timer c) eqn:T.
  - unfold connection_gone. by rewrite T.
  - destruct (connection_gone_queues why error c T) as (Q & O).
    pose proof (dview_connection_gone why error c) as D.
    destruct I as (IC & IO & P & F). unfold well_queued. rewrite Q.
    assert (pipeline_queue (connection_gone why error c) = pipeline_queue c)
      as -> by by_view D pipeline_queue.
    assert (fire_strings (connection_gone why error c) = fire_strings c)
      as -> by by_view D fire_strings.
    split; [constructor |]. split; [| done].
    destruct O as [-> | [-> | ->]]; [constructor | done | by apply Forall_unshift_apply].
Qed.

Lemma well_queued_on_error err c : well_queued c -> well_queued (on_error err c).
Proof.
  intros I. unfold on_error. destruct (closing c); [done |].
  apply well_queued_connection_gone. cbv zeta.
  match goal with
  | |- well_queued (match ?x with _ => _ end) => destruct x
  end; revert I; by apply well_queued_ext.
Qed.

Lemma well_queued_on_timeout c : well_queued c -> well_queued (on_timeout c).
Proof.
  intros I. apply well_queued_connection_gone. revert I. by apply well_queued_ext.
Qed.

Lemma well_queued_return_fatal_error err c :
  well_queued c -> well_queued (return_fatal_error err c).
Proof.
  intros I. unfold return_fatal_error.
  eapply well_queued_ext; cycle 4;
    [apply (well_queued_flush_in_flight
              (str "Fatal error encountered. Command aborted.") (str "NR_FATAL")
              (Some (with_message (err_message err ++ str ". Please report this.") err))
              (set_ready false c)); revert I; by apply well_queued_ext
    | reflexivity..].
Qed.

Lemma well_queued_retry_connection c :
  well_queued c -> well_queued (retry_connection c).
Proof.
  unfold retry_connection. destruct (retry_timer c) as [[d e]|]; [| done].
  by apply well_queued_ext.
Qed.

(** [uncork] on a pipeline queue without an empty text leaves it empty. *)
Lemma uncork_empties_the_pipeline c :
  corkable c = true -> Forall truthy (pipeline_queue c) ->
  pipeline_queue (uncork c) = [] /\ fire_strings (uncork c) = true
  /\ command_queue (uncork c) = command_queue c
  /\ offline_queue (uncork c) = offline_queue c.
Proof.
  intros K F. unfold uncork. rewrite K. cbv zeta.
  set (c1 := if fire_strings c then _ else _).
  assert (W : wview c1 = wview c).
  { subst c1. destruct (fire_strings c);
      [apply wview_write_strings_loop | apply wview_write_buffers_loop]. }
  assert (Q : pipeline_queue c1 = []).
  { subst c1. destruct (fire_strings c).
    - unfold write_strings.
      by destruct (write_strings_loop_spec (pipeline_queue c) [] c F) as (? & _ & _ & Q & _).
    - unfold write_buffers.
      by destruct (write_buffers_loop_spec (pipeline_queue c) c F) as (_ & Q). }
  split; [exact Q |]. split; [reflexivity |].
  split; [by_view W command_queue | by_view W offline_queue].
Qed.

Lemma well_queued_uncork c : well_queued c -> well_queued (uncork c).
Proof.
  intros I. destruct (corkable c) eqn:K; [| unfold uncork; by rewrite K].
  destruct I as (C & O & P & F).
  destruct (uncork_empties_the_pipeline c K P) as (Q1 & Q2 & Q3 & Q4).
  unfold well_queued. rewrite Q1, Q3, Q4. by repeat split.
Qed.

Lemma well_queued_run_tick c : well_queued c -> well_queued (run_tick c).
Proof.
  intros I. unfold run_tick. destruct (ticks c) as [|[[cb err] res] rest]; [done |].
  apply well_queued_callback_or_emit. revert I. by apply well_queued_ext.
Qed.

Lemma well_queued_send_offline_loop fuel : forall c c',
  send_offline_loop fuel c = Some c' -> well_queued c -> well_queued c'.
Proof.
  induction fuel as [|n IH]; intros c c' H I; [done |]. cbn [send_offline_loop] in H.
  destruct (offline_queue c) as [|o rest] eqn:Q; [by injection H as <- |].
  apply IH in H; [done |]. apply well_queued_internal_send_command.
  destruct I as (C & O & P & F). rewrite Q in O. apply Forall_cons in O as [_ O].
  by split.
Qed.

Lemma well_queued_send_offline_queue c c' :
  send_offline_queue c = Some c' -> well_queued c -> well_queued c'.
Proof.
  unfold send_offline_queue. intros H I. apply fmap_Some in H as (c1 & H & ->).
  apply well_queued_send_offline_loop in H; [| done]. revert H. by apply well_queued_ext.
Qed.

Lemma well_queued_resubscribe cell l : forall c,
  well_queued c -> well_queued (foldl (resubscribe cell) c l).
Proof.
  induction l as [|e l IH]; intros c I; [done |]. cbn [foldl]. apply IH.
  by apply well_queued_internal_send_command.
Qed.

Lemma well_queued_on_ready c c' : on_ready c = Some c' -> well_queued c -> well_queued c'.
Proof.
  unfold on_ready. intros H I. cbv zeta in H.
  set (c0 := set_corkable true (set_ready true c)) in H.
  assert (I0 : well_queued c0) by (revert I; by apply well_queued_ext).
  clearbody c0.
  set (c1 := match selected_db c0 with Some d => _ | None => c0 end) in H.
  assert (I1 : well_queued c1).
  { subst c1. destruct (selected_db c0); [| done].
    by apply well_queued_internal_send_command. }
  clearbody c1.
  set (c2 := if monitoring c1 then _ else c1) in H.
  assert (I2 : well_queued c2).
  { subst c2. destruct (monitoring c1); [| done].
    by apply well_queued_internal_send_command. }
  clearbody c2.
  destruct (_ && _).
  - apply well_queued_send_offline_queue in H; [done |].
    apply well_queued_resubscribe. revert I2. by apply well_queued_ext.
  - apply fmap_Some in H as (c3 & H & ->).
    apply well_queued_send_offline_queue in H; [| done].
    revert H. by apply well_queued_ext.
Qed.

Lemma well_queued_on_connect c c' :
  on_connect c = Some c' -> well_queued c -> well_queued c'.
Proof.
  unfold on_connect. intros H I. apply well_queued_on_ready in H; [done |].
  revert I. by apply well_queued_ext.
Qed.

Lemma well_queued_step i c c' : step i c = Some c' -> well_queued c -> well_queued c'.
Proof.
  destruct i; cbn [step]; intros H I; try (injection H as <-).
  - apply fmap_Some in H as (r & H & ->). by apply (well_queued_method _ _ _ _ _ H).
  - unfold cork. destruct (corkable c); [| done]. revert I. by apply well_queued_ext.
  - by apply well_queued_uncork.
  - by apply well_queued_end.
  - unfold on_message_buffer_listener. destruct (_ && _); [| done].
    revert I. by apply well_queued_ext.
  - by apply (well_queued_return_reply _ _ _ H).
  - by apply (well_queued_return_error _ _ _ H).
  - by apply well_queued_return_fatal_error.
  - unfold emit_idle. destruct (_ && _); [| done]. revert I. by apply well_queued_ext.
  - by apply well_queued_on_error.
  - by apply well_queued_connection_gone.
  - by apply well_queued_connection_gone.
  - by apply well_queued_on_timeout.
  - revert I. by apply well_queued_ext.
  - revert I. by apply well_queued_ext.
  - by apply (well_queued_on_connect _ _ H).
  - by apply well_queued_retry_connection.
  - by apply well_queued_run_tick.
Qed.

Lemma well_queued_new o : well_queued (RedisClient_new o).
Proof. unfold well_queued. cbn. by repeat split. Qed.

Lemma well_queued_reachable o c : reachable o c -> well_queued c.
Proof.
  induction 1 as [|c i c' _ IH H]; [apply well_queued_new |].
  by apply (well_queued_step i c c').
Qed.

(** X28.  In every state a client can reach, the pipeline queue holds no
    empty text and, while [fire_strings] is set, no buffer: the loops of
    [write_strings] and [write_buffers] never stop before the end of the
    queue, [write_strings] never has to turn a buffer into text, and
    [uncork] leaves the pipeline queue empty. *)
Theorem pipeline_queue_is_flushed_whole o c :
  reachable o c ->
  Forall truthy (pipeline_queue c)
  /\ (fire_strings c = true -> Forall is_text (pipeline_queue c))
  /\ (corkable c = true -> pipeline_queue (uncork c) = []).
Proof.
  intros R. destruct (well_queued_reachable o c R) as (_ & _ & P & F).
  split; [exact P |]. split; [exact F |].
  intros K. by destruct (uncork_empties_the_pipeline c K P).
Qed.

(** X29.  In every state a client can reach, every command in the
    in-flight queue and in the offline queue has a completion sink: the
    callback it was sent with, or the resolver of the promise that
    [internal_send_command] made for it. *)
Theorem queued_commands_have_a_sink o c :
  reachable o c ->
  Forall has_sink (command_queue c) /\ Forall has_sink (offline_queue c).
Proof.
  intros R. destruct (well_queued_reachable o c R) as (C & O & _). by split.
Qed.

Lemma reachable_run o l : forall c c',
  reachable o c -> run l c = Some c' -> reachable o c'.
Proof.
  induction l as [|i l IH]; intros c c' R H; cbn [run] in H.
  - by injection H as <-.
  - apply bind_Some in H as (c1 & H1 & H). eapply IH; [| exact H].
    by eapply reachable_step.
Qed.

Lemma pipeline_queue_is_flushed_whole_witness :
  exists c,
    run corked_get (RedisClient_new default_options) = Some c
    /\ pipeline_queue c = [Text get_k_text]
    /\ pipeline_queue (uncork c) = [].
Proof.
  destruct (run corked_get (RedisClient_new default_options)) as [c|] eqn:H;
    [| vm_compute in H; discriminate].
  exists c. split; [reflexivity |].
  pose proof (reachable_run default_options corked_get _ c (reachable_new _) H) as R.
  destruct (pipeline_queue_is_flushed_whole default_options c R) as (_ & _ & U).
  vm_compute in H. injection H as <-. split; [reflexivity |]. by apply U.
Defined.

Lemma queued_commands_have_a_sink_witness :
  exists c,
    run corked_get (RedisClient_new default_options) = Some c
    /\ Forall has_sink (command_queue c).
Proof.
  destruct (run corked_get (RedisClient_new default_options)) as [c|] eqn:H;
    [| vm_compute in H; discriminate].
  exists c. split; [reflexivity |].
  pose proof (reachable_run default_options corked_get _ c (reachable_new _) H) as R.
  exact (proj1 (queued_commands_have_a_sink default_options c R)).
Defined.

(** ** Ready, connected and the retry timer *)

Lemma linked_ext c c' :
  ready c' = ready c -> connected c' = connected c ->
  retry_timer c' = retry_timer c -> retry_delay c' = retry_delay c ->
  linked c -> linked c'.
Proof. unfold linked. by intros -> -> -> ->. Qed.

Lemma linked_view (v : RedisClient -> RedisClient) c c' :
  v c' = v c ->
  (forall x, ready (v x) = ready x) ->
  (forall x, connected (v x) = connected x) ->
  (forall x, retry_timer (v x) = retry_timer x) ->
  (forall x, retry_delay (v x) = retry_delay x) ->
  linked c -> linked c'.
Proof.
  intros H R C T D. apply linked_ext.
  - by rewrite <- (R c'), <- (R c), H.
  - by rewrite <- (C c'), <- (C c), H.
  - by rewrite <- (T c'), <- (T c), H.
  - by rewrite <- (D c'), <- (D c), H.
Qed.

Ltac linked_by H := apply (linked_view _ _ _ H); intros ?; reflexivity.

Lemma linked_not_ready c c' :
  ready c' = false -> retry_timer c' = retry_timer c -> retry_delay c' = retry_delay c ->
  linked c -> linked c'.
Proof.
  intros R T D [_ L]. split; [by rewrite R |]. intros d e. rewrite T, D. apply L.
Qed.

Lemma linked_invoke cb err res c : linked c -> linked (invoke cb err res c).
Proof. linked_by (invoke_core cb err res c). Qed.

Lemma linked_callback_or_emit cb err res c :
  linked c -> linked (callback_or_emit cb err res c).
Proof. linked_by (callback_or_emit_core cb err res c). Qed.

Lemma linked_internal_send_command o c : linked c -> linked (internal_send_command o c).1.
Proof. linked_by (sview_internal_send_command o c). Qed.

Lemma linked_method name arr cb c r :
  method name arr cb c = Some r -> linked c -> linked r.1.
Proof.
  unfold method. intros H I.
  destruct (outside_model name); [done |].
  destruct (SUBSCRIBE_COMMANDS name).
  { injection H as <-. by apply linked_internal_send_command. }
  destruct (jseq name (str "client")).
  { unfold client in H. apply bind_Some in H as (h & _ & [= <-]).
    by apply linked_internal_send_command. }
  destruct (jseq name (str "quit")).
  { injection H as <-. unfold quit.
    pose proof (linked_internal_send_command
                  (new_Command (str "quit") [] (Some (QuitCb cb)) None) c I) as X.
    destruct (internal_send_command _ c) as [c' b]. cbn [fst] in *.
    revert X. by apply linked_not_ready. }
  destruct (jseq name (str "monitor")).
  { injection H as <-. by apply linked_internal_send_command. }
  destruct (jseq name (str "select")).
  { injection H as <-. by apply linked_internal_send_command. }
  injection H as <-. by apply linked_internal_send_command.
Qed.

Lemma linked_normal_reply reply c c' :
  normal_reply reply c = Some c' -> linked c -> linked c'.
Proof.
  intros H I. unfold normal_reply in H.
  destruct (command_queue c) as [|o rest]; [done |].
  assert (I1 : linked (set_command_queue rest c)) by (revert I; by apply linked_ext).
  destruct (callback o) as [cb|]; cbn in H.
  - apply bind_Some in H as (r & _ & [= <-]). by apply linked_invoke.
  - by injection H as <-.
Qed.

Lemma linked_subscribe_unsubscribe reply type c c' :
  subscribe_unsubscribe reply type c = Some c' -> linked c -> linked c'.
Proof.
  intros H I. unfold subscribe_unsubscribe in H.
  destruct (command_queue c) as [|o rest]; [done |].
  apply bind_Some in H as (channel & _ & H). cbv zeta in H.
  set (count := to_number (js_nth reply 2)) in H.
  set (c1 := if negb (is_null channel) then acknowledge type channel count c else c) in H.
  assert (I1 : linked c1).
  { subst c1. destruct (negb _); [| done]. unfold acknowledge.
    destruct (jseq type (str "subscribe") || jseq type (str "psubscribe"));
      revert I; by apply linked_ext. }
  clearbody c1.
  destruct (completes o (sub_commands_left c1) count channel).
  - injection H as <-.
    assert (I2 : linked
                   (set_command_queue rest
                      (if bool_decide (count = Num 0)
                       then set_pub_sub_mode (next_subscribe 1 rest) c1 else c1))).
    { revert I1. destruct (bool_decide (count = Num 0)); by apply linked_ext. }
    destruct (callback o) as [cb|].
    + eapply linked_ext; cycle 4; [apply linked_invoke; exact I2 | reflexivity..].
    + revert I2. by apply linked_ext.
  - destruct (negb (bool_decide (sub_commands_left c1 = Num 0)));
      injection H as <-; revert I1; by apply linked_ext.
Qed.

Lemma linked_return_pub_sub l c c' :
  return_pub_sub l c = Some c' -> linked c -> linked c'.
Proof.
  unfold return_pub_sub. intros H I.
  apply bind_Some in H as (type & _ & H).
  destruct (jseq type (str "message")).
  { destruct (negb (return_buffers (options c)) || message_buffers c).
    - apply bind_Some in H as (? & _ & H). apply bind_Some in H as (? & _ & [= <-]).
      revert I. by apply linked_ext.
    - injection H as <-. revert I. by apply linked_ext. }
  destruct (jseq type (str "pmessage")).
  { destruct (negb (return_buffers (options c)) || message_buffers c).
    - apply bind_Some in H as (? & _ & H). apply bind_Some in H as (? & _ & H).
      apply bind_Some in H as (? & _ & [= <-]). revert I. by apply linked_ext.
    - injection H as <-. revert I. by apply linked_ext. }
  by eapply linked_subscribe_unsubscribe.
Qed.

Lemma linked_return_reply reply c c' :
  return_reply reply c = Some c' -> linked c -> linked c'.
Proof.
  unfold return_reply. intros H I.
  destruct (monitor_line reply c).
  { injection H as <-. revert I. by apply linked_ext. }
  destruct (pub_sub_mode c =? 0); [by eapply linked_normal_reply |].
  destruct (pub_sub_mode c =? 1); cbn [negb] in H.
  - destruct (negb (is_array reply) || (length (array_items reply) <=? 2)%nat).
    + by eapply linked_normal_reply.
    + by eapply linked_return_pub_sub.
  - eapply linked_normal_reply; [exact H |]. revert I. by apply linked_ext.
Qed.

Lemma linked_return_error err c c' :
  return_error err c = Some c' -> linked c -> linked c'.
Proof.
  unfold return_error. intros H I.
  destruct (command_queue c) as [|o rest]; [done |].
  injection H as <-. apply linked_callback_or_emit. revert I.
  match goal with
  | |- context [if ?b then _ else _] => destruct b
  end; by apply linked_ext.
Qed.

Lemma linked_flush message code origin queues c :
  queues = None \/ queues = Some [Command_queue] ->
  linked c -> linked (flush_and_error message code origin queues c).
Proof.
  intros [-> | ->].
  - destruct (flush_and_error_both message code origin c) as (_ & _ & B & _).
    cbv zeta in B. linked_by B.
  - destruct (flush_and_error_in_flight message code origin c) as (_ & B & _).
    cbv zeta in B. cbn [erase] in B. linked_by B.
Qed.

Lemma linked_end flush c : linked c -> linked (end_ flush c).
Proof.
  intros I. unfold end_. destruct flush.
  - eapply linked_ext; cycle 4;
      [apply (linked_flush [] (str "NR_CLOSED") None None (set_closing true c));
       [by left | revert I; by apply linked_ext] | reflexivity..].
  - revert I. by apply linked_ext.
Qed.

(** After a disconnect that is acted upon the client is neither ready nor
    connected, and a retry, if one is pending, has the delay of the client. *)
Lemma connection_gone_linked why error c :
  retry_timer c = None ->
  let c' := connection_gone why error c in
  ready c' = false /\ connected c' = false
  /\ (retry_timer c' = None \/ exists e, retry_timer c' = Some (retry_delay c', e)).
Proof.
  intros T c'. subst c'. unfold connection_gone. rewrite T. cbv zeta.
  assert (K : ready (mark_disconnected c) = false /\ connected (mark_disconnected c) = false
              /\ retry_timer (mark_disconnected c) = None).
  { rewrite <- T. destruct c as [? ? ? ? ee]. unfold mark_disconnected. by destruct ee. }
  generalize dependent (mark_disconnected c). clear. intros c0 (R & C & T).
  assert (B : forall message code origin,
            ready (flush_and_error message code origin None c0) = false
            /\ connected (flush_and_error message code origin None c0) = false
            /\ retry_timer (flush_and_error message code origin None c0) = None).
  { intros. destruct (flush_and_error_both message code origin c0) as (_ & _ & B & _).
    cbv zeta in B.
    split; [etransitivity; [| exact R]; by_view B ready |].
    split; [etransitivity; [| exact C]; by_view B connected |].
    etransitivity; [| exact T]. by_view B retry_timer. }
  destruct (closing c0).
  { destruct (B (str "Stream connection ended and command aborted.")
                (str "NR_CLOSED") error) as (-> & -> & ->). eauto. }
  assert (E : forall origin,
            let c' := end_ false
                        (flush_and_error
                           (str "Stream connection ended and command aborted.")
                           (str "NR_CLOSED") origin None c0) in
            ready c' = false /\ connected c' = false
            /\ (retry_timer c' = None
                \/ exists e, retry_timer c' = Some (retry_delay c', e))).
  { intros origin. destruct (B (str "Stream connection ended and command aborted.")
                               (str "NR_CLOSED") origin) as (B1 & B2 & B3).
    split; [exact B1 |]. split; [exact B2 | left; exact B3]. }
  set (strategy := match retry_strategy (options c0) with Some f => _ | None => None end).
  assert (X : forall c1,
    ready c1 = false -> connected c1 = false -> retry_timer c1 = None ->
    let c' :=
      if budget_exhausted c1 then
        end_ false
          (emit_error
             (JsError PlainError (broken_message c1) (Some (str "CONNECTION_BROKEN"))
                None None error [])
             (flush_and_error (broken_message c1) (str "CONNECTION_BROKEN") error
                None c1))
      else
        let c2 :=
          if retry_unfulfilled_commands (options c1) then
            set_command_queue []
               (set_offline_queue (unshift_apply (offline_queue c1) (command_queue c1)) c1)
          else
            match command_queue c1 with
            | [] => c1
            | _ :: _ =>
              flush_and_error (str "Redis connection lost and command aborted.")
                (str "UNCERTAIN_STATE") error (Some [Command_queue]) c1
            end in
        let c3 := set_retry_delay (capped_retry_delay c2) c2 in
        set_retry_timer (Some (retry_delay c3, error)) c3 in
    ready c' = false /\ connected c' = false
    /\ (retry_timer c' = None \/ exists e, retry_timer c' = Some (retry_delay c', e))).
  { clear. intros c1 R C T c'. subst c'. destruct (budget_exhausted c1).
    - destruct (flush_and_error_both (broken_message c1) (str "CONNECTION_BROKEN") error c1)
        as (_ & _ & B & _). cbv zeta in B.
      split; [etransitivity; [| exact R]; by_view B ready |].
      split; [etransitivity; [| exact C]; by_view B connected |]. left.
      etransitivity; [| exact T]. by_view B retry_timer.
    - cbv zeta. set (c2 := if retry_unfulfilled_commands (options c1) then _ else _).
      assert (K : ready c2 = false /\ connected c2 = false).
      { subst c2. destruct (retry_unfulfilled_commands (options c1)); [done |].
        destruct (command_queue c1); [done |].
        destruct (flush_and_error_in_flight
                    (str "Redis connection lost and command aborted.")
                    (str "UNCERTAIN_STATE") error c1) as (_ & B & _).
        cbv zeta in B. cbn [erase] in B.
        split; [etransitivity; [| exact R]; by_view B ready
               | etransitivity; [| exact C]; by_view B connected]. }
      destruct K as [K1 K2]. split; [exact K1 |]. split; [exact K2 |]. right. by eexists. }
  destruct strategy as [[d | e |]|]; [| apply E | apply E |]; by apply X.
Qed.

Lemma linked_connection_gone why error c :
  linked c -> linked (connection_gone why error c).
Proof.
  intros I. destruct (retry_timer c) eqn:T.
  - unfold connection_gone. by rewrite T.
  - destruct (connection_gone_linked why error c T) as (R & C & K).
    cbv zeta in R, C, K. split; [by rewrite R |]. intros d e E.
    destruct K as [K | (e' & K)]; rewrite K in E; [done | by injection E as <- _].
Qed.

Lemma linked_on_error err c : linked c -> linked (on_error err c).
Proof.
  intros I. unfold on_error. destruct (closing c); [done |].
  apply linked_connection_gone. cbv zeta.
  match goal with
  | |- linked (match ?x with _ => _ end) => destruct x
  end; revert I; by apply linked_not_ready.
Qed.

Lemma linked_on_timeout c : linked c -> linked (on_timeout c).
Proof.
  intros I. apply linked_connection_gone. revert I. by apply linked_ext.
Qed.

Lemma linked_return_fatal_error err c : linked c -> linked (return_fatal_error err c).
Proof.
  intros I. unfold return_fatal_error.
  eapply linked_ext; cycle 4;
    [apply (linked_flush (str "Fatal error encountered. Command aborted.") (str "NR_FATAL")
              (Some (with_message (err_message err ++ str ". Please report this.") err))
              (Some [Command_queue]) (set_ready false c));
     [by right | revert I; by apply linked_not_ready]
    | reflexivity..].
Qed.

Lemma linked_retry_connection c : linked c -> linked (retry_connection c).
Proof.
  unfold retry_connection. intros I.
  destruct (retry_timer c) as [[d e]|] eqn:T; [| exact I].
  destruct I as [L1 _]. split; [| done]. intros R.
  destruct (L1 R) as [_ X]. congruence.
Qed.

Lemma linked_uncork c : linked c -> linked (uncork c).
Proof.
  intros I. unfold uncork. destruct (corkable c); [| done]. cbv zeta.
  set (c1 := if fire_strings c then _ else _).
  assert (W : wview c1 = wview c).
  { subst c1. destruct (fire_strings c);
      [apply wview_write_strings_loop | apply wview_write_buffers_loop]. }
  apply (linked_ext c1); [reflexivity.. |]. revert I. linked_by W.
Qed.

Lemma linked_run_tick c : linked c -> linked (run_tick c).
Proof.
  intros I. unfold run_tick. destruct (ticks c) as [|[[cb err] res] rest]; [done |].
  apply linked_callback_or_emit. revert I. by apply linked_ext.
Qed.

Lemma linked_on_connect c c' : on_connect c = Some c' -> linked c'.
Proof.
  unfold on_connect. intros H. destruct (on_ready_sview _ _ H) as (_ & cells & S).
  split.
  - intros _. split; [by_view S connected | by_view S retry_timer].
  - intros d e E.
    assert (retry_timer c' = None) as T by by_view S retry_timer. congruence.
Qed.

Lemma linked_step i c c' : step i c = Some c' -> linked c -> linked c'.
Proof.
  destruct i; cbn [step]; intros H I; try (injection H as <-).
  - apply fmap_Some in H as (r & H & ->). by apply (linked_method _ _ _ _ _ H).
  - unfold cork. destruct (corkable c); [| done]. revert I. by apply linked_ext.
  - by apply linked_uncork.
  - by apply linked_end.
  - unfold on_message_buffer_listener. destruct (_ && _); [| done].
    revert I. by apply linked_ext.
  - by apply (linked_return_reply _ _ _ H).
  - by apply (linked_return_error _ _ _ H).
  - by apply linked_return_fatal_error.
  - unfold emit_idle. destruct (_ && _); [| done]. revert I. by apply linked_ext.
  - by apply linked_on_error.
  - by apply linked_connection_gone.
  - by apply linked_connection_gone.
  - by apply linked_on_timeout.
  - revert I. by apply linked_ext.
  - revert I. by apply linked_ext.
  - by apply (linked_on_connect _ _ H).
  - by apply linked_retry_connection.
  - by apply linked_run_tick.
Qed.

Lemma linked_reachable o c : reachable o c -> linked c.
Proof.
  induction 1 as [|c i c' _ IH H]; [by split |]. by apply (linked_step i c c').
Qed.

(** X30.  In every state a client can reach: a ready client is connected
    and has no retry pending, so that while a retry is pending a command is
    never written but queued or rejected; and a pending retry was scheduled
    with the delay the client holds, the delay that [reconnecting]
    reports. *)
Theorem ready_means_connected o c :
  reachable o c ->
  (ready c = true -> connected c = true /\ retry_timer c = None)
  /\ (forall d e, retry_timer c = Some (d, e) ->
      d = retry_delay c
      /\ forall command_obj,
         written (events (internal_send_command command_obj c).1) = written (events c)).
Proof.
  intros R. destruct (linked_reachable o c R) as [L1 L2]. split; [exact L1 |].
  intros d e T. split; [by apply (L2 d e) |]. intros command_obj.
  assert (N : ready c = false).
  { destruct (ready c) eqn:E; [| done]. destruct (L1 eq_refl) as [_ T']. congruence. }
  unfold internal_send_command.
  assert (V : ready (with_promise command_obj c).2 = false
              /\ events (with_promise command_obj c).2 = events c).
  { unfold with_promise. by destruct (callback command_obj). }
  destruct V as [V1 V2].
  destruct (with_promise command_obj c) as [[o' p] c1]. cbn [fst snd] in *.
  rewrite V1. cbn [negb orb fst]. rewrite <- V2. f_equal.
  unfold handle_offline_command.
  destruct (closing c1 || negb (enable_offline_queue c1)); [| done].
  apply reply_in_order_requests.
Qed.

Lemma ready_means_connected_witness :
  exists c,
    run connected_then_refused (RedisClient_new default_options) = Some c
    /\ retry_timer c = Some (200, Some (with_message
         (str "Redis connection to 127.0.0.1:6379 failed - connect ECONNREFUSED")
         connection_refused))
    /\ retry_delay c = 200.
Proof.
  destruct (run connected_then_refused (RedisClient_new default_options)) as [c|] eqn:H;
    [| vm_compute in H; discriminate].
  exists c. split; [reflexivity |].
  pose proof (reachable_run default_options connected_then_refused _ c (reachable_new _) H)
    as R.
  destruct (ready_means_connected default_options c R) as (_ & D).
  assert (T : retry_timer c = Some (200, Some (with_message
         (str "Redis connection to 127.0.0.1:6379 failed - connect ECONNREFUSED")
         connection_refused))).
  { vm_compute in H. injection H as <-. reflexivity. }
  split; [exact T |]. symmetry. exact (proj1 (D _ _ T)).
Defined.
